(** * BlackVideo link accessories: platform resolution, link extraction,
      deployment, the command line and the accessory registry, embedded from
      the TypeScript sources.

    Conventions of the embedding.
    - A JavaScript string is a [string]: one character per UTF-16 code unit,
      for code units below 256.
    - An exception is a [Throw] in the [Completion] type; [try]/[catch] is
      [try_catch].  An [async] function is run to completion at its call (the
      single-threaded, run-to-completion reading of the event loop); a rejected
      promise is a [Throw].
    - [new URL], [JSON.parse], [new RegExp] and [RegExp.prototype.test]
      belong to the JavaScript host, not to the repository: they are the
      fields of the class [Host], and every theorem holds for every host.
      [SimpleHost] is one host, for a plain subset of URL, JSON and pattern
      syntax, used to evaluate the definitions on concrete inputs.
    - Console output is not part of the modelled state.
    - An entry of the platform table is a value.  The code that is embedded
      writes an entry only through the table, so this is what it observes;
      [addPlatformPattern], which pushes onto the patterns array in place, an
      array that a caller may have given to several entries, is not
      embedded. *)

From Stdlib Require Import ZArith QArith Lia Ascii String Sorted DecimalString.
From stdpp Require Import base option list strings gmap.

Local Open Scope Z_scope.

(** ** JavaScript values and string primitives *)

Module JS.

Inductive JSError : Type :=
| TypeError (msg : string)
| SyntaxError (msg : string)
| Error (msg : string).

(** The outcome of evaluating an expression or a function body. *)
Inductive Completion (A : Type) : Type :=
| Normal (a : A)
| Throw (e : JSError).
Arguments Normal {A} a.
Arguments Throw {A} e.

#[global] Instance Completion_ret : MRet Completion := @Normal.
#[global] Instance Completion_bind : MBind Completion :=
  fun A B f c => match c with Normal a => f a | Throw e => Throw e end.

(** [try { c } catch (e) { h e }] *)
Definition try_catch {A} (c : Completion A) (h : JSError -> Completion A)
  : Completion A :=
  match c with Normal a => Normal a | Throw e => h e end.

Definition code (c : ascii) : nat := nat_of_ascii c.

(** The characters matched by [\s] and removed by [trim], below 256. *)
Definition isWhiteSpace (c : ascii) : bool :=
  let n := code c in
  ((9 <=? n) && (n <=? 13) || (n =? 32) || (n =? 160))%nat.

Definition lowerChar (c : ascii) : ascii :=
  let n := code c in
  if ((65 <=? n) && (n <=? 90)
      || (192 <=? n) && (n <=? 222) && negb (n =? 215))%nat
  then ascii_of_nat (n + 32) else c.

Fixpoint toLowerCase (s : string) : string :=
  match s with
  | EmptyString => EmptyString
  | String c s' => String (lowerChar c) (toLowerCase s')
  end.

Definition startsWith (s p : string) : bool := String.prefix p s.

(** [s.includes(sub)] *)
Fixpoint includes (s sub : string) : bool :=
  startsWith s sub
  || match s with
     | EmptyString => false
     | String _ s' => includes s' sub
     end.

Fixpoint endsWith (s p : string) : bool :=
  String.eqb s p
  || match s with
     | EmptyString => false
     | String _ s' => endsWith s' p
     end.

Fixpoint dropWhile (f : ascii -> bool) (s : string) : string :=
  match s with
  | EmptyString => EmptyString
  | String c s' => if f c then dropWhile f s' else s
  end.

Fixpoint takeWhile (f : ascii -> bool) (s : string) : string :=
  match s with
  | EmptyString => EmptyString
  | String c s' => if f c then String c (takeWhile f s') else EmptyString
  end.

(** Removes the longest suffix whose characters all satisfy [f]. *)
Fixpoint dropWhileEnd (f : ascii -> bool) (s : string) : string :=
  match s with
  | EmptyString => EmptyString
  | String c s' =>
      match dropWhileEnd f s' with
      | EmptyString => if f c then EmptyString else String c EmptyString
      | r => String c r
      end
  end.

Definition trim (s : string) : string :=
  dropWhileEnd isWhiteSpace (dropWhile isWhiteSpace s).

(** [s.split(sep)] for a one-character separator. *)
Fixpoint split (sep : ascii) (s : string) : list string :=
  match s with
  | EmptyString => [EmptyString]
  | String c s' =>
      if Ascii.eqb c sep then EmptyString :: split sep s'
      else match split sep s' with
           | [] => [String c EmptyString]
           | p :: ps => String c p :: ps
           end
  end.

(** Truthiness of a value that is a string, [null] or [undefined]. *)
Definition truthy (v : option string) : option string :=
  match v with
  | Some EmptyString | None => None
  | Some s => Some s
  end.

(** A match of [lit([^stop]+)] at the start of [s]: the text of the group. *)
Definition groupAt (lit : string) (stop : ascii -> bool) (s : string)
  : option string :=
  if startsWith s lit
  then truthy (Some (takeWhile (fun c => negb (stop c))
                       (String.substring (String.length lit)
                          (String.length s) s)))
  else None.

(** The leftmost match of [lit([^stop]+)] in [s]. *)
Fixpoint matchAfter (lit : string) (stop : ascii -> bool) (s : string)
  : option string :=
  match groupAt lit stop s with
  | Some g => Some g
  | None => match s with
            | EmptyString => None
            | String _ s' => matchAfter lit stop s'
            end
  end.







(** What the code reads of a parsed [URL]. *)
Record URL : Type := mkURL {
  protocol : string;
  hostname : string;
  pathname : string;
  searchParams : list (string * string)
}.

(** [searchParams.get(k)]: the value of the first pair named [k]. *)
Fixpoint searchParams_get (ps : list (string * string)) (k : string)
  : option string :=
  match ps with
  | [] => None
  | (k', v) :: ps' => if String.eqb k' k then Some v else searchParams_get ps' k
  end.

(** A regular expression literal or [new RegExp(source, flags)]. *)
Record RegExp : Type := mkRegExp { source : string; flags : string }.

(** A value produced by [JSON.parse]; an object is the list of its own
    properties in [for..in] order. *)
#[warnings="-register-all"]
Inductive JSON : Type :=
| JNull
| JBool (b : bool)
| JNumber (q : Q)
| JString (s : string)
| JArray (items : list JSON)
| JObject (props : list (string * JSON)).

(** The built-ins the repository calls: [URL_new u] is [None] when
    [new URL(u)] throws, [JSON_parse c] is [None] when [JSON.parse(c)]
    throws, [RegExp_test r u] is [r.test(u)] for a pattern without the
    [g] and [y] flags, and [RegExp_valid source flags] is [false] when
    [new RegExp(source, flags)] throws. *)
Class Host : Type := mkHost {
  URL_new : string -> option URL;
  JSON_parse : string -> option JSON;
  RegExp_test : RegExp -> string -> bool;
  RegExp_valid : string -> string -> bool
}.

Definition new_URL `{Host} (u : string) : Completion URL :=
  match URL_new u with
  | Some o => Normal o
  | None => Throw (TypeError "Invalid URL")
  end.

Definition parse_JSON `{Host} (c : string) : Completion JSON :=
  match JSON_parse c with
  | Some v => Normal v
  | None => Throw (SyntaxError "Unexpected token")
  end.

Definition new_RegExp `{Host} (source flags : string) : Completion RegExp :=
  if RegExp_valid source flags
  then Normal {| source := source; flags := flags |}
  else Throw (SyntaxError "Invalid regular expression").

End JS.

Import JS.

(** ** modules/youtube.url.module.ts *)

Record EmbedData : Type := mkEmbedData {
  embed_url : string;
  embed_html : option string;
  embed_width : option Z;
  embed_height : option Z
}.

(** interface PlatformModule *)
Module PlatformModule.
Record t : Type := mk {
  name : string;
  process : string -> Completion string;
  getEmbedData : string -> Completion EmbedData;
  extractVideoId : string -> Completion (option string)
}.
End PlatformModule.

Module YouTubeModule.

Inductive Quality : Type := default_ | medium | high | maxres.

Definition qualityMap (quality : Quality) : string :=
  match quality with
  | default_ => "default"
  | medium => "mqdefault"
  | high => "hqdefault"
  | maxres => "maxresdefault"
  end.

Section WithHost.
Context `{Host}.

Definition isPathStop (c : ascii) : bool :=
  Ascii.eqb c "/" || Ascii.eqb c "?".

Definition extractVideoId (url : string) : Completion (option string) :=
  try_catch
    (urlObj ← new_URL url;
     let hostname := toLowerCase (hostname urlObj) in
     if includes hostname "youtu.be" then
       let pathParts := split "/" (pathname urlObj) in
       mret (truthy (pathParts !! 1%nat))
     else if includes hostname "youtube.com" then
       match truthy (searchParams_get (searchParams urlObj) "v") with
       | Some vParam => mret (Some vParam)
       | None =>
           match matchAfter "/embed/" isPathStop (pathname urlObj) with
           | Some id => mret (Some id)
           | None =>
               match matchAfter "/v/" isPathStop (pathname urlObj) with
               | Some id => mret (Some id)
               | None => mret None
               end
           end
       end
     else mret None)
    (fun _ => mret None).

Definition invalidUrl : JSError :=
  Error "Invalid YouTube URL: Could not extract video ID".

Definition process (url : string) : Completion string :=
  videoId ← extractVideoId url;
  match truthy videoId with
  | None => Throw invalidUrl
  | Some videoId =>
      mret ("https://www.youtube.com/embed/" +:+ videoId
            +:+ "?autoplay=1&enablejsapi=1")
  end.

Definition nl : string := String (ascii_of_nat 10) EmptyString.
Definition dq : string := String (ascii_of_nat 34) EmptyString.
Definition attr (k v : string) : string := k +:+ "=" +:+ dq +:+ v +:+ dq.

Definition generateEmbedHtml (videoId : string) : string :=
  nl +:+ "      <iframe " +:+ nl
  +:+ "        " +:+ attr "width" "100%" +:+ " " +:+ nl
  +:+ "        " +:+ attr "height" "100%" +:+ " " +:+ nl
  +:+ "        "
  +:+ attr "src" ("https://www.youtube.com/embed/" +:+ videoId
                  +:+ "?autoplay=1") +:+ " " +:+ nl
  +:+ "        " +:+ attr "frameborder" "0" +:+ " " +:+ nl
  +:+ "        "
  +:+ attr "allow" ("accelerometer; autoplay; clipboard-write; "
                    +:+ "encrypted-media; gyroscope; picture-in-picture")
  +:+ " " +:+ nl
  +:+ "        allowfullscreen" +:+ nl
  +:+ "      ></iframe>" +:+ nl
  +:+ "    ".

Definition getEmbedData (url : string) : Completion EmbedData :=
  videoId ← extractVideoId url;
  match truthy videoId with
  | None => Throw invalidUrl
  | Some videoId =>
      mret {| embed_url := "https://www.youtube.com/embed/" +:+ videoId
                           +:+ "?autoplay=1";
              embed_html := Some (generateEmbedHtml videoId);
              embed_width := Some 560;
              embed_height := Some 315 |}
  end.

Definition getThumbnailUrl (url : string) (quality : option Quality)
  : Completion (option string) :=
  let quality := default high quality in
  videoId ← extractVideoId url;
  match truthy videoId with
  | None => mret None
  | Some videoId =>
      mret (Some ("https://img.youtube.com/vi/" +:+ videoId +:+ "/"
                  +:+ qualityMap quality +:+ ".jpg"))
  end.

Definition isYouTubeUrl (url : string) : bool :=
  match URL_new url with
  | Some urlObj =>
      let hostname := toLowerCase (hostname urlObj) in
      includes hostname "youtube.com" || includes hostname "youtu.be"
  | None => false
  end.

Definition module : PlatformModule.t :=
  {| PlatformModule.name := "YouTube";
     PlatformModule.process := process;
     PlatformModule.getEmbedData := getEmbedData;
     PlatformModule.extractVideoId := extractVideoId |}.

End WithHost.
End YouTubeModule.

(** ** A JavaScript [Map] with string keys

    Iteration follows insertion order; [set] on a key that is present
    replaces the value where it stands. *)

Module JSMap.
Section WithValue.
Context {V : Type}.

Definition t : Type := list (string * V).

Definition empty : t := [].

Fixpoint get (m : t) (k : string) : option V :=
  match m with
  | [] => None
  | (k', v) :: m' => if String.eqb k' k then Some v else get m' k
  end.

Definition has (m : t) (k : string) : bool := bool_decide (is_Some (get m k)).

Fixpoint set (m : t) (k : string) (v : V) : t :=
  match m with
  | [] => [(k, v)]
  | (k', v') :: m' =>
      if String.eqb k' k then (k', v) :: m' else (k', v') :: set m' k v
  end.

Fixpoint delete (m : t) (k : string) : t :=
  match m with
  | [] => []
  | (k', v') :: m' =>
      if String.eqb k' k then m' else (k', v') :: delete m' k
  end.

Definition keys (m : t) : list string := m.*1.
Definition values (m : t) : list V := m.*2.

End WithValue.
Arguments t V : clear implicits.
End JSMap.

(** ** Stateful code: a state and exception monad

    A computation gets the state, returns or throws, and leaves a state; what
    was written before a [throw] stays written. *)

Module Eff.

Definition M (S A : Type) : Type := S -> Completion A * S.

Definition ret {S A} (a : A) : M S A := fun s => (Normal a, s).

Definition bind {S A B} (c : M S A) (f : A -> M S B) : M S B :=
  fun s => match c s with
           | (Normal a, s') => f a s'
           | (Throw e, s') => (Throw e, s')
           end.

Definition throw {S A} (e : JSError) : M S A := fun s => (Throw e, s).

Definition try_catch {S A} (c : M S A) (h : JSError -> M S A) : M S A :=
  fun s => match c s with
           | (Normal a, s') => (Normal a, s')
           | (Throw e, s') => h e s'
           end.

Definition gets {S A} (f : S -> A) : M S A := fun s => (Normal (f s), s).
Definition modify {S} (f : S -> S) : M S unit := fun s => (Normal tt, f s).

(** A computation that cannot touch the state. *)
Definition lift {S A} (c : Completion A) : M S A := fun s => (c, s).

Definition exec {S A} (c : M S A) (s : S) : S := (c s).2.

End Eff.

Declare Scope eff_scope.
Delimit Scope eff_scope with eff.
Notation "x <- c ;; k" := (Eff.bind c (fun x => k))
  (at level 100, c at next level, right associativity) : eff_scope.
Notation "c ;; k" := (Eff.bind c (fun _ => k))
  (at level 100, right associativity) : eff_scope.

(** ** hybrid.config.ts *)

Module HybridConfig.

Record PlatformConfig : Type := mkPlatformConfig {
  name : string;
  module : PlatformModule.t;
  patterns : list RegExp;
  enabled : bool;
  priority : Z
}.

Definition Platforms : Type := JSMap.t PlatformConfig.

Definition defaultPriority : Z := 100.

Definition re (src : string) : RegExp := {| source := src; flags := "" |}.

(** [Array.prototype.sort(compare)]: the sort is stable, so for a
    comparator that is a consistent ordering the result is the one stable
    ordering, computed here by insertion. *)
Section Sort.
Context {A : Type} (compare : A -> A -> Z).

Fixpoint insert (x : A) (l : list A) : list A :=
  match l with
  | [] => [x]
  | y :: l' => if compare y x <? 0 then y :: insert x l' else x :: y :: l'
  end.

Definition sort (l : list A) : list A := foldr insert [] l.
End Sort.

Section WithHost.
Context `{Host}.
Local Open Scope eff_scope.

(** Only the [default] case constructs a [RegExp], from the name: it throws
    when the lower-cased name followed by [\.com] is not a pattern. *)
Definition generateDefaultPatterns (platform : string)
  : Completion (list RegExp) :=
  let platformLower := toLowerCase platform in
  if String.eqb platformLower "youtube" then
    mret [ re "(?:youtube\.com\/watch\?v=|youtu\.be\/)([^&\s]+)";
           re "youtube\.com\/embed\/([^&\s]+)";
           re "youtube\.com\/v\/([^&\s]+)" ]
  else if String.eqb platformLower "facebook" then
    mret [ re "facebook\.com\/.*\/videos\/(\d+)";
           re "fb\.watch\/([^&\s]+)" ]
  else if String.eqb platformLower "instagram" then
    mret [ re "instagram\.com\/p\/([^&\s\/]+)";
           re "instagram\.com\/reel\/([^&\s\/]+)" ]
  else if String.eqb platformLower "vimeo" then
    mret [ re "vimeo\.com\/(\d+)" ]
  else if String.eqb platformLower "tiktok" then
    mret [ re "tiktok\.com\/.*\/video\/(\d+)" ]
  else if String.eqb platformLower "twitch" then
    mret [ re "twitch\.tv\/videos\/(\d+)";
           re "twitch\.tv\/([^\/]+)$" ]
  else
    pattern ← new_RegExp (platformLower +:+ "\.com") "i";
    mret [pattern].

(** The entry is built, and with it the default patterns when none are
    given, before the table is written: when the patterns cannot be built
    the call throws and the table is as it was. *)
Definition registerPlatform (name : string) (module : PlatformModule.t)
    (patterns : option (list RegExp)) (priority : option Z)
  : Eff.M Platforms unit :=
  patterns <- Eff.lift (match patterns with
                        | Some patterns => mret patterns
                        | None => generateDefaultPatterns name
                        end) ;;
  let platformConfig :=
    {| name := name;
       module := module;
       patterns := patterns;
       enabled := true;
       priority := default defaultPriority priority |} in
  Eff.modify (fun platforms =>
                JSMap.set platforms (toLowerCase name) platformConfig).

Definition matchesPatterns (url : string) (patterns : list RegExp) : bool :=
  existsb (fun pattern => RegExp_test pattern url) patterns.

Definition detectPlatform (platforms : Platforms) (url : string)
  : option PlatformConfig :=
  let sortedPlatforms :=
    sort (fun a b => priority a - priority b)
         (filter (fun p => enabled p = true) (JSMap.values platforms)) in
  List.find (fun platform => matchesPatterns url (patterns platform))
            sortedPlatforms.
End WithHost.

Definition getPlatform (platforms : Platforms) (name : string)
  : option PlatformConfig :=
  JSMap.get platforms (toLowerCase name).

Definition with_enabled (p : PlatformConfig) (e : bool) : PlatformConfig :=
  {| name := name p; module := module p; patterns := patterns p;
     enabled := e; priority := priority p |}.

Definition with_priority (p : PlatformConfig) (n : Z) : PlatformConfig :=
  {| name := name p; module := module p; patterns := patterns p;
     enabled := enabled p; priority := n |}.

(** The two mutators write one field of the entry stored under the key;
    the entry keeps its place in the map. *)
Definition setPlatformEnabled (name : string) (enabled : bool)
    (platforms : Platforms) : Platforms :=
  match JSMap.get platforms (toLowerCase name) with
  | Some platform =>
      JSMap.set platforms (toLowerCase name) (with_enabled platform enabled)
  | None => platforms
  end.

Definition setPlatformPriority (name : string) (priority : Z)
    (platforms : Platforms) : Platforms :=
  match JSMap.get platforms (toLowerCase name) with
  | Some platform =>
      JSMap.set platforms (toLowerCase name) (with_priority platform priority)
  | None => platforms
  end.


Definition getEnabledPlatforms (platforms : Platforms) : list PlatformConfig :=
  filter (fun p => enabled p = true) (JSMap.values platforms).

Definition clearPlatforms (platforms : Platforms) : Platforms := JSMap.empty.


(** *** Event listeners

    A handler runs on the state [W] of whatever it observes and may throw. *)
Section Events.
Context {W Data : Type}.

Record EventListener : Type := mkEventListener {
  event : string;
  platform : string;
  handler : Data -> Eff.M W unit
}.

Definition Listeners : Type := gmap string (list EventListener).

Definition key (event platform : string) : string :=
  event +:+ ":" +:+ platform.

Definition addEventListener (event platform : string)
    (handler : Data -> Eff.M W unit) (listeners : Listeners) : Listeners :=
  let key := key event platform in
  let listeners :=
    if bool_decide (is_Some (listeners !! key)) then listeners
    else <[key := []]> listeners in
  match listeners !! key with
  | Some l =>
      <[key := l ++ [ {| event := event; platform := platform;
                         handler := handler |} ]]> listeners
  | None => listeners
  end.

(** [listeners.forEach(listener => { try { ... } catch (error) { ... } })] *)
Fixpoint forEach (l : list EventListener) (data : Data) : Eff.M W unit :=
  match l with
  | [] => Eff.ret tt
  | listener :: l' =>
      (Eff.try_catch (handler listener data) (fun error => Eff.ret tt) ;;
       forEach l' data)%eff
  end.

Definition emitEvent (listeners : Listeners) (event platform : string)
    (data : Data) : Eff.M W unit :=
  match listeners !! key event platform with
  | Some l => forEach l data
  | None => Eff.ret tt
  end.
End Events.
Arguments EventListener W Data : clear implicits.
Arguments Listeners W Data : clear implicits.

End HybridConfig.

(** ** Global regular expressions of links.processors.ts

    A loop [while ((match = regex.exec(text)) !== null)] and [text.match] with
    a [g] pattern both list the matches from left to right, each search
    starting where the previous match ended. *)

Module Scan.

(** [matchHere s] is the match that starts at the first character of [s]:
    what the caller reads of it, and its length. *)
Fixpoint matchAll {A} (matchHere : string -> option (A * nat)) (skip : nat)
    (s : string) : list A :=
  let next k := match s with
                | EmptyString => []
                | String _ s' => matchAll matchHere k s'
                end in
  match skip with
  | S k => next k
  | O => match matchHere s with
         | Some (a, len) => a :: next (len - 1)%nat
         | None => next O
         end
  end.

Definition span (f : ascii -> bool) (s : string) : string * string :=
  let t := takeWhile f s in
  (t, String.substring (String.length t) (String.length s) s).

Definition after (p s : string) : option string :=
  if startsWith s p
  then Some (String.substring (String.length p) (String.length s) s)
  else None.

(** [https?:\/\/[^stop]+] *)
Definition httpToken (stop : ascii -> bool) (s : string)
  : option (string * nat) :=
  let token scheme :=
    rest ← after scheme s;
    match span (fun c => negb (stop c)) rest with
    | (EmptyString, _) => None
    | (body, _) =>
        Some (scheme +:+ body, (String.length scheme + String.length body)%nat)
    end in
  match token "https://" with
  | Some m => Some m
  | None => token "http://"
  end.

Definition isParen (c : ascii) : bool := Ascii.eqb c ")".

(** [/(https?:\/\/[^\s]+)/g] *)
Definition urlRegex : string -> list string :=
  matchAll (httpToken isWhiteSpace) 0.

(** [/(https?:\/\/[^\s\)]+)/g] *)
Definition plainUrlRegex : string -> list string :=
  matchAll (httpToken (fun c => isWhiteSpace c || isParen c)) 0.

(** [\[([^\]]+)\]\(([^)]+)\)]: the second group. *)
Definition markdownLink (s : string) : option (string * nat) :=
  r ← after "[" s;
  match span (fun c => negb (Ascii.eqb c "]")) r with
  | (EmptyString, _) => None
  | (text, r1) =>
      r2 ← after "](" r1;
      match span (fun c => negb (isParen c)) r2 with
      | (EmptyString, _) => None
      | (url, r3) =>
          _ ← after ")" r3;
          Some (url, (String.length text + String.length url + 4)%nat)
      end
  end.

(** [/\[([^\]]+)\]\(([^)]+)\)/g], reading [match[2]] *)
Definition markdownLinkRegex : string -> list string :=
  matchAll markdownLink 0.

Definition isPunct (c : ascii) : bool :=
  existsb (Ascii.eqb c) (list_ascii_of_string ".,;:!?)").

(** [s.replace(/[.,;:!?)]+$/, '')] *)
Definition stripTrailingPunct (s : string) : string :=
  dropWhileEnd isPunct s.

(** [fileName.match(/\.[^.]+$/)]: the last dot with what follows it, when
    something follows. *)
Fixpoint extensionMatch (s : string) : option string :=
  match s with
  | EmptyString => None
  | String c s' =>
      match extensionMatch s' with
      | Some e => Some e
      | None =>
          if Ascii.eqb c "." && negb (String.eqb s' "") && negb (includes s' ".")
          then Some s else None
      end
  end.

End Scan.

(** ** links.processors.ts: class FileLinkReader *)

Module FileLinkReader.
Section WithHost.
Context `{Host}.

Definition isValidUrl (url : string) : bool :=
  match URL_new url with
  | Some urlObj =>
      String.eqb (protocol urlObj) "http:"
      || String.eqb (protocol urlObj) "https:"
  | None => false
  end.

(** [if (isValidUrl(url)) urls.push(url)] *)
Definition pushValid (urls : list string) (url : string) : list string :=
  if isValidUrl url then urls ++ [url] else urls.

(** [item => typeof item === 'string' && this.isValidUrl(item)] *)
Definition isUrlItem (item : JSON) : option string :=
  match item with
  | JString s => if isValidUrl s then Some s else None
  | _ => None
  end.

Definition jtruthy (v : JSON) : bool :=
  match v with
  | JNull => false
  | JBool b => b
  | JNumber q => negb (Qnum q =? 0)
  | JString s => negb (String.eqb s "")
  | JArray _ | JObject _ => true
  end.

(** [data.prop]: reading a property of [null] throws; a missing property
    and a property of a primitive are [undefined]. *)
Definition getProp (data : JSON) (prop : string) : Completion (option JSON) :=
  match data with
  | JNull => Throw (TypeError "Cannot read properties of null")
  | JObject props => Normal (JSMap.get props prop)
  | _ => Normal None
  end.

(** [a || b], for operands whose evaluation has no effect *)
Definition or_else (a : option JSON) (b : option JSON) : option JSON :=
  match a with
  | Some v => if jtruthy v then a else b
  | None => b
  end.

Fixpoint extractUrlsFromObject (obj : JSON) (urls : list string)
  : list string :=
  let value (v : JSON) (urls : list string) : list string :=
    match v with
    | JString s => pushValid urls s
    | JArray items =>
        (fix forEach (l : list JSON) (urls : list string) : list string :=
           match l with
           | [] => urls
           | item :: l' =>
               forEach l'
                 match item with
                 | JString s => pushValid urls s
                 | JNull | JArray _ | JObject _ =>
                     extractUrlsFromObject item urls
                 | _ => urls
                 end
           end) items urls
    | JObject _ => extractUrlsFromObject v urls
    | _ => urls
    end in
  match obj with
  | JArray items =>
      (fix forIn (l : list JSON) (urls : list string) : list string :=
         match l with
         | [] => urls
         | v :: l' => forIn l' (value v urls)
         end) items urls
  | JObject props =>
      (fix forIn (l : list (string * JSON)) (urls : list string)
         : list string :=
         match l with
         | [] => urls
         | (_, v) :: l' => forIn l' (value v urls)
         end) props urls
  | _ => urls
  end.

Definition readJsonUrls (content : string) : Completion (list string) :=
  try_catch
    (data ← parse_JSON content;
     match data with
     | JArray items => mret (omap isUrlItem items)
     | JNull | JObject _ =>
         urls ← getProp data "urls";
         videos ← getProp data "videos";
         links ← getProp data "links";
         match or_else (or_else (or_else urls videos) links)
                 (Some (JArray [])) with
         | Some (JArray urlsArray) => mret (omap isUrlItem urlsArray)
         | _ => mret (extractUrlsFromObject data [])
         end
     | _ => mret []
     end)
    (fun error => mret []).

(** [if (isValidUrl(url) && !urls.includes(url)) urls.push(url)] *)
Definition pushNew (urls : list string) (url : string) : list string :=
  if isValidUrl url && negb (bool_decide (url ∈ urls))
  then urls ++ [url] else urls.

Definition readMarkdownUrls (content : string) : list string :=
  let urls := foldl pushValid [] (Scan.markdownLinkRegex content) in
  foldl (fun urls m => pushNew urls (Scan.stripTrailingPunct m))
        urls (Scan.plainUrlRegex content).

Definition newline : ascii := ascii_of_nat 10.

Definition readTextUrls (content : string) : list string :=
  let lines := split newline content in
  foldl (fun urls line =>
           let trimmedLine := trim line in
           if String.eqb trimmedLine "" || startsWith trimmedLine "#"
              || startsWith trimmedLine "//"
           then urls
           else if isValidUrl trimmedLine then urls ++ [trimmedLine]
           else foldl (fun urls m => pushValid urls (Scan.stripTrailingPunct m))
                      urls (Scan.urlRegex trimmedLine))
        [] lines.

End WithHost.
End FileLinkReader.

(** ** links.processors.ts: class LinkProcessor *)

Module LinkProcessor.
Section WithHost.
Context `{Host}.

Definition cleanUrl (url : string) : string :=
  trim (Scan.stripTrailingPunct url).

Definition videoPlatforms : list string :=
  [ "youtube.com"; "youtu.be"; "facebook.com"; "fb.watch"; "instagram.com";
    "vimeo.com"; "tiktok.com"; "twitch.tv"; "dailymotion.com";
    "streamable.com"; "video" ].

Definition videoExtensions : list string :=
  [ ".mp4"; ".webm"; ".ogg"; ".mov"; ".avi"; ".mkv" ].

Definition isValidVideoUrl (url : string) : bool :=
  match URL_new url with
  | Some urlObj =>
      let hostname := toLowerCase (hostname urlObj) in
      existsb (fun platform => includes hostname platform) videoPlatforms
      || existsb (endsWith (toLowerCase (pathname urlObj))) videoExtensions
  | None => false
  end.

Definition extractUrlsFromText (text : string) : list string :=
  let matches := Scan.urlRegex text in
  filter (fun url => isValidVideoUrl url = true) (map cleanUrl matches).

Definition getFileExtension (fileName : string) : string :=
  match Scan.extensionMatch fileName with
  | Some m => toLowerCase m
  | None => ""
  end.

Definition extractUrls (content fileName : string) : Completion (list string) :=
  let extension := getFileExtension fileName in
  if String.eqb extension ".json" then FileLinkReader.readJsonUrls content
  else if String.eqb extension ".md" then
    mret (FileLinkReader.readMarkdownUrls content)
  else if String.eqb extension ".txt" then
    mret (FileLinkReader.readTextUrls content)
  else mret (extractUrlsFromText content).

Definition validateUrl (url : string) : bool :=
  bool_decide (is_Some (URL_new url)).

Definition detectPlatform (url : string) : option string :=
  match URL_new url with
  | Some urlObj =>
      let hostname := toLowerCase (hostname urlObj) in
      if includes hostname "youtube.com" || includes hostname "youtu.be"
      then Some "YouTube"
      else if includes hostname "facebook.com" || includes hostname "fb.watch"
      then Some "Facebook"
      else if includes hostname "instagram.com" then Some "Instagram"
      else if includes hostname "vimeo.com" then Some "Vimeo"
      else if includes hostname "tiktok.com" then Some "TikTok"
      else if includes hostname "twitch.tv" then Some "Twitch"
      else if includes hostname "dailymotion.com" then Some "Dailymotion"
      else Some "Generic"
  | None => None
  end.

Record ProcessedUrl : Type := mkProcessedUrl {
  original : string;
  cleaned : string;
  valid : bool;
  platform : option string
}.

Definition processBatch (urls : list string) : list ProcessedUrl :=
  map (fun url => {| original := url;
                     cleaned := cleanUrl url;
                     valid := validateUrl url;
                     platform := detectPlatform url |}) urls.

End WithHost.
End LinkProcessor.

(** ** import.modules.ts: class PlatformModules

    [Statics] holds the static fields of [PlatformModules] and the platform
    table of [HybridConfig], which [registerModule] writes as well. *)

Record Statics : Type := mkStatics {
  modules : JSMap.t PlatformModule.t;
  initialized : bool;
  platforms : HybridConfig.Platforms
}.

Module PlatformModules.
Section WithHost.
Context `{Host}.
Local Open Scope eff_scope.

(** The module is stored first: it stays stored when
    [HybridConfig.registerPlatform], which works on the platform table,
    throws. *)
Definition registerModule (platform : string) (module : PlatformModule.t)
  : Eff.M Statics unit :=
  Eff.modify (fun s =>
    {| modules := JSMap.set (modules s) (toLowerCase platform) module;
       initialized := initialized s;
       platforms := platforms s |}) ;;
  (fun s =>
     let (completion, table) :=
       HybridConfig.registerPlatform platform module None None
         (platforms s) in
     (completion,
      {| modules := modules s; initialized := initialized s;
         platforms := table |})).

(** The one call of [registerModule] is for the name ['YouTube'], whose
    default patterns are literals: the call returns, and [initialized] is
    set after it. *)
Definition initialize (s : Statics) : Statics :=
  if initialized s then s
  else
    let s := Eff.exec (registerModule "YouTube" YouTubeModule.module) s in
    {| modules := modules s; initialized := true; platforms := platforms s |}.

Definition getModule (platform : string) (s : Statics)
  : option PlatformModule.t * Statics :=
  let s := initialize s in
  (JSMap.get (modules s) (toLowerCase platform), s).

Definition isSupported (platform : string) (s : Statics) : bool * Statics :=
  let s := initialize s in
  (JSMap.has (modules s) (toLowerCase platform), s).


Definition getModuleByUrl (url : string) (s : Statics)
  : option PlatformModule.t * Statics :=
  let s := initialize s in
  (match URL_new url with
   | Some urlObj =>
       let hostname := toLowerCase (hostname urlObj) in
       match List.find (fun entry => includes hostname entry.1) (modules s) with
       | Some (platform, module) => Some module
       | None =>
           if includes hostname "youtu.be" || includes hostname "youtube.com"
           then JSMap.get (modules s) "youtube"
           else None
       end
   | None => None
   end, s).

Definition noModule : JSError := Error "No module found for this URL".

Definition processUrl (url : string) (s : Statics)
  : Completion string * Statics :=
  let (module, s) := getModuleByUrl url s in
  (match module with
   | Some module => PlatformModule.process module url
   | None => Throw noModule
   end, s).

Definition getEmbedData (url : string) (s : Statics)
  : Completion EmbedData * Statics :=
  let (module, s) := getModuleByUrl url s in
  (match module with
   | Some module => PlatformModule.getEmbedData module url
   | None => Throw noModule
   end, s).

(** The state when the module has been imported. *)
Definition imported : Statics :=
  initialize {| modules := JSMap.empty; initialized := false;
                platforms := JSMap.empty |}.

End WithHost.
End PlatformModules.

(** ** link.core.deployer.dev.ts: class LinkDeployerCore *)

Module LinkDeployerCore.

Inductive DeployMode : Type := EMBED | VIDEO_STAGE.

Inductive DeployType : Type := type_url | type_file.

(** A [File] and what a [FileReader] reads from it ([None]: [onerror]). *)
Record File : Type := mkFile {
  file_name : string;
  file_text : option string
}.

Record DeployerData : Type := mkDeployerData {
  type : DeployType;
  mode : DeployMode;
  url : option string;
  file : option File;
  fileContent : option string;
  urls : option (list string);
  platform : option string
}.

(** What the core does to its collaborators, in the order it does it. *)
Inductive Effect : Type :=
| SourceSrc (playableUrl : string)   (* sourceElement.src = playableUrl *)
| VideoLoad                          (* videoElement.load() *)
| CanPlayOnce                        (* play on the next 'canplay' *)
| EmbedWindow (innerHTML : string)   (* the popup is added to the page *)
| OnDeploy (data : DeployerData)     (* config.onDeploy(data) *)
| OnCancel.                          (* config.onCancel() *)

(** The closure [playNext] of [setupVideoPlaylist]: the captured [urls] and
    the captured variable [currentIndex]. *)
Record PlayNext : Type := mkPlayNext {
  playlist : list string;
  currentIndex : nat
}.

Record World : Type := mkWorld {
  selectedFile : option File;        (* this.selectedFile *)
  currentUrl : string;               (* this.currentUrl *)
  statics : Statics;
  videoElement : bool;               (* getVideoElement() is an element *)
  sourceElement : bool;              (* #VideoSource-Stream is in the page *)
  ended : list PlayNext;             (* the 'ended' listeners of the video *)
  effects : list Effect
}.

Definition with_selectedFile (f : option File) (w : World) : World :=
  {| selectedFile := f; currentUrl := currentUrl w; statics := statics w;
     videoElement := videoElement w; sourceElement := sourceElement w;
     ended := ended w; effects := effects w |}.

Definition with_currentUrl (u : string) (w : World) : World :=
  {| selectedFile := selectedFile w; currentUrl := u; statics := statics w;
     videoElement := videoElement w; sourceElement := sourceElement w;
     ended := ended w; effects := effects w |}.

Definition with_statics (s : Statics) (w : World) : World :=
  {| selectedFile := selectedFile w; currentUrl := currentUrl w; statics := s;
     videoElement := videoElement w; sourceElement := sourceElement w;
     ended := ended w; effects := effects w |}.

Definition with_ended (l : list PlayNext) (w : World) : World :=
  {| selectedFile := selectedFile w; currentUrl := currentUrl w;
     statics := statics w;
     videoElement := videoElement w; sourceElement := sourceElement w;
     ended := l; effects := effects w |}.

Definition with_effects (l : list Effect) (w : World) : World :=
  {| selectedFile := selectedFile w; currentUrl := currentUrl w;
     statics := statics w;
     videoElement := videoElement w; sourceElement := sourceElement w;
     ended := ended w; effects := l |}.

Definition emit (e : Effect) : Eff.M World unit :=
  Eff.modify (fun w => with_effects (effects w ++ [e]) w).

Section WithHost.
Context `{Host}.
Local Open Scope eff_scope.

Definition validateUrl (url : string) : bool :=
  if String.eqb (trim url) "" then false
  else bool_decide (is_Some (URL_new url)).

Definition detectPlatform (url : string) : option string :=
  match URL_new url with
  | Some urlObj =>
      let hostname := toLowerCase (hostname urlObj) in
      if includes hostname "youtube.com" || includes hostname "youtu.be"
      then Some "YouTube"
      else if includes hostname "facebook.com" || includes hostname "fb.watch"
      then Some "Facebook"
      else if includes hostname "instagram.com" then Some "Instagram"
      else if includes hostname "vimeo.com" then Some "Vimeo"
      else if includes hostname "tiktok.com" then Some "TikTok"
      else if includes hostname "twitch.tv" then Some "Twitch"
      else if includes hostname "dailymotion.com" then Some "Dailymotion"
      else Some "Generic"
  | None => None
  end.

Definition setCurrentUrl (url : string) : Eff.M World unit :=
  Eff.modify (with_currentUrl url).

Definition setSelectedFile (file : option File) : Eff.M World unit :=
  Eff.modify (with_selectedFile file).

Definition readFileContent (file : File) : Eff.M World string :=
  match file_text file with
  | Some text => Eff.ret text
  | None => Eff.throw (Error "Failed to read file")
  end.

(** [PlatformModules.getModule(platform || 'Generic')] *)
Definition getModule (platform : option string)
  : Eff.M World (option PlatformModule.t) :=
  fun w =>
    let (module, s) :=
      PlatformModules.getModule (default "Generic" (truthy platform))
                                (statics w) in
    (Normal module, with_statics s w).

Definition deployToVideoStage (url : string) (platform : option string)
  : Eff.M World unit :=
  video <- Eff.gets videoElement ;;
  source <- Eff.gets sourceElement ;;
  if negb video || negb source then Eff.ret tt
  else
    module <- getModule platform ;;
    match module with
    | Some module =>
        Eff.try_catch
          (playableUrl <- Eff.lift (PlatformModule.process module url) ;;
           emit (SourceSrc playableUrl) ;;
           emit VideoLoad ;;
           emit CanPlayOnce)
          (fun error => Eff.ret tt)
    | None => Eff.ret tt
    end.

Definition iframe (src : string) : string :=
  YouTubeModule.nl +:+ "      <div class="
  +:+ YouTubeModule.dq +:+ "embed-content" +:+ YouTubeModule.dq +:+ ">"
  +:+ YouTubeModule.nl +:+ "        <iframe "
  +:+ YouTubeModule.attr "src" src +:+ " "
  +:+ YouTubeModule.attr "frameborder" "0"
  +:+ " allowfullscreen></iframe>"
  +:+ YouTubeModule.nl +:+ "      </div>" +:+ YouTubeModule.nl +:+ "    ".

Definition createEmbedWindow (embedData : EmbedData) : Eff.M World unit :=
  emit (EmbedWindow (default (iframe (embed_url embedData))
                             (truthy (embed_html embedData)))).

Definition deployToEmbed (url : string) (platform : option string)
  : Eff.M World unit :=
  module <- getModule platform ;;
  match module with
  | Some module =>
      Eff.try_catch
        (embedData <- Eff.lift (PlatformModule.getEmbedData module url) ;;
         createEmbedWindow embedData)
        (fun error => Eff.ret tt)
  | None => Eff.ret tt
  end.

Definition deploySingleUrl (url : string) (mode : DeployMode)
    (platform : option string) : Eff.M World unit :=
  let deployerData :=
    {| type := type_url; mode := mode; url := Some url; file := None;
       fileContent := None; urls := None;
       platform := Some (default "Generic" (truthy platform)) |} in
  match mode with
  | VIDEO_STAGE => deployToVideoStage url platform
  | EMBED => deployToEmbed url platform
  end ;;
  emit (OnDeploy deployerData).

(** Every call makes a new closure, with its own [currentIndex]. *)
Definition setupVideoPlaylist (urls : list string) : Eff.M World unit :=
  video <- Eff.gets videoElement ;;
  if negb video then Eff.ret tt
  else
    Eff.modify (fun w =>
      with_ended (ended w ++ [ {| playlist := urls; currentIndex := 0 |} ]) w).

Definition deployMultipleToVideoStage (urls : list string)
  : Eff.M World unit :=
  match urls with
  | url0 :: _ => deployToVideoStage url0 (detectPlatform url0)
  | [] => Eff.ret tt
  end ;;
  if (1 <? length urls)%nat then setupVideoPlaylist urls else Eff.ret tt.

Definition deployMultipleToEmbed (urls : list string) : Eff.M World unit :=
  match urls with
  | url0 :: _ => deployToEmbed url0 (detectPlatform url0)
  | [] => Eff.ret tt
  end.

Definition deployFromFile (file : File) (mode : DeployMode)
  : Eff.M World unit :=
  Eff.try_catch
    (fileContent <- readFileContent file ;;
     urls <- Eff.lift (LinkProcessor.extractUrls fileContent (file_name file)) ;;
     let deployerData :=
       {| type := type_file; mode := mode; url := None; file := Some file;
          fileContent := Some fileContent; urls := Some urls;
          platform := None |} in
     (if (0 <? length urls)%nat then
        match mode with
        | VIDEO_STAGE => deployMultipleToVideoStage urls
        | EMBED => deployMultipleToEmbed urls
        end
      else Eff.ret tt) ;;
     emit (OnDeploy deployerData))
    (fun error => Eff.throw error).

Definition handleDeploy (mode : DeployMode) : Eff.M World unit :=
  currentUrl <- Eff.gets currentUrl ;;
  selectedFile <- Eff.gets selectedFile ;;
  let platform :=
    if String.eqb currentUrl "" then None else detectPlatform currentUrl in
  if negb (String.eqb currentUrl "") then
    deploySingleUrl currentUrl mode platform
  else
    match selectedFile with
    | Some file => deployFromFile file mode
    | None => Eff.ret tt
    end.

(** The listener [playNext], registered at position [i] of the 'ended'
    listeners. *)
Definition playNext (i : nat) : Eff.M World unit :=
  listeners <- Eff.gets ended ;;
  match listeners !! i with
  | Some closure =>
      let currentIndex := S (currentIndex closure) in
      Eff.modify (fun w =>
        with_ended (<[i := {| playlist := playlist closure;
                              currentIndex := currentIndex |}]> (ended w)) w) ;;
      if (currentIndex <? length (playlist closure))%nat then
        match playlist closure !! currentIndex with
        | Some nextUrl => deployToVideoStage nextUrl (detectPlatform nextUrl)
        | None => Eff.ret tt
        end
      else Eff.ret tt
  | None => Eff.ret tt
  end.

(** The video element fires 'ended': its listeners run in the order they
    were added; a listener that rejects does not stop the others. *)
Fixpoint dispatch (positions : list nat) : Eff.M World unit :=
  match positions with
  | [] => Eff.ret tt
  | i :: rest =>
      Eff.try_catch (playNext i) (fun error => Eff.ret tt) ;;
      dispatch rest
  end.

Definition fireEnded : Eff.M World unit :=
  listeners <- Eff.gets ended ;;
  dispatch (seq 0 (length listeners)).

Definition handleCancel : Eff.M World unit := emit OnCancel.

Definition canDeploy (w : World) : bool :=
  negb (String.eqb (currentUrl w) "") || bool_decide (is_Some (selectedFile w)).

Definition reset : Eff.M World unit :=
  Eff.modify (fun w => with_currentUrl "" (with_selectedFile None w)).

(** A page with the video stage, just after the module has been imported. *)
Definition fresh : World :=
  {| selectedFile := None; currentUrl := "";
     statics := PlatformModules.imported;
     videoElement := true; sourceElement := true;
     ended := []; effects := [] |}.

End WithHost.

(** [isValidFileType], for the [fileTypes] of the configuration. *)
Definition isValidFileType (fileTypes : list string) (file : File) : bool :=
  let fileName := toLowerCase (file_name file) in
  existsb (fun type => endsWith fileName type) fileTypes.

End LinkDeployerCore.

(** ** A host for concrete inputs

    [SimpleHost] reads the plain shapes only.  URLs: [http:] and [https:] with
    a host of ASCII letters, digits, [-], [.] and [_], an optional numeric
    port, a path and a query taken as written (no credentials, escapes, dot
    segments or IPv6); other schemes give an empty [hostname].  JSON: integer
    numbers, strings with the one-letter escapes, arrays and objects whose
    keys are not array indices.  Patterns: a source without operators, as a
    substring test.  On these shapes it agrees with the built-ins; elsewhere
    it is merely some host. *)

Module SimpleHost.

Definition between (lo hi : nat) (c : ascii) : bool :=
  ((lo <=? code c) && (code c <=? hi))%nat.

Definition isAlpha (c : ascii) : bool := between 65 90 c || between 97 122 c.
Definition isDigit (c : ascii) : bool := between 48 57 c.
Definition oneOf (cs : string) (c : ascii) : bool :=
  existsb (Ascii.eqb c) (list_ascii_of_string cs).

Definition isSchemeChar (c : ascii) : bool :=
  isAlpha c || isDigit c || oneOf "+-." c.
Definition isHostChar (c : ascii) : bool :=
  isAlpha c || isDigit c || oneOf "-._" c.
Definition isSlash (c : ascii) : bool := oneOf "/\" c.

Definition parseQuery (q : string) : list (string * string) :=
  omap (fun pair =>
          if String.eqb pair "" then None
          else let (k, r) := Scan.span (fun c => negb (Ascii.eqb c "=")) pair in
               Some (k, default "" (Scan.after "=" r)))
       (split "&" q).

Definition parseTail (s : string) : string * list (string * string) :=
  let (path, r) := Scan.span (fun c => negb (oneOf "?#" c)) s in
  let query := match Scan.after "?" r with
               | Some q => takeWhile (fun c => negb (Ascii.eqb c "#")) q
               | None => ""
               end in
  (path, parseQuery query).

Definition parseURL (input : string) : option URL :=
  let s := dropWhileEnd (between 0 32) (dropWhile (between 0 32) input) in
  match s with
  | String c _ =>
      if isAlpha c then
        let (scheme, r) := Scan.span isSchemeChar s in
        r ← Scan.after ":" r;
        let scheme := toLowerCase scheme in
        if String.eqb scheme "http" || String.eqb scheme "https" then
          let r := dropWhile isSlash r in
          let (authority, r) :=
            Scan.span (fun c => negb (isSlash c || oneOf "?#" c)) r in
          let (host, port) := Scan.span isHostChar authority in
          let portOk :=
            match port with
            | EmptyString => true
            | String ":" digits =>
                String.eqb (takeWhile isDigit digits) digits
            | _ => false
            end in
          if String.eqb host "" || negb portOk then None
          else
            let (path, query) := parseTail r in
            Some {| protocol := scheme +:+ ":";
                    hostname := toLowerCase host;
                    pathname := if String.eqb path "" then "/" else path;
                    searchParams := query |}
        else
          let (path, query) := parseTail r in
          Some {| protocol := scheme +:+ ":"; hostname := "";
                  pathname := path; searchParams := query |}
      else None
  | EmptyString => None
  end.

Definition quote : ascii := ascii_of_nat 34.
Definition isJsonSpace (c : ascii) : bool :=
  existsb (Nat.eqb (code c)) [32; 9; 10; 13]%nat.
Definition skipWs : string -> string := dropWhile isJsonSpace.

(** The characters of a string literal, after its opening quote. *)
Fixpoint parseChars (s : string) : option (string * string) :=
  match s with
  | EmptyString => None
  | String c r =>
      if Ascii.eqb c quote then Some (EmptyString, r)
      else if Ascii.eqb c "\" then
        match r with
        | String e r' =>
            ch ← (if Ascii.eqb e quote then Some quote
                  else if oneOf "\/" e then Some e
                  else if Ascii.eqb e "n" then Some (ascii_of_nat 10)
                  else if Ascii.eqb e "t" then Some (ascii_of_nat 9)
                  else if Ascii.eqb e "r" then Some (ascii_of_nat 13)
                  else if Ascii.eqb e "b" then Some (ascii_of_nat 8)
                  else if Ascii.eqb e "f" then Some (ascii_of_nat 12)
                  else None);
            '(t, rest) ← parseChars r';
            Some (String ch t, rest)
        | EmptyString => None
        end
      else if between 0 31 c then None
      else '(t, rest) ← parseChars r; Some (String c t, rest)
  end.

Definition digitsValue (ds : string) : Z :=
  foldl (fun n c => 10 * n + Z.of_nat (code c - 48)) 0 (list_ascii_of_string ds).

Definition parseNumber (s : string) : option (JSON * string) :=
  let (neg, r) := match Scan.after "-" s with
                  | Some r => (true, r)
                  | None => (false, s)
                  end in
  let (ds, rest) := Scan.span isDigit r in
  let leadingZero := startsWith ds "0" && negb (String.eqb ds "0") in
  let more := match rest with
              | String c _ => oneOf ".eE" c
              | EmptyString => false
              end in
  if String.eqb ds "" || leadingZero || more then None
  else
    let n := digitsValue ds in
    Some (JNumber (inject_Z (if neg then - n else n)), rest).

Fixpoint parseValue (fuel : nat) (s : string) : option (JSON * string) :=
  match fuel with
  | O => None
  | S fuel =>
      match skipWs s with
      | EmptyString => None
      | String c r as s =>
          if Ascii.eqb c quote then
            '(t, rest) ← parseChars r; Some (JString t, rest)
          else if Ascii.eqb c "[" then
            match skipWs r with
            | String "]" rest => Some (JArray [], rest)
            | r =>
                (fix items (n : nat) (r : string) (acc : list JSON) :=
                   match n with
                   | O => None
                   | S n =>
                       '(v, r) ← parseValue fuel r;
                       match skipWs r with
                       | String "," r => items n r (acc ++ [v])
                       | String "]" rest => Some (JArray (acc ++ [v]), rest)
                       | _ => None
                       end
                   end) fuel r []
            end
          else if Ascii.eqb c "{" then
            match skipWs r with
            | String "}" rest => Some (JObject [], rest)
            | r =>
                (fix members (n : nat) (r : string)
                     (acc : list (string * JSON)) :=
                   match n with
                   | O => None
                   | S n =>
                       r ← (c ← head (list_ascii_of_string (skipWs r));
                            if Ascii.eqb c quote
                            then Scan.after (String quote "") (skipWs r)
                            else None);
                       '(k, r) ← parseChars r;
                       r ← Scan.after ":" (skipWs r);
                       '(v, r) ← parseValue fuel r;
                       let acc := JSMap.set acc k v in
                       match skipWs r with
                       | String "," r => members n r acc
                       | String "}" rest => Some (JObject acc, rest)
                       | _ => None
                       end
                   end) fuel r []
            end
          else
            match Scan.after "null" s, Scan.after "true" s,
                  Scan.after "false" s with
            | Some rest, _, _ => Some (JNull, rest)
            | _, Some rest, _ => Some (JBool true, rest)
            | _, _, Some rest => Some (JBool false, rest)
            | _, _, _ => parseNumber s
            end
      end
  end.

Definition parseJSON (text : string) : option JSON :=
  '(v, rest) ← parseValue (S (String.length text)) text;
  if String.eqb (skipWs rest) "" then Some v else None.

(** A source without operators: [\c] stands for [c]. *)
Fixpoint literal (src : string) : string :=
  match src with
  | String "\" (String c r) => String c (literal r)
  | String c r => String c (literal r)
  | EmptyString => EmptyString
  end.

Definition test (r : RegExp) (text : string) : bool :=
  if includes (flags r) "i"
  then includes (toLowerCase text) (toLowerCase (literal (source r)))
  else includes text (literal (source r)).

(** A source without the operators that repeat, group, class or
    alternate, and without a backslash at its end, is a pattern; a source
    with one of these operators is refused.  The flags are letters of
    [dgimsy], each at most once. *)
Fixpoint plainSource (src : string) : bool :=
  match src with
  | String "\" (String c r) => plainSource r
  | String c r => negb (oneOf "\*+?()[]{}|" c) && plainSource r
  | EmptyString => true
  end.

Fixpoint plainFlags (seen fl : string) : bool :=
  match fl with
  | String c r =>
      oneOf "dgimsy" c && negb (oneOf seen c) && plainFlags (String c seen) r
  | EmptyString => true
  end.

Definition valid (src fl : string) : bool :=
  plainSource src && plainFlags "" fl.

Definition host : Host :=
  {| URL_new := parseURL; JSON_parse := parseJSON; RegExp_test := test;
     RegExp_valid := valid |}.

End SimpleHost.

(** ** core/registry/accessories.registry.ts: class AccessoryRegistry

    The registry reads one field of an accessory, its [id]. *)

Module AccessoryRegistry.
Section WithAccessory.
Context {BlackVideoAccessory : Type} (id : BlackVideoAccessory -> string).

Definition t : Type := JSMap.t BlackVideoAccessory.

Definition create : t := JSMap.empty.

Definition register (accessory : BlackVideoAccessory) (accessories : t) : t :=
  JSMap.set accessories (id accessory) accessory.

Definition unregister (i : string) (accessories : t) : t :=
  JSMap.delete accessories i.

Definition getAll (accessories : t) : list BlackVideoAccessory :=
  JSMap.values accessories.

Definition get (i : string) (accessories : t) : option BlackVideoAccessory :=
  JSMap.get accessories i.

End WithAccessory.
End AccessoryRegistry.

(** ** cli/link.deployer.cli.connector.ts: class LinkDeployerCLI *)

Module LinkDeployerCLI.

(** The shapes of [data] in the responses. *)
Inductive Data : Type :=
| DataProcessedUrl (processedUrl : string)
| DataPlatforms (platforms : list string)
| DataPlatform (platform : option string)
| DataVideoId (videoId : option string)
| DataEmbed (embedData : EmbedData).

Record CLIResponse : Type := mkCLIResponse {
  success : bool;
  message : string;
  data : option Data
}.

(** The method that a command's [handler] is bound to. *)
Inductive Handler : Type :=
| ToProcess | ToPlatforms | ToDetect | ToExtract | ToEmbed | ToFile | ToHelp
| ToConfig.

Record CLICommand : Type := mkCLICommand {
  name : string;
  description : string;
  usage : string;
  handler : Handler
}.

(** A response without [data]. *)
Definition plain (success : bool) (message : string) : CLIResponse :=
  {| success := success; message := message; data := None |}.

(** [this.commands] after [registerCommands]. *)
Definition commands : JSMap.t CLICommand :=
  foldl (fun m entry => JSMap.set m entry.1 entry.2) JSMap.empty
    [ ("process", {| name := "process"; description := "Process a video URL";
                     usage := "process <url>"; handler := ToProcess |});
      ("platforms", {| name := "platforms";
                       description := "List supported platforms";
                       usage := "platforms"; handler := ToPlatforms |});
      ("detect", {| name := "detect";
                    description := "Detect platform from URL";
                    usage := "detect <url>"; handler := ToDetect |});
      ("extract", {| name := "extract";
                     description := "Extract video ID from URL";
                     usage := "extract <url>"; handler := ToExtract |});
      ("embed", {| name := "embed"; description := "Get embed data for URL";
                   usage := "embed <url>"; handler := ToEmbed |});
      ("file", {| name := "file"; description := "Process URLs from file";
                  usage := "file <filepath>"; handler := ToFile |});
      ("help", {| name := "help"; description := "Show help information";
                  usage := "help [command]"; handler := ToHelp |});
      ("config", {| name := "config"; description := "Show configuration";
                    usage := "config"; handler := ToConfig |}) ].

Section WithHost.
Context `{Host}.
Local Open Scope eff_scope.











Definition getCommands : list CLICommand := JSMap.values commands.

End WithHost.
End LinkDeployerCLI.

(** * Definitions used by the statements *)

Module Spec.

(** The first element of [l], in list order, among those that satisfy [f]
    and have the least [key]. *)
Section Best.
Context {A : Type} (key : A -> Z) (f : A -> bool).

Fixpoint best (l : list A) : option A :=
  match l with
  | [] => None
  | x :: l' =>
      if f x then
        match best l' with
        | Some y => if key y <? key x then Some y else Some x
        | None => Some x
        end
      else best l'
  end.
End Best.

(** One of the patterns of the entry [p] matches [url]. *)
Definition matches `{Host} (url : string) (p : HybridConfig.PlatformConfig)
  : Prop :=
  exists pattern,
    pattern ∈ HybridConfig.patterns p /\ RegExp_test pattern url = true.

(** De-duplication by string equality that keeps the first occurrence. *)
Fixpoint dedupe (l : list string) : list string :=
  match l with
  | [] => []
  | x :: l' => x :: filter (fun y => y <> x) (dedupe l')
  end.

(** What one call [deployToVideoStage url (detectPlatform url)] or
    [deployToEmbed url (detectPlatform url)] does to its surface, in a state
    of the module tables: nothing when no module is registered for the
    platform or the module throws. *)
Section Deployment.
Context `{Host}.
Import LinkDeployerCore.

Definition handlerFor (s : Statics) (url : string)
  : option PlatformModule.t :=
  (PlatformModules.getModule
     (default "Generic" (truthy (detectPlatform url))) s).1.

Definition delivery (s : Statics) (url : string) : list Effect :=
  match handlerFor s url with
  | Some module =>
      match PlatformModule.process module url with
      | Normal playableUrl => [SourceSrc playableUrl; VideoLoad; CanPlayOnce]
      | Throw _ => []
      end
  | None => []
  end.

Definition embedding (s : Statics) (url : string) : list Effect :=
  match handlerFor s url with
  | Some module =>
      match PlatformModule.getEmbedData module url with
      | Normal embedData =>
          [EmbedWindow (default (iframe (embed_url embedData))
                                (truthy (embed_html embedData)))]
      | Throw _ => []
      end
  | None => []
  end.

(** The stage is in the page. *)
Definition ready (w : World) : bool := videoElement w && sourceElement w.

(** The world after such a call: the effects are appended, and the
    module tables are initialized if they were not. *)
Definition after (done : list Effect) (w : World) : World :=
  with_effects (effects w ++ done)
    (with_statics (PlatformModules.initialize (statics w)) w).
End Deployment.

End Spec.

(** Data for the concrete instances of the statements. *)
Module Sample.

Definition handler : PlatformModule.t := @YouTubeModule.module SimpleHost.host.

(** Two platforms of equal priority whose patterns both match
    [https://video.example.com/1], then a third of lower priority value
    that is disabled. *)
Definition table : HybridConfig.Platforms :=
  let register name patterns priority :=
    Eff.exec (@HybridConfig.registerPlatform SimpleHost.host name handler
                (Some patterns) (Some priority)) in
  HybridConfig.setPlatformEnabled "first" false
    (register "First" [HybridConfig.re "video\.example"] 10
       (register "Clips" [HybridConfig.re "video"] 50
          (register "Tube"
             [HybridConfig.re "nothing"; HybridConfig.re "example\.com"]
             50 JSMap.empty))).

Definition tube : HybridConfig.PlatformConfig :=
  {| HybridConfig.name := "Tube"; HybridConfig.module := handler;
     HybridConfig.patterns :=
       [HybridConfig.re "nothing"; HybridConfig.re "example\.com"];
     HybridConfig.enabled := true; HybridConfig.priority := 50 |}.

(** Three subscribers of one key, the second of which throws after it has
    written, and a subscriber of another key. *)
Definition note (tag : string) (fails : bool)
  : string -> Eff.M (list string) unit :=
  fun data log =>
    (if fails then Throw (Error tag) else Normal tt, log ++ [tag +:+ data]).

Definition listeners : HybridConfig.Listeners (list string) string :=
  HybridConfig.addEventListener "video-loaded" "YouTube" (note "c" false)
    (HybridConfig.addEventListener "video-loaded" "Vimeo" (note "x" false)
       (HybridConfig.addEventListener "video-loaded" "YouTube" (note "b" true)
          (HybridConfig.addEventListener "video-loaded" "YouTube"
             (note "a" false) ∅))).

Definition quoted (s : string) : string :=
  YouTubeModule.dq +:+ s +:+ YouTubeModule.dq.

(** The same URL twice, as a plain-text file, a JSON file, a Markdown file
    with two inline links, and a file without a known extension. *)
Definition text : string :=
  "https://a.com/x" +:+ YouTubeModule.nl +:+ "https://a.com/x".
Definition json : string :=
  "[" +:+ quoted "https://a.com/x" +:+ ", " +:+ quoted "https://a.com/x"
  +:+ "]".
Definition markdown : string := "[A](https://a.com/1) [B](https://a.com/1)".
Definition loose : string := "https://youtu.be/a https://youtu.be/a".

(** The linked-document example of the specification. *)
Definition prose : string :=
  "[A](https://a.com/1) then https://a.com/1 again and https://b.com/2".

Import LinkDeployerCore.

(** A playlist of three, deployed to the stage from a file and advanced
    once, so that its second item is playing; then a single URL is typed
    and deployed to the stage. *)
Definition playlistFile : File :=
  {| file_name := "list.txt";
     file_text := Some ("https://youtu.be/a" +:+ YouTubeModule.nl
                        +:+ "https://youtu.be/b" +:+ YouTubeModule.nl
                        +:+ "https://youtu.be/c") |}.

Definition midSequence : World :=
  Eff.exec (@fireEnded SimpleHost.host)
    (Eff.exec (@handleDeploy SimpleHost.host VIDEO_STAGE)
       (with_selectedFile (Some playlistFile) (@fresh SimpleHost.host))).

Definition afterSingle : World :=
  Eff.exec (@handleDeploy SimpleHost.host VIDEO_STAGE)
    (with_currentUrl "https://youtu.be/new" midSequence).

(** A text that is not a URL, typed as the single URL. *)
Definition malformed : World :=
  with_currentUrl "not a url" (@fresh SimpleHost.host).

Definition threeUrls : list string :=
  ["https://youtu.be/a"; "https://youtu.be/b"; "https://youtu.be/c"].

Definition embedOf (id : string) : string :=
  "https://www.youtube.com/embed/" +:+ id +:+ "?autoplay=1&enablejsapi=1".

Definition fiveUrls : list string :=
  [ "https://youtu.be/o1"; "https://youtu.be/o2"; "https://youtu.be/o3";
    "https://youtu.be/o4"; "https://youtu.be/o5" ].

(** A stage on which a batch of five has been deployed and nothing has
    ended yet. *)
Definition afterFive : World :=
  Eff.exec (@deployMultipleToVideoStage SimpleHost.host fiveUrls)
           (@fresh SimpleHost.host).

End Sample.


(** * Definitions used by the further statements *)

Module Table.

(** Every entry of the platform table sits under the lower-cased name it
    carries, and no key occurs twice. *)
Definition keyed (platforms : HybridConfig.Platforms) : Prop :=
  Forall (fun kp => kp.1 = toLowerCase (HybridConfig.name kp.2)) platforms.

Definition wf (platforms : HybridConfig.Platforms) : Prop :=
  NoDup (JSMap.keys platforms) /\ keyed platforms.

(** The names whose default patterns are literals. *)
Definition literals : list string :=
  [ "youtube"; "facebook"; "instagram"; "vimeo"; "tiktok"; "twitch" ].

End Table.



Module Walk.
Section WithHost.
Context `{Host}.
Import FileLinkReader.

(** The body of [value.forEach] in [extractUrlsFromObject]. *)
Definition item (v : JSON) (urls : list string) : list string :=
  match v with
  | JString s => pushValid urls s
  | JNull | JArray _ | JObject _ => extractUrlsFromObject v urls
  | _ => urls
  end.

(** The body of the [for..in] loop of [extractUrlsFromObject]. *)
Definition value (v : JSON) (urls : list string) : list string :=
  match v with
  | JString s => pushValid urls s
  | JArray items => foldl (fun urls it => item it urls) urls items
  | JObject _ => extractUrlsFromObject v urls
  | _ => urls
  end.

End WithHost.
End Walk.

Module Text.

Fixpoint last (s : string) : option ascii :=
  match s with
  | EmptyString => None
  | String c EmptyString => Some c
  | String _ s' => last s'
  end.

Fixpoint all (f : ascii -> bool) (s : string) : bool :=
  match s with
  | EmptyString => true
  | String c s' => f c && all f s'
  end.

Definition noSpace : string -> bool := all (fun c => negb (isWhiteSpace c)).

End Text.


Module Lines.
Section WithHost.
Context `{Host}.
Import FileLinkReader.

(** What [readTextUrls] takes from one line. *)
Definition ofLine (line : string) : list string :=
  let trimmedLine := trim line in
  if String.eqb trimmedLine "" || startsWith trimmedLine "#"
     || startsWith trimmedLine "//"
  then []
  else if isValidUrl trimmedLine then [trimmedLine]
  else filter (fun u => isValidUrl u = true)
         (Scan.stripTrailingPunct <$> Scan.urlRegex trimmedLine).

End WithHost.
End Lines.

Module Cursor.
Import LinkDeployerCore.

(** [currentIndex++] on the closure of a playlist. *)
Definition advance (c : PlayNext) : PlayNext :=
  {| playlist := playlist c; currentIndex := S (currentIndex c) |}.

(** [currentIndex++], [k] times. *)
Definition advanceBy (k : nat) (c : PlayNext) : PlayNext :=
  {| playlist := playlist c; currentIndex := (k + currentIndex c)%nat |}.

(** The closure has no item after its current one. *)
Definition exhausted (c : PlayNext) : Prop :=
  (length (playlist c) <= S (currentIndex c))%nat.

Section WithHost.
Context `{Host}.

(** What the closure hands to the stage when it runs: its next item, if it
    has one. *)
Definition next (s : Statics) (c : PlayNext) : list Effect :=
  match playlist c !! S (currentIndex c) with
  | Some nextUrl => Spec.delivery s nextUrl
  | None => []
  end.

(** The closures [cs] after [k] firings, and what they hand to the stage
    on the next one. *)
Definition stale (s : Statics) (cs : list PlayNext) (k : nat) : list Effect :=
  concat (next s <$> (advanceBy k <$> cs)).

(** The record that [deployFromFile] passes to [onDeploy]. *)
Definition fileData (file : File) (mode : DeployMode) (fileContent : string)
    (urls : list string) : DeployerData :=
  {| type := type_file; mode := mode; url := None; file := Some file;
     fileContent := Some fileContent; urls := Some urls; platform := None |}.

(** The record that [deploySingleUrl] passes to [onDeploy]. *)
Definition urlData (url : string) (mode : DeployMode) : DeployerData :=
  {| type := type_url; mode := mode; url := Some url; file := None;
     fileContent := None; urls := None;
     platform := Some (default "Generic" (truthy (detectPlatform url))) |}.

End WithHost.
End Cursor.

(** Data for the concrete instances of the further statements. *)
Module Cases.

(** An object with URLs in it and none of the three recognised names. *)
Definition nested : string :=
  "{" +:+ Sample.quoted "title" +:+ ": " +:+ Sample.quoted "https://a.com/x"
  +:+ ", " +:+ Sample.quoted "items" +:+ ": ["
  +:+ Sample.quoted "https://b.com/y" +:+ "]}".

Definition sentence : string := "watch https://youtu.be/a, now!".

Import LinkDeployerCore.

Definition shouting : File :=
  {| file_name := "My.List.JSON"; file_text := Some Sample.json |}.

Definition unreadable : File := {| file_name := "list.txt"; file_text := None |}.

Definition notes : File :=
  {| file_name := "notes.md"; file_text := Some "no links in here" |}.

Definition single : File :=
  {| file_name := "one.txt"; file_text := Some "https://youtu.be/a" |}.

Definition withFile (f : File) : World :=
  with_selectedFile (Some f) (@fresh SimpleHost.host).

(** Two playlists attached to the stage, the first of them at its last
    item. *)
Definition stacked : World :=
  with_ended
    [ {| playlist := ["https://youtu.be/a"; "https://youtu.be/b"];
         currentIndex := 1 |};
      {| playlist := ["https://youtu.be/c"; "https://youtu.be/d"];
         currentIndex := 0 |} ]
    (@fresh SimpleHost.host).

(** A page without the video stage. *)
Definition noStage : World :=
  {| selectedFile := None; currentUrl := "https://youtu.be/a";
     statics := @PlatformModules.imported SimpleHost.host;
     videoElement := false; sourceElement := false;
     ended := []; effects := [] |}.

(** The disabled entry of the sample table. *)
Definition first : HybridConfig.PlatformConfig :=
  {| HybridConfig.name := "First"; HybridConfig.module := Sample.handler;
     HybridConfig.patterns := [HybridConfig.re "video\.example"];
     HybridConfig.enabled := false; HybridConfig.priority := 10 |}.

(** The file types of the integration example. *)
Definition fileTypes : list string := [".txt"; ".json"; ".md"].

Definition upperNotes : LinkDeployerCore.File :=
  {| LinkDeployerCore.file_name := "Week.1.Notes.MD";
     LinkDeployerCore.file_text := Some "" |}.

(** Two registrations after the import, the first of which throws. *)
Definition registrations : list (string * PlatformModule.t) :=
  [ ("C++", Sample.handler); ("Vimeo", Sample.handler) ].


End Cases.

Module Registered.
Section WithHost.
Context `{Host}.

(** The registry after the import and the calls
    [registerModule(platform, module)] of [regs], in that order, each of
    which has returned or thrown. *)
Definition after (regs : list (string * PlatformModule.t)) : Statics :=
  foldl (fun s r => Eff.exec (PlatformModules.registerModule r.1 r.2) s)
        PlatformModules.imported regs.

End WithHost.
End Registered.

Module Calls.
Section WithAccessory.
Context {BlackVideoAccessory : Type} (id : BlackVideoAccessory -> string).

Inductive Call : Type :=
| Register (accessory : BlackVideoAccessory)
| Unregister (i : string).

Definition step (accessories : AccessoryRegistry.t) (c : Call)
  : AccessoryRegistry.t :=
  match c with
  | Register a => AccessoryRegistry.register id a accessories
  | Unregister i => AccessoryRegistry.unregister i accessories
  end.

(** The registry after the calls of [cs] on a new registry, in that order. *)
Definition run (cs : list Call) : AccessoryRegistry.t :=
  foldl step AccessoryRegistry.create cs.

(** No id is listed twice, and every accessory is listed under its id. *)
Definition wf (accessories : AccessoryRegistry.t) : Prop :=
  NoDup (JSMap.keys accessories)
  /\ Forall (fun entry => entry.1 = id entry.2) accessories.

(** [names i c]: the call [c] is about the id [i]. *)
Definition names (i : string) (c : Call) : bool :=
  match c with
  | Register a => String.eqb (id a) i
  | Unregister j => String.eqb j i
  end.

(** What the last call of [cs] about [i] leaves under [i]. *)
Definition latest (i : string) (cs : list Call) : option BlackVideoAccessory :=
  match List.find (names i) (rev cs) with
  | Some (Register a) => Some a
  | _ => None
  end.

End WithAccessory.
End Calls.

Module Ext.

(** A file type of the form [.ext]: a dot and then one character or more,
    none of them a dot. *)
Definition plain (type : string) : bool :=
  match type with
  | String c rest =>
      Ascii.eqb c "." && negb (String.eqb rest "") && negb (includes rest ".")
  | EmptyString => false
  end.

End Ext.

(** * Properties *)

(** ** The YouTube handler *)

Module YouTubeFacts.
Section WithHost.
Context `{Host}.

Lemma truthy_idem (v : option string) : truthy (truthy v) = truthy v.
Proof. by destruct v as [[|c s]|]. Qed.

Lemma truthy_Some (v : option string) (s : string) :
  truthy v = Some s -> v = Some s /\ s <> "".
Proof. destruct v as [[|c t]|]; simpl; intros E; by simplify_eq. Qed.

Lemma groupAt_truthy lit stop (s : string) :
  truthy (groupAt lit stop s) = groupAt lit stop s.
Proof.
  unfold groupAt. destruct (startsWith s lit); [apply truthy_idem|done].
Qed.

Lemma matchAfter_truthy lit stop (s : string) :
  truthy (matchAfter lit stop s) = matchAfter lit stop s.
Proof.
  induction s as [|c s IH]; cbn [matchAfter];
    destruct (groupAt lit stop _) eqn:E; try done;
    rewrite <- E; apply groupAt_truthy.
Qed.

(** What [extractVideoId] returns is never the empty string, so the test
    [!videoId] of its callers is a test for [null]. *)
Lemma extractVideoId_returns (url : string) :
  exists r, YouTubeModule.extractVideoId url = Normal r /\ truthy r = r.
Proof.
  unfold YouTubeModule.extractVideoId, new_URL.
  destruct (URL_new url) as [o|]; simpl; [|by exists None].
  destruct (includes _ "youtu.be"); simpl.
  { eexists; split; [done|apply truthy_idem]. }
  destruct (includes _ "youtube.com"); simpl; [|by exists None].
  destruct (truthy (searchParams_get _ _)) as [v|] eqn:Ev; simpl.
  { exists (Some v). split; [done|]. rewrite <- Ev. apply truthy_idem. }
  destruct (matchAfter "/embed/" _ _) as [e|] eqn:Ee; simpl.
  { exists (Some e). split; [done|]. rewrite <- Ee. apply matchAfter_truthy. }
  destruct (matchAfter "/v/" _ _) as [e|] eqn:Ef; simpl.
  { exists (Some e). split; [done|]. rewrite <- Ef. apply matchAfter_truthy. }
  by exists None.
Qed.

End WithHost.
End YouTubeFacts.

(** C7. [extractVideoId] returns for every input string and never throws;
    it returns [null] when the input does not parse as a URL, and when the
    host of the URL names neither [youtu.be] nor [youtube.com]. *)
Theorem extractVideoId_never_throws `{Host} (url : string) :
  (exists r, YouTubeModule.extractVideoId url = Normal r)
  /\ (URL_new url = None -> YouTubeModule.extractVideoId url = Normal None)
  /\ (forall o, URL_new url = Some o ->
        includes (toLowerCase (hostname o)) "youtu.be" = false ->
        includes (toLowerCase (hostname o)) "youtube.com" = false ->
        YouTubeModule.extractVideoId url = Normal None).
Proof.
  split; [|split].
  - destruct (YouTubeFacts.extractVideoId_returns url) as (r & E & _); eauto.
  - intros E. unfold YouTubeModule.extractVideoId, new_URL. by rewrite E.
  - intros o E E1 E2. unfold YouTubeModule.extractVideoId, new_URL.
    rewrite E; simpl. by rewrite E1, E2.
Qed.

Lemma extractVideoId_never_throws_witness :
  (exists r, @YouTubeModule.extractVideoId SimpleHost.host "http://[" = Normal r)
  /\ @YouTubeModule.extractVideoId SimpleHost.host "watch?v=abc" = Normal None
  /\ @YouTubeModule.extractVideoId SimpleHost.host "https://vimeo.com/v/123"
     = Normal None.
Proof.
  split; [|split].
  - apply (@extractVideoId_never_throws SimpleHost.host "http://[").
  - apply (@extractVideoId_never_throws SimpleHost.host "watch?v=abc").
    reflexivity.
  - eapply (@extractVideoId_never_throws SimpleHost.host
              "https://vimeo.com/v/123"); reflexivity.
Defined.

(** C6. [process] throws exactly when [extractVideoId] yields [null]; when
    [extractVideoId] yields an id, [process] returns the embed URL built from
    that id. *)
Theorem process_throws_iff_no_reference `{Host} (url : string) :
  ((exists e, YouTubeModule.process url = Throw e)
   <-> YouTubeModule.extractVideoId url = Normal None)
  /\ (YouTubeModule.extractVideoId url = Normal None ->
      YouTubeModule.process url = Throw YouTubeModule.invalidUrl)
  /\ (forall id, YouTubeModule.extractVideoId url = Normal (Some id) ->
        YouTubeModule.process url
        = Normal ("https://www.youtube.com/embed/" +:+ id
                  +:+ "?autoplay=1&enablejsapi=1")).
Proof.
  destruct (YouTubeFacts.extractVideoId_returns url) as (r & E & Hr).
  unfold YouTubeModule.process. rewrite E.
  change (Normal r ≫= ?f) with (f r). cbv beta. rewrite Hr.
  destruct r as [id|]; (split; [|split]).
  - split; [intros [e ?]; done|intros ?; simplify_eq].
  - intros ?; simplify_eq.
  - intros id' ?; by simplify_eq.
  - split; [done|]. eauto.
  - done.
  - intros id' ?; simplify_eq.
Qed.

Lemma process_throws_iff_no_reference_witness :
  @YouTubeModule.process SimpleHost.host "https://youtube.com/playlist"
  = Throw YouTubeModule.invalidUrl
  /\ @YouTubeModule.process SimpleHost.host "https://youtu.be/dQw4w9WgXcQ"
     = Normal "https://www.youtube.com/embed/dQw4w9WgXcQ?autoplay=1&enablejsapi=1".
Proof.
  split.
  - exact (proj1 (proj2 (@process_throws_iff_no_reference SimpleHost.host
                           "https://youtube.com/playlist")) eq_refl).
  - exact (proj2 (proj2 (@process_throws_iff_no_reference SimpleHost.host
                           "https://youtu.be/dQw4w9WgXcQ"))
                 "dQw4w9WgXcQ" eq_refl).
Defined.

(** ** The platform table *)

Module SortFacts.
Section WithKey.
Context {A : Type} (key : A -> Z).

Local Abbreviation compare := (fun a b : A => key a - key b).
Local Abbreviation le := (fun a b : A => key a <= key b).

Lemma insert_elem (x y : A) (l : list A) :
  y ∈ HybridConfig.insert compare x l <-> y = x \/ y ∈ l.
Proof.
  induction l as [|z l IH]; simpl.
  - rewrite list_elem_of_singleton, elem_of_nil. tauto.
  - destruct (key z - key x <? 0); rewrite !elem_of_cons; [rewrite IH|];
      tauto.
Qed.

Lemma insert_sorted (x : A) (l : list A) :
  StronglySorted le l -> StronglySorted le (HybridConfig.insert compare x l).
Proof.
  induction 1 as [|z l Hl IH Hz]; simpl.
  - repeat constructor.
  - destruct (key z - key x <? 0) eqn:E.
    + constructor; [done|]. apply Forall_forall. intros y Hy.
      apply insert_elem in Hy as [->|Hy]; [lia|].
      by eapply Forall_forall in Hz.
    + constructor; [by constructor|].
      constructor; [lia|]. eapply Forall_impl; [exact Hz|].
      intros y Hy; simpl in *; lia.
Qed.

Lemma sort_sorted (l : list A) :
  StronglySorted le (HybridConfig.sort compare l).
Proof.
  induction l; simpl; [constructor|by apply insert_sorted].
Qed.

Lemma insert_Permutation (x : A) (l : list A) :
  HybridConfig.insert compare x l ≡ₚ x :: l.
Proof.
  induction l as [|z l IH]; simpl; [done|].
  destruct (key z - key x <? 0); [|done].
  rewrite IH. apply Permutation_swap.
Qed.

Lemma sort_Permutation (l : list A) : HybridConfig.sort compare l ≡ₚ l.
Proof.
  induction l as [|x l IH]; simpl; [done|].
  by rewrite insert_Permutation, IH.
Qed.

(** Elements of equal key keep their order: the sort is stable. *)
Lemma filter_insert (z : Z) (x : A) (l : list A) :
  StronglySorted le l ->
  filter (fun a => key a = z) (HybridConfig.insert compare x l)
  = filter (fun a => key a = z) (x :: l).
Proof.
  induction 1 as [|y l Hl IH Hy]; simpl; [done|].
  destruct (key y - key x <? 0) eqn:E; [|done].
  rewrite !filter_cons in *. rewrite IH.
  destruct (decide (key y = z)), (decide (key x = z)); try done. lia.
Qed.

Lemma sort_stable (z : Z) (l : list A) :
  filter (fun a => key a = z) (HybridConfig.sort compare l)
  = filter (fun a => key a = z) l.
Proof.
  induction l as [|x l IH]; simpl; [done|].
  rewrite filter_insert by apply sort_sorted.
  by rewrite !filter_cons, IH.
Qed.

Lemma find_elem (f : A -> bool) (l : list A) (y : A) :
  List.find f l = Some y -> y ∈ l.
Proof.
  intros E. apply List.find_some in E as [E _]. by apply list_elem_of_In.
Qed.

(** Where [insert] puts [x]: after what is smaller, before what is not. *)
Lemma find_insert (f : A -> bool) (x : A) (l : list A) :
  StronglySorted le l ->
  List.find f (HybridConfig.insert compare x l)
  = if f x then
      match List.find f l with
      | Some y => if key y <? key x then Some y else Some x
      | None => Some x
      end
    else List.find f l.
Proof.
  induction 1 as [|z l Hl IH Hz]; simpl.
  - by destruct (f x).
  - destruct (key z - key x <? 0) eqn:E; simpl.
    + rewrite IH. destruct (f z) eqn:Fz; [|done].
      destruct (f x); [|done].
      by replace (key z <? key x) with true by lia.
    + destruct (f x) eqn:Fx; [|done].
      destruct (f z) eqn:Fz.
      * by replace (key z <? key x) with false by lia.
      * destruct (List.find f l) as [y|] eqn:Ey; [|done].
        apply find_elem in Ey. eapply Forall_forall in Hz; [|exact Ey].
        simpl in Hz. by replace (key y <? key x) with false by lia.
Qed.

Lemma find_sort (f : A -> bool) (l : list A) :
  List.find f (HybridConfig.sort compare l) = Spec.best key f l.
Proof.
  induction l as [|x l IH]; simpl; [done|].
  rewrite find_insert by apply sort_sorted. by rewrite IH.
Qed.

Lemma best_filter (f g : A -> bool) (l : list A) :
  Spec.best key f (filter (fun x => g x = true) l)
  = Spec.best key (fun x => g x && f x) l.
Proof.
  induction l as [|x l IH]; simpl; [done|].
  rewrite filter_cons. case_decide as Gx.
  - simpl. by rewrite Gx, IH.
  - apply not_true_is_false in Gx. by rewrite Gx.
Qed.

Lemma best_None (f : A -> bool) (l : list A) :
  Spec.best key f l = None -> forall q, q ∈ l -> f q = false.
Proof.
  induction l as [|x l IH]; simpl; intros E q Hq.
  - by apply elem_of_nil in Hq.
  - destruct (f x) eqn:Fx.
    + destruct (Spec.best key f l) as [y|]; [|done].
      by destruct (key y <? key x).
    + apply elem_of_cons in Hq as [->|Hq]; auto.
Qed.

Lemma best_Some (f : A -> bool) (l : list A) (p : A) :
  Spec.best key f l = Some p ->
  exists i, l !! i = Some p /\ f p = true
    /\ forall j q, l !! j = Some q -> f q = true ->
         key p < key q \/ (key p = key q /\ (i <= j)%nat).
Proof.
  revert p. induction l as [|x l IH]; simpl; intros p E; [done|].
  destruct (f x) eqn:Fx.
  - destruct (Spec.best key f l) as [y|] eqn:Ey.
    + destruct (IH y eq_refl) as (i & Hi & Fy & Hmin).
      destruct (key y <? key x) eqn:Lt; simplify_eq.
      * exists (S i). repeat split; [done..|].
        intros j q Hq Fq. destruct j as [|j]; simpl in Hq.
        { simplify_eq. left. lia. }
        destruct (Hmin j q Hq Fq); [left; lia|right; lia].
      * exists 0%nat. repeat split; [done..|].
        intros j q Hq Fq. destruct j as [|j]; simpl in Hq.
        { simplify_eq. right; lia. }
        destruct (Hmin j q Hq Fq); [left|]; lia.
    + simplify_eq. exists 0%nat. repeat split; [done..|].
      intros j q Hq Fq. destruct j as [|j]; simpl in Hq.
      { simplify_eq. right; lia. }
      apply list_elem_of_lookup_2 in Hq.
      by rewrite (best_None f l Ey q Hq) in Fq.
  - destruct (IH p E) as (i & Hi & Fp & Hmin).
    exists (S i). repeat split; [done..|].
    intros j q Hq Fq. destruct j as [|j]; simpl in Hq.
    { injection Hq as ->. congruence. }
    destruct (Hmin j q Hq Fq); [left|right]; lia.
Qed.

End WithKey.
End SortFacts.

Module JSMapFacts.
Section WithValue.
Context {V : Type}.
Implicit Types (m : JSMap.t V) (k : string) (v : V).

Lemma get_None_keys m k : JSMap.get m k = None <-> k ∉ JSMap.keys m.
Proof.
  unfold JSMap.keys. induction m as [|[k' v'] m IH]; simpl.
  - split; [intros _; apply not_elem_of_nil|done].
  - rewrite not_elem_of_cons. destruct (String.eqb_spec k' k) as [->|Hne].
    + split; [done|tauto].
    + rewrite IH. split; [auto|tauto].
Qed.

Lemma set_fresh m k v : JSMap.get m k = None -> JSMap.set m k v = m ++ [(k, v)].
Proof.
  induction m as [|[k' v'] m IH]; simpl; [done|].
  destruct (String.eqb k' k); [done|]. intros E. by rewrite IH.
Qed.

Lemma set_keys_present m k v :
  is_Some (JSMap.get m k) -> JSMap.keys (JSMap.set m k v) = JSMap.keys m.
Proof.
  unfold JSMap.keys. induction m as [|[k' v'] m IH]; simpl.
  - by intros [? ?].
  - destruct (String.eqb k' k); simpl; [done|]. intros E. f_equal. auto.
Qed.

Lemma get_set m k v : JSMap.get (JSMap.set m k v) k = Some v.
Proof.
  induction m as [|[k' v'] m IH]; simpl.
  - by rewrite String.eqb_refl.
  - destruct (String.eqb k' k) eqn:E; simpl; by rewrite E.
Qed.

Lemma get_set_ne m k k' v :
  k' <> k -> JSMap.get (JSMap.set m k v) k' = JSMap.get m k'.
Proof.
  intros Hne. induction m as [|[k0 v0] m IH]; simpl.
  - destruct (String.eqb_spec k k'); congruence.
  - destruct (String.eqb_spec k0 k) as [->|]; simpl.
    + by destruct (String.eqb_spec k k'); [congruence|].
    + by rewrite IH.
Qed.

Lemma set_set m k v v' :
  JSMap.set (JSMap.set m k v) k v' = JSMap.set m k v'.
Proof.
  induction m as [|[k0 v0] m IH]; simpl.
  - by rewrite String.eqb_refl.
  - destruct (String.eqb k0 k) eqn:E; simpl; rewrite E; [done|].
    by rewrite IH.
Qed.

Lemma set_get m k v : JSMap.get m k = Some v -> JSMap.set m k v = m.
Proof.
  induction m as [|[k0 v0] m IH]; simpl; [done|].
  destruct (String.eqb k0 k); intros E; simplify_eq; [done|].
  by rewrite IH.
Qed.

End WithValue.
End JSMapFacts.

Module HybridConfigFacts.
Section WithHost.
Context `{Host}.
Import HybridConfig.

Lemma detectPlatform_best (platforms : Platforms) (url : string) :
  detectPlatform platforms url
  = Spec.best priority
      (fun p => enabled p && matchesPatterns url (patterns p))
      (JSMap.values platforms).
Proof.
  unfold detectPlatform.
  rewrite (SortFacts.find_sort priority). apply SortFacts.best_filter.
Qed.

Lemma matchesPatterns_matches (url : string) (p : PlatformConfig) :
  matchesPatterns url (patterns p) = true <-> Spec.matches url p.
Proof.
  unfold matchesPatterns, Spec.matches. rewrite existsb_exists.
  split; intros (r & Hr & Ht); exists r; (split; [|done]);
    by apply list_elem_of_In.
Qed.

(** [registerPlatform], case by case. *)
Lemma registerPlatform_eq (name : string) (module : PlatformModule.t)
    (given : option (list RegExp)) (priority : option Z)
    (platforms : Platforms) :
  registerPlatform name module given priority platforms
  = match match given with
          | Some patterns => Normal patterns
          | None => generateDefaultPatterns name
          end with
    | Normal patterns =>
        (Normal tt,
         JSMap.set platforms (toLowerCase name)
           {| HybridConfig.name := name; HybridConfig.module := module;
              HybridConfig.patterns := patterns; enabled := true;
              HybridConfig.priority := default defaultPriority priority |})
    | Throw e => (Throw e, platforms)
    end.
Proof.
  unfold registerPlatform, Eff.bind, Eff.lift, Eff.modify.
  destruct given as [patterns|]; [done|].
  by destruct (generateDefaultPatterns name).
Qed.

Lemma enabled_values_disable (platforms : Platforms) k p :
  JSMap.get platforms k = Some p ->
  filter (fun p => enabled p = true)
         (JSMap.values (JSMap.set platforms k (with_enabled p false)))
  = filter (fun p => enabled p = true)
           (JSMap.values (JSMap.delete platforms k)).
Proof.
  unfold JSMap.values.
  induction platforms as [|[k0 p0] m IH]; simpl; [done|].
  destruct (String.eqb k0 k); simpl; intros E.
  - by rewrite filter_cons_False.
  - rewrite !filter_cons. specialize (IH E).
    case_decide; [f_equal|]; exact IH.
Qed.

Lemma with_enabled_restore (p : PlatformConfig) :
  enabled p = true -> with_enabled (with_enabled p false) true = p.
Proof. destruct p; simpl; by intros ->. Qed.

End WithHost.
End HybridConfigFacts.

(** C2. [detectPlatform] answers with an enabled entry one of whose patterns
    matches the URL, such that every other enabled entry one of whose
    patterns matches has a greater priority value, or the same value and a
    later place in the table; it answers [null] only when no enabled entry
    has a pattern that matches.  The place of an entry in the table is the
    order of registration: a name not yet registered goes last, registering
    a name again keeps its place, and a registration that throws leaves the
    table as it was. *)
Theorem detectPlatform_priority_order `{Host}
    (platforms : HybridConfig.Platforms) (url : string) :
  match HybridConfig.detectPlatform platforms url with
  | Some p =>
      exists i, JSMap.values platforms !! i = Some p
        /\ HybridConfig.enabled p = true
        /\ Spec.matches url p
        /\ forall j q, JSMap.values platforms !! j = Some q ->
             HybridConfig.enabled q = true ->
             Spec.matches url q ->
             HybridConfig.priority p < HybridConfig.priority q
             \/ (HybridConfig.priority p = HybridConfig.priority q
                 /\ (i <= j)%nat)
  | None =>
      forall q, q ∈ JSMap.values platforms ->
        HybridConfig.enabled q = true -> ~ Spec.matches url q
  end
  /\ (forall name module patterns priority,
        match HybridConfig.registerPlatform name module patterns priority
                platforms with
        | (Normal _, platforms') =>
            JSMap.keys platforms'
            = match JSMap.get platforms (toLowerCase name) with
              | Some _ => JSMap.keys platforms
              | None => JSMap.keys platforms ++ [toLowerCase name]
              end
        | (Throw _, platforms') => platforms' = platforms
        end).
Proof.
  split.
  - rewrite HybridConfigFacts.detectPlatform_best.
    destruct (Spec.best _ _ _) as [p|] eqn:E.
    + apply SortFacts.best_Some in E as (i & Hi & Fp & Hmin).
      apply andb_true_iff in Fp as [Ep Mp].
      apply HybridConfigFacts.matchesPatterns_matches in Mp.
      exists i. repeat split; [done..|].
      intros j q Hq Eq Mq. apply (Hmin j q Hq).
      apply HybridConfigFacts.matchesPatterns_matches in Mq.
      by rewrite Eq, Mq.
    + intros q Hq Eq Mq.
      pose proof (SortFacts.best_None _ _ _ E q Hq) as F.
      apply HybridConfigFacts.matchesPatterns_matches in Mq.
      simpl in F. by rewrite Eq, Mq in F.
  - intros name module patterns priority.
    rewrite HybridConfigFacts.registerPlatform_eq.
    destruct (match patterns with Some _ => _ | None => _ end); [|done].
    destruct (JSMap.get platforms (toLowerCase name)) eqn:E.
    + apply JSMapFacts.set_keys_present. by rewrite E.
    + rewrite JSMapFacts.set_fresh by done.
      unfold JSMap.keys. by rewrite fmap_app.
Qed.

Lemma detectPlatform_priority_order_witness :
  (exists i, JSMap.values Sample.table !! i = Some Sample.tube
     /\ HybridConfig.enabled Sample.tube = true
     /\ @Spec.matches SimpleHost.host "https://video.example.com/1"
          Sample.tube
     /\ forall j q, JSMap.values Sample.table !! j = Some q ->
          HybridConfig.enabled q = true ->
          @Spec.matches SimpleHost.host "https://video.example.com/1" q ->
          HybridConfig.priority Sample.tube < HybridConfig.priority q
          \/ (HybridConfig.priority Sample.tube = HybridConfig.priority q
              /\ (i <= j)%nat))
  /\ JSMap.keys
       (Eff.exec (@HybridConfig.registerPlatform SimpleHost.host "Vimeo"
                    Sample.handler None None) Sample.table)
     = ["tube"; "clips"; "first"; "vimeo"]
  /\ JSMap.keys
       (Eff.exec (@HybridConfig.registerPlatform SimpleHost.host "TUBE"
                    Sample.handler None (Some 1)) Sample.table)
     = ["tube"; "clips"; "first"]
  /\ Eff.exec (@HybridConfig.registerPlatform SimpleHost.host "C++"
                 Sample.handler None None) Sample.table
     = Sample.table.
Proof.
  pose proof (@detectPlatform_priority_order SimpleHost.host Sample.table
                "https://video.example.com/1") as [Hd Hr].
  split; [exact Hd|]. split; [|split].
  - exact (Hr "Vimeo" Sample.handler None None).
  - exact (Hr "TUBE" Sample.handler None (Some 1)).
  - exact (Hr "C++" Sample.handler None None).
Defined.

(** On the sample table the two enabled entries that match have the same
    priority and the one registered first is the answer; the disabled entry
    of lower priority value is passed over, and is the answer once enabled;
    with a lower priority value the entry registered second is the answer. *)
Example detectPlatform_sample :
  @HybridConfig.detectPlatform SimpleHost.host Sample.table
     "https://video.example.com/1" = Some Sample.tube
  /\ HybridConfig.name <$>
       @HybridConfig.detectPlatform SimpleHost.host
         (HybridConfig.setPlatformEnabled "FIRST" true Sample.table)
         "https://video.example.com/1" = Some "First"
  /\ HybridConfig.name <$>
       @HybridConfig.detectPlatform SimpleHost.host
         (HybridConfig.setPlatformPriority "clips" 49 Sample.table)
         "https://video.example.com/1" = Some "Clips".
Proof. repeat split. Qed.

(** C9. Disabling an enabled entry takes it out of resolution, which then
    answers as if the entry were not in the table; the entry stays in the
    table with the same name, handler, patterns and priority, no other entry
    changes, and enabling it again gives back the table as it was. *)
Theorem disable_then_enable_restores `{Host}
    (platforms : HybridConfig.Platforms) (name : string)
    (p : HybridConfig.PlatformConfig) :
  HybridConfig.getPlatform platforms name = Some p ->
  HybridConfig.enabled p = true ->
  let disabled := HybridConfig.setPlatformEnabled name false platforms in
  (forall url,
      HybridConfig.detectPlatform disabled url
      = HybridConfig.detectPlatform
          (JSMap.delete platforms (toLowerCase name)) url)
  /\ (exists p', HybridConfig.getPlatform disabled name = Some p'
        /\ HybridConfig.enabled p' = false
        /\ HybridConfig.name p' = HybridConfig.name p
        /\ HybridConfig.module p' = HybridConfig.module p
        /\ HybridConfig.patterns p' = HybridConfig.patterns p
        /\ HybridConfig.priority p' = HybridConfig.priority p)
  /\ (forall other, toLowerCase other <> toLowerCase name ->
        HybridConfig.getPlatform disabled other
        = HybridConfig.getPlatform platforms other)
  /\ JSMap.keys disabled = JSMap.keys platforms
  /\ HybridConfig.setPlatformEnabled name true disabled = platforms.
Proof.
  unfold HybridConfig.getPlatform, HybridConfig.setPlatformEnabled.
  intros E En. rewrite E. simpl. repeat split.
  - intros url. unfold HybridConfig.detectPlatform.
    by rewrite (HybridConfigFacts.enabled_values_disable _ _ _ E).
  - exists (HybridConfig.with_enabled p false).
    by rewrite JSMapFacts.get_set.
  - intros other Hne. by apply JSMapFacts.get_set_ne.
  - apply JSMapFacts.set_keys_present. by rewrite E.
  - rewrite JSMapFacts.get_set, JSMapFacts.set_set.
    rewrite HybridConfigFacts.with_enabled_restore by done.
    by apply JSMapFacts.set_get.
Qed.

Lemma disable_then_enable_restores_witness :
  HybridConfig.setPlatformEnabled "TUBE" true
    (HybridConfig.setPlatformEnabled "TUBE" false Sample.table)
  = Sample.table.
Proof.
  exact (proj2 (proj2 (proj2 (proj2
    (@disable_then_enable_restores SimpleHost.host Sample.table "TUBE"
       Sample.tube eq_refl eq_refl))))).
Defined.

(** The second of three subscribers throws; the third still runs, on what
    the second wrote, and the subscriber of the other key does not run. *)
Example emitEvent_sample :
  HybridConfig.emitEvent Sample.listeners "video-loaded" "YouTube" "!" []
  = (Normal tt, ["a!"; "b!"; "c!"]).
Proof. vm_compute. reflexivity. Qed.

(** C8. [emitEvent] runs every listener stored under the key of the event
    and the platform, in the order of the list, each on the state its
    predecessor left, whether or not that predecessor threw; [emitEvent]
    itself returns normally.  [addEventListener] puts a listener at the end
    of the list of its key, so the order of the list is the order of
    subscription. *)
Theorem emitEvent_isolates_listeners {W Data : Type}
    (listeners : HybridConfig.Listeners W Data) (event platform : string)
    (data : Data) (w : W) :
  let subscribed :=
    default [] (listeners !! HybridConfig.key event platform) in
  HybridConfig.emitEvent listeners event platform data w
  = (Normal tt,
     foldl (fun w listener => Eff.exec (HybridConfig.handler listener data) w)
           w subscribed)
  /\ forall handler,
       HybridConfig.addEventListener event platform handler listeners
         !! HybridConfig.key event platform
       = Some (subscribed
               ++ [ {| HybridConfig.event := event;
                       HybridConfig.platform := platform;
                       HybridConfig.handler := handler |} ]).
Proof.
  simpl. split.
  - unfold HybridConfig.emitEvent.
    destruct (listeners !! _) as [l|]; simpl; [|done].
    revert w. induction l as [|listener l IH]; intros w; simpl; [done|].
    unfold Eff.bind, Eff.try_catch, Eff.exec at 2.
    destruct (HybridConfig.handler listener data w) as [[[]|e] w']; simpl;
      apply IH.
  - intros handler. unfold HybridConfig.addEventListener.
    unfold HybridConfig.Listeners in *.
    destruct (listeners !! HybridConfig.key event platform) as [l|] eqn:E.
    + rewrite bool_decide_eq_true_2 by eauto.
      rewrite E. cbv iota. by rewrite lookup_insert_eq.
    + rewrite bool_decide_eq_false_2 by (intros [? ?]; congruence).
      rewrite lookup_insert_eq. cbv iota. by rewrite lookup_insert_eq.
Qed.

(** ** Link extraction *)

Module ExtractFacts.
Section WithHost.
Context `{Host}.
Import FileLinkReader.

Lemma foldl_pushValid (acc l : list string) :
  foldl pushValid acc l = acc ++ filter (fun u => isValidUrl u = true) l.
Proof.
  revert acc. induction l as [|u l IH]; intros acc; simpl.
  - by rewrite app_nil_r.
  - rewrite IH, filter_cons. unfold pushValid.
    destruct (isValidUrl u) eqn:E.
    + rewrite decide_True by done. by rewrite <- app_assoc.
    + by rewrite decide_False by done.
Qed.

Lemma dedupe_elem (l : list string) (u : string) :
  u ∈ Spec.dedupe l <-> u ∈ l.
Proof.
  induction l as [|x l IH]; simpl; [done|].
  rewrite !elem_of_cons, list_elem_of_filter, IH.
  destruct (decide (u = x)); tauto.
Qed.

Lemma dedupe_NoDup (l : list string) : NoDup (Spec.dedupe l).
Proof.
  induction l as [|x l IH]; simpl; [constructor|].
  apply NoDup_cons. split.
  - rewrite list_elem_of_filter. tauto.
  - by apply NoDup_filter.
Qed.

Lemma foldl_pushNew (seen l : list string) :
  foldl pushNew seen l
  = seen ++ filter (fun u => u ∉ seen)
              (Spec.dedupe (filter (fun u => isValidUrl u = true) l)).
Proof.
  revert seen. induction l as [|x l IH]; intros seen; simpl.
  - by rewrite app_nil_r.
  - rewrite filter_cons. destruct (isValidUrl x) eqn:Ex.
    + rewrite decide_True by done. simpl. rewrite filter_cons.
      destruct (decide (x ∈ seen)) as [Hx|Hx].
      * assert (pushNew seen x = seen) as ->.
        { unfold pushNew. by rewrite Ex, bool_decide_eq_true_2. }
        rewrite IH, decide_False by tauto. f_equal.
        rewrite list_filter_filter. apply list_filter_iff.
        intros u. split; [|tauto]. intros Hu. split; [done|congruence].
      * assert (pushNew seen x = seen ++ [x]) as ->.
        { unfold pushNew. by rewrite Ex, bool_decide_eq_false_2. }
        rewrite IH, decide_True by done. rewrite <- app_assoc. simpl.
        do 2 f_equal. rewrite list_filter_filter. apply list_filter_iff.
        intros u. rewrite not_elem_of_app, list_elem_of_singleton. tauto.
    + assert (pushNew seen x = seen) as ->.
      { unfold pushNew. by rewrite Ex. }
      by rewrite IH, decide_False by done.
Qed.

Lemma readMarkdownUrls_eq (content : string) :
  let links :=
    filter (fun u => isValidUrl u = true) (Scan.markdownLinkRegex content) in
  readMarkdownUrls content
  = links ++ filter (fun u => u ∉ links)
               (Spec.dedupe
                  (filter (fun u => isValidUrl u = true)
                     (Scan.stripTrailingPunct <$> Scan.plainUrlRegex content))).
Proof.
  intros links. rewrite <- foldl_pushNew.
  unfold readMarkdownUrls. rewrite foldl_pushValid. simpl. fold links.
  generalize (Scan.plainUrlRegex content), links.
  induction l as [|m l IH]; intros seen; simpl; [done|]. apply IH.
Qed.

End WithHost.
End ExtractFacts.

(** C3, as the code has it.  Of the readers only [readMarkdownUrls]
    compares, and only in its second loop: its result is the valid inline
    links, every occurrence kept, followed by the valid bare tokens that are
    not among them, each once, at the place of its first occurrence.  So the
    bare tokens add no duplicate, and the result has none when the inline
    links have none. *)
Theorem readMarkdownUrls_dedupes_bare_tokens `{Host} (content : string) :
  let valid := fun u => FileLinkReader.isValidUrl u = true in
  let links := filter valid (Scan.markdownLinkRegex content) in
  let tokens :=
    filter valid (Scan.stripTrailingPunct <$> Scan.plainUrlRegex content) in
  let bare := filter (fun u => u ∉ links) (Spec.dedupe tokens) in
  FileLinkReader.readMarkdownUrls content = links ++ bare
  /\ NoDup bare
  /\ (forall u, u ∈ bare -> u ∉ links)
  /\ (NoDup links -> NoDup (FileLinkReader.readMarkdownUrls content)).
Proof.
  intros valid links tokens bare.
  assert (FileLinkReader.readMarkdownUrls content = links ++ bare) as E
    by apply ExtractFacts.readMarkdownUrls_eq.
  assert (NoDup bare) as Hbare
    by apply NoDup_filter, ExtractFacts.dedupe_NoDup.
  assert (forall u, u ∈ bare -> u ∉ links) as Hdisj.
  { intros u Hu. by apply list_elem_of_filter in Hu as [? _]. }
  repeat split; [done..|].
  intros Hlinks. rewrite E. apply NoDup_app. repeat split; [done| |done].
  intros u Hu Hb. by apply (Hdisj u).
Qed.

Lemma readMarkdownUrls_dedupes_bare_tokens_witness :
  NoDup (@FileLinkReader.readMarkdownUrls SimpleHost.host Sample.prose).
Proof.
  apply (@readMarkdownUrls_dedupes_bare_tokens SimpleHost.host Sample.prose).
  vm_compute. apply NoDup_singleton.
Defined.

(** The examples of the specification, and a Markdown text whose bare tokens
    repeat. *)
Example extract_examples :
  @FileLinkReader.readMarkdownUrls SimpleHost.host Sample.prose
  = ["https://a.com/1"; "https://b.com/2"]
  /\ @FileLinkReader.readMarkdownUrls SimpleHost.host
       "see https://b.com/2, https://a.com/1 and https://b.com/2."
     = ["https://b.com/2"; "https://a.com/1"]
  /\ @LinkProcessor.extractUrls SimpleHost.host
       ("# comment" +:+ YouTubeModule.nl +:+ "https://video.example/v/1"
        +:+ YouTubeModule.nl +:+ "see https://video.example/v/2.")
       "list.txt"
     = Normal ["https://video.example/v/1"; "https://video.example/v/2"]
  /\ @LinkProcessor.extractUrls SimpleHost.host
       ("{" +:+ Sample.quoted "urls" +:+ ": ["
        +:+ Sample.quoted "https://a.com/x" +:+ ", "
        +:+ Sample.quoted "not a url" +:+ ", "
        +:+ Sample.quoted "https://b.com/y" +:+ "]}")
       "list.json"
     = Normal ["https://a.com/x"; "https://b.com/y"].
Proof. repeat split. Qed.

(** C3, as the specification states it, fails for each of the four kinds
    of content: a URL that occurs twice in the input occurs twice in the
    result. *)
Lemma extract_keeps_repeated_urls :
  @LinkProcessor.extractUrls SimpleHost.host Sample.text "links.txt"
  = Normal ["https://a.com/x"; "https://a.com/x"]
  /\ @LinkProcessor.extractUrls SimpleHost.host Sample.json "links.json"
     = Normal ["https://a.com/x"; "https://a.com/x"]
  /\ @LinkProcessor.extractUrls SimpleHost.host Sample.markdown "links.md"
     = Normal ["https://a.com/1"; "https://a.com/1"]
  /\ @LinkProcessor.extractUrls SimpleHost.host Sample.loose "links"
     = Normal ["https://youtu.be/a"; "https://youtu.be/a"]
  /\ ~ (forall content fileName l,
          @LinkProcessor.extractUrls SimpleHost.host content fileName = Normal l ->
          NoDup l).
Proof.
  repeat split.
  intros Hspec.
  pose proof (Hspec Sample.text "links.txt" _ eq_refl) as Hnd.
  apply NoDup_cons in Hnd as [Hnd _]. apply Hnd. by left.
Qed.

(** C10. [readJsonUrls] returns for every content; for a content that
    [JSON.parse] rejects it returns the empty list. *)
Theorem readJsonUrls_unparseable `{Host} (content : string) :
  (exists urls, FileLinkReader.readJsonUrls content = Normal urls)
  /\ (JSON_parse content = None ->
      FileLinkReader.readJsonUrls content = Normal []).
Proof.
  unfold FileLinkReader.readJsonUrls, parse_JSON. split.
  - destruct (JSON_parse content) as [data|]; simpl; [|by eexists].
    destruct data as [| | | |items|props]; simpl; try by eexists.
    destruct (FileLinkReader.or_else _ _) as [[]|]; simpl; by eexists.
  - by intros ->.
Qed.

Lemma readJsonUrls_unparseable_witness :
  @FileLinkReader.readJsonUrls SimpleHost.host "{urls: [https://a.com/x" = Normal [].
Proof.
  apply (@readJsonUrls_unparseable SimpleHost.host "{urls: [https://a.com/x").
  reflexivity.
Defined.

(** ** Deployment *)

(** Opens the operations of the monad, so that a computation applied to a
    world reduces to the pair of its completion and its final world. *)
Ltac eff_unfold :=
  cbv beta delta [Eff.bind Eff.gets Eff.modify Eff.ret Eff.try_catch Eff.lift
                  Eff.throw].

Module DeployFacts.
Section WithHost.
Context `{Host}.
Import LinkDeployerCore.

Lemma initialize_idem (s : Statics) :
  PlatformModules.initialize (PlatformModules.initialize s)
  = PlatformModules.initialize s.
Proof.
  unfold PlatformModules.initialize.
  destruct (initialized s) eqn:E; simpl; by rewrite ?E.
Qed.

Lemma handlerFor_initialize (s : Statics) (url : string) :
  Spec.handlerFor (PlatformModules.initialize s) url = Spec.handlerFor s url.
Proof.
  unfold Spec.handlerFor, PlatformModules.getModule. simpl.
  by rewrite initialize_idem.
Qed.

Lemma delivery_initialize (s : Statics) (url : string) :
  Spec.delivery (PlatformModules.initialize s) url = Spec.delivery s url.
Proof. unfold Spec.delivery. by rewrite handlerFor_initialize. Qed.

Lemma deployToVideoStage_eq (url : string) (w : World) :
  deployToVideoStage url (detectPlatform url) w
  = (Normal tt,
     if Spec.ready w then Spec.after (Spec.delivery (statics w) url) w else w).
Proof.
  unfold deployToVideoStage, Spec.ready. eff_unfold. simpl.
  destruct (videoElement w) eqn:Ev, (sourceElement w) eqn:Es; simpl; try done.
  unfold Spec.after, Spec.delivery, Spec.handlerFor, getModule,
    PlatformModules.getModule. simpl.
  destruct (JSMap.get _ _) as [module|]; simpl.
  - destruct (PlatformModule.process module url) as [p|e]; simpl.
    + unfold with_effects, with_statics; simpl.
      by rewrite <- !app_assoc.
    + unfold with_effects, with_statics; simpl. by rewrite app_nil_r.
  - unfold with_effects, with_statics; simpl. by rewrite app_nil_r.
Qed.

Lemma deployToEmbed_eq (url : string) (w : World) :
  deployToEmbed url (detectPlatform url) w
  = (Normal tt, Spec.after (Spec.embedding (statics w) url) w).
Proof.
  unfold deployToEmbed. eff_unfold.
  unfold Spec.after, Spec.embedding, Spec.handlerFor, getModule,
    PlatformModules.getModule. simpl.
  destruct (JSMap.get _ _) as [module|]; simpl.
  - destruct (PlatformModule.getEmbedData module url) as [d|e]; simpl.
    + done.
    + unfold with_effects, with_statics; simpl. by rewrite app_nil_r.
  - unfold with_effects, with_statics; simpl. by rewrite app_nil_r.
Qed.

(** [fireEnded] with one playlist attached. *)
Lemma fireEnded_single (w : World) (urls : list string) (k : nat) :
  ended w = [ {| playlist := urls; currentIndex := k |} ] ->
  fireEnded w
  = (Normal tt,
     let w1 := with_ended [ {| playlist := urls; currentIndex := S k |} ] w in
     match urls !! S k with
     | Some next =>
         if Spec.ready w then Spec.after (Spec.delivery (statics w) next) w1
         else w1
     | None => w1
     end).
Proof.
  intros E. unfold fireEnded. eff_unfold. rewrite E. simpl.
  unfold playNext. eff_unfold.
  rewrite E. simpl.
  destruct (urls !! S k) as [next|] eqn:En.
  - apply lookup_lt_Some in En as Hlt.
    replace (S k <? length urls)%nat with true by (symmetry; by apply Nat.ltb_lt).
    rewrite deployToVideoStage_eq. simpl. by rewrite E.
  - apply lookup_ge_None in En as Hge.
    replace (S k <? length urls)%nat with false
      by (symmetry; apply Nat.ltb_ge; lia).
    simpl. by rewrite E.
Qed.

End WithHost.
End DeployFacts.

Module PlaylistFacts.
Section WithHost.
Context `{Host}.
Import LinkDeployerCore.

Lemma deployMultipleToVideoStage_eq (w : World) (u0 u1 : string)
    (rest : list string) :
  Spec.ready w = true ->
  deployMultipleToVideoStage (u0 :: u1 :: rest) w
  = (Normal tt,
     let w0 := Spec.after (Spec.delivery (statics w) u0) w in
     with_ended (ended w ++ [ {| playlist := u0 :: u1 :: rest;
                                 currentIndex := 0 |} ]) w0).
Proof.
  intros R. unfold deployMultipleToVideoStage. eff_unfold.
  rewrite DeployFacts.deployToVideoStage_eq, R. simpl.
  unfold setupVideoPlaylist. eff_unfold. simpl.
  apply andb_true_iff in R as [-> _]. done.
Qed.

(** One firing of 'ended' with a single playlist attached. *)
Lemma fireEnded_step (w : World) (s0 : Statics) (urls : list string)
    (k : nat) :
  Spec.ready w = true ->
  ended w = [ {| playlist := urls; currentIndex := k |} ] ->
  (forall u, Spec.delivery (statics w) u = Spec.delivery s0 u) ->
  let w' := Eff.exec fireEnded w in
  Spec.ready w' = true
  /\ ended w' = [ {| playlist := urls; currentIndex := S k |} ]
  /\ (forall u, Spec.delivery (statics w') u = Spec.delivery s0 u)
  /\ effects w'
     = effects w ++ match urls !! S k with
                    | Some next => Spec.delivery s0 next
                    | None => []
                    end.
Proof.
  intros R E D. unfold Eff.exec.
  rewrite (DeployFacts.fireEnded_single w urls k E), R. simpl.
  destruct (urls !! S k) as [next|]; simpl.
  - repeat split; [done| |by rewrite D].
    intros u. by rewrite DeployFacts.delivery_initialize.
  - repeat split; [done..|by rewrite app_nil_r].
Qed.

(** [handleDeploy] with a URL typed in: the single-URL path. *)
Lemma handleDeploy_single (w : World) (mode : DeployMode) :
  currentUrl w <> "" ->
  exists done,
    handleDeploy mode w
    = (Normal tt,
       with_effects (effects w ++ done)
         (if match mode with VIDEO_STAGE => Spec.ready w | EMBED => true end
          then with_statics (PlatformModules.initialize (statics w)) w
          else w))
    /\ done
       = match mode with
         | VIDEO_STAGE =>
             if Spec.ready w
             then Spec.delivery (statics w) (currentUrl w) else []
         | EMBED => Spec.embedding (statics w) (currentUrl w)
         end
         ++ [OnDeploy
               {| type := type_url; mode := mode; url := Some (currentUrl w);
                  file := None; fileContent := None; urls := None;
                  platform :=
                    Some (default "Generic"
                            (truthy (detectPlatform (currentUrl w)))) |}].
Proof.
  intros Hne. eexists. split; [|reflexivity].
  unfold handleDeploy. eff_unfold. simpl.
  destruct (String.eqb_spec (currentUrl w) "") as [|_]; [done|]. simpl.
  unfold deploySingleUrl. eff_unfold. destruct mode.
  - rewrite DeployFacts.deployToEmbed_eq. unfold emit, Eff.modify, Spec.after.
    simpl. unfold with_effects, with_statics. simpl. by rewrite <- app_assoc.
  - rewrite DeployFacts.deployToVideoStage_eq.
    unfold emit, Eff.modify, Spec.after.
    destruct (Spec.ready w); simpl.
    + unfold with_effects, with_statics. simpl. by rewrite <- app_assoc.
    + done.
Qed.

End WithHost.
End PlaylistFacts.

Module StageFacts.
Section WithHost.
Context `{Host}.
Import LinkDeployerCore.

(** One listener runs. *)
Lemma playNext_step (w : World) (s0 : Statics) (i : nat) (c : PlayNext) :
  ended w !! i = Some c ->
  (forall u, Spec.delivery (statics w) u = Spec.delivery s0 u) ->
  exists w',
    playNext i w = (Normal tt, w')
    /\ ended w' = <[i := Cursor.advance c]> (ended w)
    /\ Spec.ready w' = Spec.ready w
    /\ (forall u, Spec.delivery (statics w') u = Spec.delivery s0 u)
    /\ effects w'
       = effects w ++ (if Spec.ready w then Cursor.next s0 c else []).
Proof.
  intros E D. unfold playNext. eff_unfold. cbv iota beta. rewrite E.
  cbv iota beta. unfold Cursor.next. destruct c as [urls k]. simpl.
  destruct (urls !! S k) as [nextUrl|] eqn:En.
  - apply lookup_lt_Some in En as Hlt.
    replace (S k <? length urls)%nat with true
      by (symmetry; by apply Nat.ltb_lt).
    rewrite DeployFacts.deployToVideoStage_eq. simpl.
    eexists. split; [reflexivity|].
    unfold Spec.ready. simpl. fold (Spec.ready w).
    destruct (Spec.ready w) eqn:R; simpl.
    + split; [done|]. split; [exact R|]. split; [|by rewrite D].
      intros u. by rewrite DeployFacts.delivery_initialize.
    + split; [done|]. split; [exact R|]. split; [done|by rewrite app_nil_r].
  - apply lookup_ge_None in En as Hge.
    replace (S k <? length urls)%nat with false
      by (symmetry; apply Nat.ltb_ge; lia).
    eexists. split; [reflexivity|]. simpl.
    repeat split; [done|]. destruct (Spec.ready w); by rewrite app_nil_r.
Qed.

(** The listeners from a position on run, one after the other. *)
Lemma dispatch_from (s0 : Statics) (todo done : list PlayNext) (w : World) :
  ended w = done ++ todo ->
  (forall u, Spec.delivery (statics w) u = Spec.delivery s0 u) ->
  exists w',
    dispatch (seq (length done) (length todo)) w = (Normal tt, w')
    /\ ended w' = done ++ (Cursor.advance <$> todo)
    /\ effects w'
       = effects w
         ++ (if Spec.ready w then concat (Cursor.next s0 <$> todo) else []).
Proof.
  revert done w. induction todo as [|c todo IH]; intros done w E D; simpl.
  - exists w. repeat split; [done|]. destruct (Spec.ready w); by rewrite app_nil_r.
  - assert (ended w !! length done = Some c) as Ec
      by (rewrite E; apply list_lookup_middle; done).
    destruct (playNext_step w s0 _ c Ec D) as (w1 & E1 & En1 & R1 & D1 & F1).
    eff_unfold. rewrite E1.
    assert (ended w1 = (done ++ [Cursor.advance c]) ++ todo) as E1'.
    { rewrite En1, E, <- app_assoc. simpl.
      replace (length done) with (length done + 0)%nat by lia.
      by rewrite insert_app_r. }
    destruct (IH (done ++ [Cursor.advance c]) w1 E1' D1) as (w2 & E2 & En2 & F2).
    rewrite length_app in E2. simpl in E2.
    replace (length done + 1)%nat with (S (length done)) in E2 by lia.
    exists w2. split; [exact E2|]. split.
    + by rewrite En2, <- app_assoc.
    + rewrite F2, F1, R1. destruct (Spec.ready w); simpl.
      * by rewrite <- app_assoc.
      * by rewrite !app_nil_r.
Qed.

(** One firing, with what it keeps. *)
Lemma fireEnded_frame (w : World) (s0 : Statics) :
  (forall u, Spec.delivery (statics w) u = Spec.delivery s0 u) ->
  let w' := Eff.exec fireEnded w in
  Spec.ready w' = Spec.ready w
  /\ ended w' = Cursor.advance <$> ended w
  /\ (forall u, Spec.delivery (statics w') u = Spec.delivery s0 u)
  /\ effects w'
     = effects w
       ++ (if Spec.ready w then concat (Cursor.next s0 <$> ended w) else []).
Proof.
  intros D.
  assert (forall (todo past : list PlayNext) (v : World),
            ended v = past ++ todo ->
            (forall u, Spec.delivery (statics v) u = Spec.delivery s0 u) ->
            let v' := Eff.exec (dispatch (seq (length past) (length todo))) v in
            Spec.ready v' = Spec.ready v
            /\ (forall u, Spec.delivery (statics v') u = Spec.delivery s0 u))
    as Hframe.
  { induction todo as [|c todo IH]; intros past v E Dv; [done|].
    assert (ended v !! length past = Some c) as Ec
      by (rewrite E; apply list_lookup_middle; done).
    destruct (playNext_step v s0 _ c Ec Dv) as (v1 & E1 & En1 & R1 & D1 & _).
    assert (ended v1 = (past ++ [Cursor.advance c]) ++ todo) as E1'.
    { rewrite En1, E, <- app_assoc. simpl.
      replace (length past) with (length past + 0)%nat by lia.
      by rewrite insert_app_r. }
    pose proof (IH (past ++ [Cursor.advance c]) v1 E1' D1) as [R2 D2].
    rewrite length_app in R2, D2. simpl in R2, D2.
    replace (length past + 1)%nat with (S (length past)) in R2, D2 by lia.
    unfold Eff.exec in *. simpl. eff_unfold. rewrite E1.
    split; [by rewrite R2|exact D2]. }
  destruct (dispatch_from s0 (ended w) [] w eq_refl D) as (w' & E & En & F).
  pose proof (Hframe (ended w) [] w eq_refl D) as [R' D'].
  unfold Eff.exec in *. rewrite E in R', D'.
  assert (fireEnded w = (Normal tt, w')) as -> by exact E.
  done.
Qed.

Lemma advanceBy_advance (k : nat) (c : PlayNext) :
  Cursor.advance (Cursor.advanceBy k c) = Cursor.advanceBy (S k) c.
Proof. done. Qed.

Lemma advanceBy_0 (cs : list PlayNext) : Cursor.advanceBy 0 <$> cs = cs.
Proof.
  induction cs as [|[urls i] cs IH]; [done|].
  rewrite fmap_cons, IH. done.
Qed.

(** Any number of firings. *)
Lemma fireEnded_iter (w : World) (s0 : Statics) (cs : list PlayNext)
    (k n : nat) :
  Spec.ready w = true ->
  ended w = Cursor.advanceBy k <$> cs ->
  (forall u, Spec.delivery (statics w) u = Spec.delivery s0 u) ->
  let wn := Nat.iter n (Eff.exec fireEnded) w in
  Spec.ready wn = true
  /\ ended wn = Cursor.advanceBy (n + k) <$> cs
  /\ (forall u, Spec.delivery (statics wn) u = Spec.delivery s0 u)
  /\ effects (Eff.exec fireEnded wn)
     = effects wn ++ Cursor.stale s0 cs (n + k).
Proof.
  intros R E D.
  assert (Spec.ready (Nat.iter n (Eff.exec fireEnded) w) = true
          /\ ended (Nat.iter n (Eff.exec fireEnded) w)
             = Cursor.advanceBy (n + k) <$> cs
          /\ (forall u,
                Spec.delivery (statics (Nat.iter n (Eff.exec fireEnded) w)) u
                = Spec.delivery s0 u))
    as (Rn & En & Dn).
  { induction n as [|n (Rn & En & Dn)]; [done|].
    change (Nat.iter (S n) (Eff.exec fireEnded) w)
      with (Eff.exec fireEnded (Nat.iter n (Eff.exec fireEnded) w)).
    destruct (fireEnded_frame _ s0 Dn) as (R' & E' & D' & _).
    split; [by rewrite R'|]. split; [|exact D'].
    rewrite E', En, <- list_fmap_compose. by apply list_fmap_ext. }
  cbv zeta. split; [exact Rn|]. split; [exact En|]. split; [exact Dn|].
  destruct (fireEnded_frame _ s0 Dn) as (_ & _ & _ & F').
  rewrite F', Rn, En. done.
Qed.

Lemma stale_snoc (s0 : Statics) (cs : list PlayNext) (c : PlayNext)
    (k : nat) :
  Cursor.stale s0 (cs ++ [c]) k
  = Cursor.stale s0 cs k ++ Cursor.next s0 (Cursor.advanceBy k c).
Proof.
  unfold Cursor.stale. rewrite !fmap_app, concat_app. simpl.
  by rewrite app_nil_r.
Qed.

Lemma stale_exhausted (s0 : Statics) (cs : list PlayNext) (k : nat) :
  Forall Cursor.exhausted cs -> Cursor.stale s0 cs k = [].
Proof.
  unfold Cursor.stale, Cursor.exhausted.
  induction 1 as [|c cs Hc _ IH]; [done|].
  rewrite !fmap_cons. cbn [concat]. rewrite IH, app_nil_r.
  unfold Cursor.next. cbn [playlist currentIndex Cursor.advanceBy].
  rewrite (proj2 (lookup_ge_None _ _)); [done|lia].
Qed.

End WithHost.
End StageFacts.

(** C5, as the code has it.  A batch of three URLs on the stage, whatever
    playlists are attached already: the first item is deployed at once; the
    first firing of 'ended' deploys the second item and the second firing
    the third, each once, after what the playlists attached earlier deploy
    on that firing; the third firing and every later one deploy nothing of
    the batch, only what the earlier playlists still have.  When no earlier
    playlist has an item left, as on a stage that has had no batch, the
    first two firings deploy the second and the third item and nothing
    else, and further firings deploy nothing.  To deploy an item whose
    handler yields a playable URL is to set that URL as the source of the
    stage, load it, and play it when it can play. *)
Theorem playlist_of_three `{Host} (w : LinkDeployerCore.World)
    (u0 u1 u2 : string) :
  LinkDeployerCore.videoElement w = true ->
  LinkDeployerCore.sourceElement w = true ->
  let deployed := Spec.delivery (LinkDeployerCore.statics w) in
  let earlier :=
    Cursor.stale (LinkDeployerCore.statics w) (LinkDeployerCore.ended w) in
  let fire := Eff.exec LinkDeployerCore.fireEnded in
  let w0 :=
    Eff.exec (LinkDeployerCore.deployMultipleToVideoStage [u0; u1; u2]) w in
  LinkDeployerCore.effects w0 = LinkDeployerCore.effects w ++ deployed u0
  /\ LinkDeployerCore.effects (fire w0)
     = LinkDeployerCore.effects w0 ++ earlier 0%nat ++ deployed u1
  /\ LinkDeployerCore.effects (fire (fire w0))
     = LinkDeployerCore.effects (fire w0) ++ earlier 1%nat ++ deployed u2
  /\ LinkDeployerCore.effects (fire (fire (fire w0)))
     = LinkDeployerCore.effects (fire (fire w0)) ++ earlier 2%nat
  /\ (forall n,
        LinkDeployerCore.effects (fire (Nat.iter n fire (fire (fire w0))))
        = LinkDeployerCore.effects (Nat.iter n fire (fire (fire w0)))
          ++ earlier (n + 2)%nat)
  /\ (Forall Cursor.exhausted (LinkDeployerCore.ended w) ->
      LinkDeployerCore.effects (fire w0)
      = LinkDeployerCore.effects w ++ deployed u0 ++ deployed u1
      /\ LinkDeployerCore.effects (fire (fire w0))
         = LinkDeployerCore.effects w ++ deployed u0 ++ deployed u1
           ++ deployed u2
      /\ forall n,
           LinkDeployerCore.effects (Nat.iter n fire (fire (fire w0)))
           = LinkDeployerCore.effects (fire (fire w0)))
  /\ (forall u module playableUrl,
        Spec.handlerFor (LinkDeployerCore.statics w) u = Some module ->
        PlatformModule.process module u = Normal playableUrl ->
        deployed u
        = [ LinkDeployerCore.SourceSrc playableUrl;
            LinkDeployerCore.VideoLoad; LinkDeployerCore.CanPlayOnce ]).
Proof.
  intros Ev Es deployed earlier fire w0. subst deployed earlier fire.
  assert (Spec.ready w = true) as R by (unfold Spec.ready; by rewrite Ev, Es).
  pose (s0 := LinkDeployerCore.statics w).
  pose (new := {| LinkDeployerCore.playlist := [u0; u1; u2];
                  LinkDeployerCore.currentIndex := 0 |}).
  pose (cs := LinkDeployerCore.ended w ++ [new]).
  assert (Spec.ready w0 = true
          /\ LinkDeployerCore.ended w0 = Cursor.advanceBy 0 <$> cs
          /\ (forall u, Spec.delivery (LinkDeployerCore.statics w0) u
                        = Spec.delivery s0 u)
          /\ LinkDeployerCore.effects w0
             = LinkDeployerCore.effects w ++ Spec.delivery s0 u0)
    as (R0 & E0 & D0 & F0).
  { unfold w0, Eff.exec.
    rewrite PlaylistFacts.deployMultipleToVideoStage_eq by done. simpl.
    rewrite StageFacts.advanceBy_0. repeat split; [done|].
    intros u. apply DeployFacts.delivery_initialize. }
  assert (forall k,
            Cursor.stale s0 cs k
            = Cursor.stale s0 (LinkDeployerCore.ended w) k
              ++ match [u0; u1; u2] !! S k with
                 | Some next => Spec.delivery s0 next
                 | None => []
                 end) as Hk.
  { intros k. unfold cs. rewrite StageFacts.stale_snoc. f_equal.
    unfold Cursor.next, new. cbn [LinkDeployerCore.playlist
      LinkDeployerCore.currentIndex Cursor.advanceBy].
    by rewrite Nat.add_0_r. }
  pose proof (StageFacts.fireEnded_iter w0 s0 cs 0 0 R0 E0 D0)
    as (_ & _ & _ & F1).
  pose proof (StageFacts.fireEnded_iter w0 s0 cs 0 1 R0 E0 D0)
    as (_ & _ & _ & F2).
  pose proof (StageFacts.fireEnded_iter w0 s0 cs 0 2 R0 E0 D0)
    as (R2 & E2 & D2 & _).
  change (Nat.iter 0 (Eff.exec LinkDeployerCore.fireEnded) w0)
    with w0 in F1.
  change (Nat.iter 1 (Eff.exec LinkDeployerCore.fireEnded) w0)
    with (Eff.exec LinkDeployerCore.fireEnded w0) in F2.
  change (Nat.iter 2 (Eff.exec LinkDeployerCore.fireEnded) w0)
    with (Eff.exec LinkDeployerCore.fireEnded
            (Eff.exec LinkDeployerCore.fireEnded w0)) in R2, E2, D2.
  cbn [Nat.add] in F1, F2, E2.
  rewrite Hk in F1, F2. cbn [lookup list_lookup] in F1, F2.
  assert (forall n,
            LinkDeployerCore.effects
              (Eff.exec LinkDeployerCore.fireEnded
                 (Nat.iter n (Eff.exec LinkDeployerCore.fireEnded)
                    (Eff.exec LinkDeployerCore.fireEnded
                       (Eff.exec LinkDeployerCore.fireEnded w0))))
            = LinkDeployerCore.effects
                (Nat.iter n (Eff.exec LinkDeployerCore.fireEnded)
                   (Eff.exec LinkDeployerCore.fireEnded
                      (Eff.exec LinkDeployerCore.fireEnded w0)))
              ++ Cursor.stale s0 (LinkDeployerCore.ended w) (n + 2)) as Fn.
  { intros n.
    pose proof (StageFacts.fireEnded_iter _ s0 cs 2 n R2 E2 D2)
      as (_ & _ & _ & F).
    rewrite F, Hk.
    rewrite (proj2 (lookup_ge_None [u0; u1; u2] (S (n + 2))))
      by (simpl; lia).
    by rewrite app_nil_r. }
  fold s0. split; [exact F0|]. split; [exact F1|]. split; [exact F2|].
  split; [exact (Fn 0%nat)|]. split; [exact Fn|]. split.
  - intros Hx.
    assert (forall k, Cursor.stale s0 (LinkDeployerCore.ended w) k = [])
      as Hnil by (intros k; by apply StageFacts.stale_exhausted).
    rewrite Hnil in F1, F2. cbn [app] in F1, F2.
    split; [by rewrite F1, F0, <- app_assoc|].
    split; [by rewrite F2, F1, F0, <- !app_assoc|].
    induction n as [|n IH]; [done|].
    change (Nat.iter (S n) ?f ?x) with (f (Nat.iter n f x)).
    by rewrite Fn, Hnil, app_nil_r.
  - intros u module playableUrl Hh Hp. unfold Spec.delivery.
    by rewrite Hh, Hp.
Qed.

Lemma playlist_of_three_witness :
  let fire := Eff.exec (@LinkDeployerCore.fireEnded SimpleHost.host) in
  let w0 :=
    Eff.exec (@LinkDeployerCore.deployMultipleToVideoStage SimpleHost.host
                Sample.threeUrls)
             (@LinkDeployerCore.fresh SimpleHost.host) in
  let v0 :=
    Eff.exec (@LinkDeployerCore.deployMultipleToVideoStage SimpleHost.host
                Sample.threeUrls)
             Sample.afterFive in
  (LinkDeployerCore.effects (fire (fire w0))
   = [ LinkDeployerCore.SourceSrc (Sample.embedOf "a");
       LinkDeployerCore.VideoLoad; LinkDeployerCore.CanPlayOnce;
       LinkDeployerCore.SourceSrc (Sample.embedOf "b");
       LinkDeployerCore.VideoLoad; LinkDeployerCore.CanPlayOnce;
       LinkDeployerCore.SourceSrc (Sample.embedOf "c");
       LinkDeployerCore.VideoLoad; LinkDeployerCore.CanPlayOnce ]
   /\ LinkDeployerCore.effects (Nat.iter 5 fire (fire (fire w0)))
      = LinkDeployerCore.effects (fire (fire w0)))
  /\ LinkDeployerCore.effects (fire v0)
     = LinkDeployerCore.effects v0
       ++ [ LinkDeployerCore.SourceSrc (Sample.embedOf "o2");
            LinkDeployerCore.VideoLoad; LinkDeployerCore.CanPlayOnce ]
       ++ [ LinkDeployerCore.SourceSrc (Sample.embedOf "b");
            LinkDeployerCore.VideoLoad; LinkDeployerCore.CanPlayOnce ]
  /\ LinkDeployerCore.effects (fire (fire (fire v0)))
     = LinkDeployerCore.effects (fire (fire v0))
       ++ [ LinkDeployerCore.SourceSrc (Sample.embedOf "o4");
            LinkDeployerCore.VideoLoad; LinkDeployerCore.CanPlayOnce ].
Proof.
  pose proof (@playlist_of_three SimpleHost.host
                (@LinkDeployerCore.fresh SimpleHost.host)
                "https://youtu.be/a" "https://youtu.be/b" "https://youtu.be/c"
                eq_refl eq_refl) as (_ & _ & _ & _ & _ & Hfresh & _).
  pose proof (@playlist_of_three SimpleHost.host Sample.afterFive
                "https://youtu.be/a" "https://youtu.be/b" "https://youtu.be/c"
                eq_refl eq_refl) as (_ & H1 & _ & H3 & _).
  destruct (Hfresh (Forall_nil_2 _)) as (_ & H2 & Hstop).
  split; [split; [exact H2|exact (Hstop 5%nat)]|].
  split.
  - etrans; [exact H1|]. vm_compute. reflexivity.
  - etrans; [exact H3|]. vm_compute. reflexivity.
Defined.

(** C5, as the specification states it, fails on a stage that has had a
    batch before:
    with a batch of five attached and none of it ended, the first firing
    after the batch of three deploys the second item of the five and then
    the second of the three, and the third firing deploys the fourth item
    of the five. *)
Lemma earlier_playlist_deploys_with_batch :
  let fire := Eff.exec (@LinkDeployerCore.fireEnded SimpleHost.host) in
  let v0 :=
    Eff.exec (@LinkDeployerCore.deployMultipleToVideoStage SimpleHost.host
                Sample.threeUrls)
             Sample.afterFive in
  LinkDeployerCore.effects (fire v0)
  = LinkDeployerCore.effects v0
    ++ [ LinkDeployerCore.SourceSrc (Sample.embedOf "o2");
         LinkDeployerCore.VideoLoad; LinkDeployerCore.CanPlayOnce;
         LinkDeployerCore.SourceSrc (Sample.embedOf "b");
         LinkDeployerCore.VideoLoad; LinkDeployerCore.CanPlayOnce ]
  /\ LinkDeployerCore.effects (fire (fire (fire v0)))
     <> LinkDeployerCore.effects (fire (fire v0))
  /\ LinkDeployerCore.effects (fire (fire (fire v0)))
     = LinkDeployerCore.effects (fire (fire v0))
       ++ [ LinkDeployerCore.SourceSrc (Sample.embedOf "o4");
            LinkDeployerCore.VideoLoad; LinkDeployerCore.CanPlayOnce ].
Proof. split; [|split]; vm_compute; [reflexivity|discriminate|reflexivity]. Qed.


(** C1, as the code has it.  A single-URL deployment leaves the 'ended'
    listeners of the stage as they were, each with its cursor; so with a
    playlist attached that has a next item, the next firing of 'ended' still
    deploys that item and advances the cursor. *)
Theorem single_deploy_keeps_playlist `{Host} (w : LinkDeployerCore.World)
    (mode : LinkDeployerCore.DeployMode) :
  LinkDeployerCore.currentUrl w <> "" ->
  let w' := Eff.exec (LinkDeployerCore.handleDeploy mode) w in
  LinkDeployerCore.ended w' = LinkDeployerCore.ended w
  /\ forall urls k next,
       LinkDeployerCore.ended w
       = [ {| LinkDeployerCore.playlist := urls;
              LinkDeployerCore.currentIndex := k |} ] ->
       urls !! S k = Some next ->
       LinkDeployerCore.videoElement w = true ->
       LinkDeployerCore.sourceElement w = true ->
       let w'' := Eff.exec LinkDeployerCore.fireEnded w' in
       LinkDeployerCore.effects w''
       = LinkDeployerCore.effects w'
         ++ Spec.delivery (LinkDeployerCore.statics w) next
       /\ LinkDeployerCore.ended w''
          = [ {| LinkDeployerCore.playlist := urls;
                 LinkDeployerCore.currentIndex := S k |} ].
Proof.
  intros Hne w'.
  destruct (PlaylistFacts.handleDeploy_single w mode Hne) as (done & E & _).
  assert (LinkDeployerCore.ended w' = LinkDeployerCore.ended w) as Ee.
  { unfold w', Eff.exec. rewrite E. simpl. by destruct mode, (Spec.ready w). }
  split; [done|].
  intros urls k next El En Ev Es w''.
  assert (Spec.ready w = true) as R by (unfold Spec.ready; by rewrite Ev, Es).
  assert (Spec.ready w' = true) as R'.
  { unfold w', Eff.exec. rewrite E. simpl. rewrite R. by destruct mode. }
  assert (forall u, Spec.delivery (LinkDeployerCore.statics w') u
                    = Spec.delivery (LinkDeployerCore.statics w) u) as D.
  { intros u. unfold w', Eff.exec. rewrite E. simpl. rewrite R.
    destruct mode; apply DeployFacts.delivery_initialize. }
  rewrite El in Ee.
  destruct (PlaylistFacts.fireEnded_step w' _ urls k R' Ee D)
    as (_ & E2 & _ & F2).
  rewrite En in F2. done.
Qed.

Lemma single_deploy_keeps_playlist_witness :
  LinkDeployerCore.ended Sample.afterSingle
  = LinkDeployerCore.ended Sample.midSequence
  /\ LinkDeployerCore.ended
       (Eff.exec (@LinkDeployerCore.fireEnded SimpleHost.host)
          Sample.afterSingle)
     = [ {| LinkDeployerCore.playlist := Sample.threeUrls;
            LinkDeployerCore.currentIndex := 2 |} ].
Proof.
  pose proof (@single_deploy_keeps_playlist SimpleHost.host
                (LinkDeployerCore.with_currentUrl "https://youtu.be/new"
                   Sample.midSequence)
                LinkDeployerCore.VIDEO_STAGE ltac:(discriminate))
    as (Hkeep & Hnext).
  split; [exact Hkeep|].
  exact (proj2 (Hnext Sample.threeUrls 1%nat "https://youtu.be/c"
                  eq_refl eq_refl eq_refl eq_refl)).
Defined.

(** C1, as the specification states it, fails: the second item of a
    playlist of three is playing when a single URL is deployed to the stage;
    at the next firing of 'ended' the third item of the old playlist is
    deployed. *)
Lemma stale_playlist_still_advances :
  LinkDeployerCore.effects
    (Eff.exec (@LinkDeployerCore.fireEnded SimpleHost.host) Sample.afterSingle)
  = LinkDeployerCore.effects Sample.afterSingle
    ++ [ LinkDeployerCore.SourceSrc (Sample.embedOf "c");
         LinkDeployerCore.VideoLoad; LinkDeployerCore.CanPlayOnce ]
  /\ last (LinkDeployerCore.effects Sample.afterSingle)
     = Some (LinkDeployerCore.OnDeploy
               {| LinkDeployerCore.type := LinkDeployerCore.type_url;
                  LinkDeployerCore.mode := LinkDeployerCore.VIDEO_STAGE;
                  LinkDeployerCore.url := Some "https://youtu.be/new";
                  LinkDeployerCore.file := None;
                  LinkDeployerCore.fileContent := None;
                  LinkDeployerCore.urls := None;
                  LinkDeployerCore.platform := Some "YouTube" |}).
Proof. split; vm_compute; reflexivity. Qed.

(** C4, as the code has it.  [handleDeploy] does not validate the URL.  For
    a typed URL that does not parse it finds no platform, asks for the
    module named Generic, and, when none is registered under that name,
    calls no handler and gives nothing to either surface; it then calls
    [onDeploy] with the platform Generic and returns normally. *)
Theorem handleDeploy_unparseable_url `{Host} (w : LinkDeployerCore.World)
    (mode : LinkDeployerCore.DeployMode) :
  LinkDeployerCore.currentUrl w <> "" ->
  URL_new (LinkDeployerCore.currentUrl w) = None ->
  JSMap.get (modules (PlatformModules.initialize (LinkDeployerCore.statics w)))
            "generic" = None ->
  exists w',
    LinkDeployerCore.handleDeploy mode w = (Normal tt, w')
    /\ LinkDeployerCore.effects w'
       = LinkDeployerCore.effects w
         ++ [ LinkDeployerCore.OnDeploy
                {| LinkDeployerCore.type := LinkDeployerCore.type_url;
                   LinkDeployerCore.mode := mode;
                   LinkDeployerCore.url := Some (LinkDeployerCore.currentUrl w);
                   LinkDeployerCore.file := None;
                   LinkDeployerCore.fileContent := None;
                   LinkDeployerCore.urls := None;
                   LinkDeployerCore.platform := Some "Generic" |} ]
    /\ LinkDeployerCore.ended w' = LinkDeployerCore.ended w.
Proof.
  intros Hne Hurl Hgen.
  destruct (PlaylistFacts.handleDeploy_single w mode Hne) as (done & E & Hd).
  eexists. split; [exact E|].
  assert (LinkDeployerCore.detectPlatform (LinkDeployerCore.currentUrl w) = None)
    as Hp by (unfold LinkDeployerCore.detectPlatform; by rewrite Hurl).
  assert (Spec.handlerFor (LinkDeployerCore.statics w)
            (LinkDeployerCore.currentUrl w) = None) as Hh.
  { unfold Spec.handlerFor, PlatformModules.getModule. by rewrite Hp. }
  split.
  - simpl. rewrite Hd, Hp. unfold Spec.delivery, Spec.embedding. rewrite Hh.
    simpl. by destruct mode, (Spec.ready w).
  - simpl. by destruct mode, (Spec.ready w).
Qed.

Lemma handleDeploy_unparseable_url_witness :
  exists w',
    @LinkDeployerCore.handleDeploy SimpleHost.host LinkDeployerCore.EMBED
      Sample.malformed = (Normal tt, w')
    /\ LinkDeployerCore.effects w'
       = [ LinkDeployerCore.OnDeploy
             {| LinkDeployerCore.type := LinkDeployerCore.type_url;
                LinkDeployerCore.mode := LinkDeployerCore.EMBED;
                LinkDeployerCore.url := Some "not a url";
                LinkDeployerCore.file := None;
                LinkDeployerCore.fileContent := None;
                LinkDeployerCore.urls := None;
                LinkDeployerCore.platform := Some "Generic" |} ]
    /\ LinkDeployerCore.ended w' = [].
Proof.
  exact (@handleDeploy_unparseable_url SimpleHost.host Sample.malformed
           LinkDeployerCore.EMBED ltac:(discriminate) eq_refl eq_refl).
Defined.

(** C4, as the specification states it, fails: with a text that is not a
    URL as the typed URL, [handleDeploy] does not throw, and the caller gets
    the [onDeploy] call of a deployment that went through. *)
Lemma malformed_url_is_not_rejected :
  (@LinkDeployerCore.handleDeploy SimpleHost.host LinkDeployerCore.VIDEO_STAGE
     Sample.malformed).1 = Normal tt
  /\ @LinkDeployerCore.validateUrl SimpleHost.host "not a url" = false
  /\ LinkDeployerCore.effects
       (Eff.exec (@LinkDeployerCore.handleDeploy SimpleHost.host
                    LinkDeployerCore.VIDEO_STAGE) Sample.malformed)
     = [ LinkDeployerCore.OnDeploy
           {| LinkDeployerCore.type := LinkDeployerCore.type_url;
              LinkDeployerCore.mode := LinkDeployerCore.VIDEO_STAGE;
              LinkDeployerCore.url := Some "not a url";
              LinkDeployerCore.file := None;
              LinkDeployerCore.fileContent := None;
              LinkDeployerCore.urls := None;
              LinkDeployerCore.platform := Some "Generic" |} ].
Proof. repeat split. Qed.

(** * Further properties *)

(** ** The YouTube handler, continued *)

Module StringFacts.

Lemma append_assoc (a b c : string) : (a +:+ b) +:+ c = a +:+ (b +:+ c).
Proof.
  induction a as [|x a IH]; [done|].
  change (String x ((a +:+ b) +:+ c) = String x (a +:+ b +:+ c)).
  by rewrite IH.
Qed.

Lemma startsWith_app (a b : string) : startsWith (a +:+ b) a = true.
Proof.
  unfold startsWith. induction a as [|c a IH]; [by destruct b|].
  change (String c a +:+ b) with (String c (a +:+ b)). simpl.
  by destruct (ascii_dec c c).
Qed.

Lemma append_nil_r (a : string) : a +:+ "" = a.
Proof.
  induction a as [|x a IH]; [done|].
  change (String x (a +:+ "") = String x a). by rewrite IH.
Qed.

End StringFacts.

(** X1. [process] and [getEmbedData] succeed on the same URLs and throw the
    same error on the others; when they succeed, the playable URL is the
    embed URL with [&enablejsapi=1] after it, and the embed is 560 by 315
    and has HTML that is not the empty string. *)
Theorem process_agrees_with_getEmbedData `{Host} (url : string) :
  match YouTubeModule.getEmbedData url with
  | Normal embedData =>
      YouTubeModule.process url
      = Normal (embed_url embedData +:+ "&enablejsapi=1")
      /\ embed_width embedData = Some 560
      /\ embed_height embedData = Some 315
      /\ exists html, embed_html embedData = Some html /\ html <> ""
  | Throw e => YouTubeModule.process url = Throw e
  end.
Proof.
  destruct (YouTubeFacts.extractVideoId_returns url) as (r & E & Hr).
  unfold YouTubeModule.getEmbedData, YouTubeModule.process. rewrite E.
  change (Normal r ≫= ?f) with (f r). cbv beta. rewrite Hr.
  destruct r as [id|]; [|done]. split; [|split; [done|split; [done|]]].
  - cbn [embed_url]. by rewrite !StringFacts.append_assoc.
  - eexists. split; [reflexivity|].
    unfold YouTubeModule.generateEmbedHtml, YouTubeModule.nl.
    change (String ?c "" +:+ ?r) with (String c r). discriminate.
Qed.

(** ** The platform table, continued *)

Module TableFacts.
Section WithValue.
Context {V : Type}.
Implicit Types (m : JSMap.t V) (k : string) (v : V).

Lemma keys_set m k v :
  JSMap.keys (JSMap.set m k v)
  = match JSMap.get m k with
    | Some _ => JSMap.keys m
    | None => JSMap.keys m ++ [k]
    end.
Proof.
  unfold JSMap.keys. induction m as [|[k0 v0] m IH]; simpl; [done|].
  destruct (String.eqb k0 k); simpl; [done|].
  destruct (JSMap.get m k); simpl in *; f_equal; exact IH.
Qed.

Lemma set_NoDup m k v : NoDup (JSMap.keys m) -> NoDup (JSMap.keys (JSMap.set m k v)).
Proof.
  intros Hnd. rewrite keys_set.
  destruct (JSMap.get m k) eqn:E; [done|].
  apply NoDup_app. repeat split; [done| |apply NoDup_singleton].
  intros x Hx ->%list_elem_of_singleton.
  by apply JSMapFacts.get_None_keys in E.
Qed.

Lemma values_set m k v p :
  JSMap.get m k = Some p ->
  forall q, q ∈ JSMap.values (JSMap.set m k v)
            <-> q = v \/ q ∈ JSMap.values (JSMap.delete m k).
Proof.
  unfold JSMap.values. induction m as [|[k0 v0] m IH]; simpl; [done|].
  destruct (String.eqb k0 k); simpl; intros E q.
  - by rewrite elem_of_cons.
  - rewrite !elem_of_cons, (IH E). tauto.
Qed.

End WithValue.

Import HybridConfig.

Lemma set_keyed (platforms : Platforms) (p : PlatformConfig) :
  Table.keyed platforms ->
  Table.keyed (JSMap.set platforms (toLowerCase (name p)) p).
Proof.
  unfold Table.keyed. induction 1 as [|[k0 p0] m Hk Hm IH]; simpl.
  - by repeat constructor.
  - destruct (String.eqb_spec k0 (toLowerCase (name p))) as [->|];
      by constructor.
Qed.

Lemma get_keyed (platforms : Platforms) (k : string) (p : PlatformConfig) :
  Table.keyed platforms -> JSMap.get platforms k = Some p ->
  k = toLowerCase (name p).
Proof.
  unfold Table.keyed. induction 1 as [|[k0 p0] m Hk Hm IH]; simpl; [done|].
  destruct (String.eqb_spec k0 k) as [<-|]; [|done].
  intros ?; by simplify_eq.
Qed.

Lemma generateDefaultPatterns_Throw `{Host} (platform : string)
    (e : JSError) :
  generateDefaultPatterns platform = Throw e ->
  (toLowerCase platform ∉ Table.literals)
  /\ RegExp_valid (toLowerCase platform +:+ "\.com") "i" = false.
Proof.
  unfold generateDefaultPatterns, new_RegExp, Table.literals. cbv zeta.
  destruct (String.eqb_spec (toLowerCase platform) "youtube"); [done|].
  destruct (String.eqb_spec (toLowerCase platform) "facebook"); [done|].
  destruct (String.eqb_spec (toLowerCase platform) "instagram"); [done|].
  destruct (String.eqb_spec (toLowerCase platform) "vimeo"); [done|].
  destruct (String.eqb_spec (toLowerCase platform) "tiktok"); [done|].
  destruct (String.eqb_spec (toLowerCase platform) "twitch"); [done|].
  destruct (RegExp_valid _ _); simpl; [done|]. intros _. split; [|done].
  rewrite !not_elem_of_cons. repeat split; try done. apply not_elem_of_nil.
Qed.

(** A mutator that rewrites the entry under the key of a name and leaves its
    name alone keeps the table well formed. *)
Lemma update_wf (platforms : Platforms) (n : string)
    (f : PlatformConfig -> PlatformConfig) :
  (forall p, name (f p) = name p) ->
  Table.wf platforms ->
  Table.wf match JSMap.get platforms (toLowerCase n) with
           | Some p => JSMap.set platforms (toLowerCase n) (f p)
           | None => platforms
           end.
Proof.
  intros Hf [Hnd Hk]. destruct (JSMap.get _ _) as [p|] eqn:E; [|done].
  split; [by apply set_NoDup|].
  rewrite (get_keyed _ _ _ Hk E), <- (Hf p). by apply set_keyed.
Qed.

End TableFacts.

(** X2. When [registerPlatform] returns, looking the name up in any
    letter case finds the entry registered: enabled, with the name as given,
    the handler, the given patterns or the default patterns of the name,
    and the given priority or 100; entries of other names are not touched.
    It throws only when no patterns are given, the name is none of the six
    names with literal defaults, and the name followed by [\.com] is not a
    pattern; the table is then as it was. *)
Theorem registerPlatform_getPlatform `{Host}
    (platforms : HybridConfig.Platforms) (name : string)
    (module : PlatformModule.t) (patterns : option (list RegExp))
    (priority : option Z) :
  match HybridConfig.registerPlatform name module patterns priority
          platforms with
  | (Normal _, registered) =>
      exists built,
        match patterns with
        | Some given => built = given
        | None => HybridConfig.generateDefaultPatterns name = Normal built
        end
        /\ (forall name', toLowerCase name' = toLowerCase name ->
              HybridConfig.getPlatform registered name'
              = Some {| HybridConfig.name := name;
                        HybridConfig.module := module;
                        HybridConfig.patterns := built;
                        HybridConfig.enabled := true;
                        HybridConfig.priority := default 100 priority |})
        /\ (forall other, toLowerCase other <> toLowerCase name ->
              HybridConfig.getPlatform registered other
              = HybridConfig.getPlatform platforms other)
  | (Throw _, registered) =>
      patterns = None
      /\ (toLowerCase name ∉ Table.literals)
      /\ RegExp_valid (toLowerCase name +:+ "\.com") "i" = false
      /\ registered = platforms
  end.
Proof.
  rewrite HybridConfigFacts.registerPlatform_eq.
  destruct patterns as [given|].
  - exists given. split; [done|].
    unfold HybridConfig.getPlatform. split.
    + intros name' ->. apply JSMapFacts.get_set.
    + intros other Hne. by apply JSMapFacts.get_set_ne.
  - destruct (HybridConfig.generateDefaultPatterns name) as [built|e] eqn:E.
    + exists built. split; [done|].
      unfold HybridConfig.getPlatform. split.
      * intros name' ->. apply JSMapFacts.get_set.
      * intros other Hne. by apply JSMapFacts.get_set_ne.
    + apply TableFacts.generateDefaultPatterns_Throw in E as [Hl Hv].
      done.
Qed.

Lemma registerPlatform_getPlatform_witness :
  HybridConfig.getPlatform
    (Eff.exec (@HybridConfig.registerPlatform SimpleHost.host "Tube"
                 Sample.handler None None) Sample.table)
    "TUBE"
  = Some {| HybridConfig.name := "Tube";
            HybridConfig.module := Sample.handler;
            HybridConfig.patterns :=
              [ {| source := "tube\.com"; flags := "i" |} ];
            HybridConfig.enabled := true;
            HybridConfig.priority := 100 |}
  /\ HybridConfig.getPlatform
       (Eff.exec (@HybridConfig.registerPlatform SimpleHost.host "Tube"
                    Sample.handler None None) Sample.table) "Clips"
     = HybridConfig.getPlatform Sample.table "Clips"
  /\ @HybridConfig.registerPlatform SimpleHost.host "C++" Sample.handler
       None None Sample.table
     = (Throw (SyntaxError "Invalid regular expression"), Sample.table).
Proof.
  split; [|split].
  - pose proof (@registerPlatform_getPlatform SimpleHost.host Sample.table
                  "Tube" Sample.handler None None)
      as (built & Hb & Hsame & _).
    injection Hb as <-. exact (Hsame "TUBE" eq_refl).
  - pose proof (@registerPlatform_getPlatform SimpleHost.host Sample.table
                  "Tube" Sample.handler None None)
      as (built & _ & _ & Hother).
    exact (Hother "Clips" ltac:(discriminate)).
  - pose proof (@registerPlatform_getPlatform SimpleHost.host Sample.table
                  "C++" Sample.handler None None) as (_ & _ & _ & Hsame).
    exact (f_equal (pair (Throw (SyntaxError "Invalid regular expression")))
                   Hsame).
Defined.

(** X3. The operations of the registry keep the table well formed: no two
    entries under the same key, and every entry under the lower-cased name
    it carries, whether [registerPlatform] returns or throws.  So a name is
    registered at most once, whatever its case. *)
Theorem registry_operations_keep_wf `{Host}
    (platforms : HybridConfig.Platforms) :
  Table.wf platforms ->
  (forall name module patterns priority,
     Table.wf (Eff.exec (HybridConfig.registerPlatform name module patterns
                           priority) platforms))
  /\ (forall name enabled,
        Table.wf (HybridConfig.setPlatformEnabled name enabled platforms))
  /\ (forall name priority,
        Table.wf (HybridConfig.setPlatformPriority name priority platforms))
  /\ (forall name p, HybridConfig.getPlatform platforms name = Some p ->
        toLowerCase (HybridConfig.name p) = toLowerCase name).
Proof.
  intros Hwf. split; [|split; [|split]].
  - intros name module patterns priority. unfold Eff.exec.
    rewrite HybridConfigFacts.registerPlatform_eq.
    destruct (match patterns with Some _ => _ | None => _ end) as [built|e];
      [|done].
    split.
    + by apply TableFacts.set_NoDup, Hwf.
    + apply (TableFacts.set_keyed _
               {| HybridConfig.name := name; HybridConfig.module := module;
                  HybridConfig.patterns := _; HybridConfig.enabled := true;
                  HybridConfig.priority := _ |}), Hwf.
  - intros name enabled.
    by apply (TableFacts.update_wf platforms name
                (fun p => HybridConfig.with_enabled p enabled)).
  - intros name priority.
    by apply (TableFacts.update_wf platforms name
                (fun p => HybridConfig.with_priority p priority)).
  - intros name p E. symmetry.
    apply (TableFacts.get_keyed platforms); [apply Hwf|exact E].
Qed.

Lemma registry_operations_keep_wf_witness :
  Table.wf (Eff.exec (@HybridConfig.registerPlatform SimpleHost.host "CLIPS"
                        Sample.handler None None) Sample.table)
  /\ Table.wf (Eff.exec (@HybridConfig.registerPlatform SimpleHost.host
                           "C++" Sample.handler None None) Sample.table)
  /\ Table.wf (HybridConfig.setPlatformPriority "tube" 7 Sample.table).
Proof.
  assert (Table.wf Sample.table) as Hwf.
  { split; [|by repeat constructor].
    apply (bool_decide_unpack (NoDup (JSMap.keys Sample.table))).
    vm_compute. exact I. }
  pose proof (@registry_operations_keep_wf SimpleHost.host Sample.table Hwf)
    as (Hreg & _ & Hpri & _).
  split; [apply Hreg|split; [apply Hreg|apply Hpri]].
Defined.

(** X4. Giving an enabled entry a priority value below that of every other
    enabled entry that matches the URL makes it the answer for that URL. *)
Theorem setPlatformPriority_lowest_wins `{Host}
    (platforms : HybridConfig.Platforms) (name url : string)
    (p : HybridConfig.PlatformConfig) (priority : Z) :
  HybridConfig.getPlatform platforms name = Some p ->
  HybridConfig.enabled p = true ->
  HybridConfig.matchesPatterns url (HybridConfig.patterns p) = true ->
  (forall q, q ∈ JSMap.values (JSMap.delete platforms (toLowerCase name)) ->
     HybridConfig.enabled q = true ->
     HybridConfig.matchesPatterns url (HybridConfig.patterns q) = true ->
     priority < HybridConfig.priority q) ->
  HybridConfig.detectPlatform
    (HybridConfig.setPlatformPriority name priority platforms) url
  = Some (HybridConfig.with_priority p priority).
Proof.
  unfold HybridConfig.getPlatform, HybridConfig.setPlatformPriority.
  intros E En Hm Hothers. rewrite E.
  rewrite HybridConfigFacts.detectPlatform_best.
  set (p' := HybridConfig.with_priority p priority).
  set (table := JSMap.set platforms (toLowerCase name) p').
  assert (p' ∈ JSMap.values table) as Hin
    by (apply (TableFacts.values_set _ _ _ _ E); by left).
  destruct (Spec.best _ _ _) as [q|] eqn:Eb.
  - apply SortFacts.best_Some in Eb as (i & Hi & Fq & Hmin).
    apply andb_true_iff in Fq as [Eq Mq].
    apply list_elem_of_lookup_2 in Hi as Hq.
    apply (TableFacts.values_set _ _ _ _ E) in Hq as [->|Hq]; [done|].
    apply list_elem_of_lookup_1 in Hin as [j Hj].
    destruct (Hmin j p' Hj) as [Hlt|[Heq _]].
    + simpl. by rewrite En, Hm.
    + specialize (Hothers q Hq Eq Mq). simpl in Hlt. lia.
    + specialize (Hothers q Hq Eq Mq). simpl in Heq. lia.
  - pose proof (SortFacts.best_None _ _ _ Eb p' Hin) as F.
    simpl in F. by rewrite En, Hm in F.
Qed.
Lemma setPlatformPriority_lowest_wins_witness :
  @HybridConfig.detectPlatform SimpleHost.host
    (HybridConfig.setPlatformPriority "CLIPS" 7 Sample.table)
    "https://video.example.com/1"
  = Some {| HybridConfig.name := "Clips"; HybridConfig.module := Sample.handler;
            HybridConfig.patterns := [HybridConfig.re "video"];
            HybridConfig.enabled := true; HybridConfig.priority := 7 |}.
Proof.
  apply (@setPlatformPriority_lowest_wins SimpleHost.host Sample.table "CLIPS"
           "https://video.example.com/1"
           {| HybridConfig.name := "Clips";
              HybridConfig.module := Sample.handler;
              HybridConfig.patterns := [HybridConfig.re "video"];
              HybridConfig.enabled := true; HybridConfig.priority := 50 |} 7);
    [reflexivity..|].
  intros q Hq En _.
  change (q ∈ [Sample.tube; Cases.first]) in Hq.
  apply elem_of_cons in Hq as [->|Hq]; [simpl; lia|].
  apply elem_of_cons in Hq as [->|Hq]; [discriminate En|].
  by apply elem_of_nil in Hq.
Defined.

(** X5. Subscriptions are kept under the text [event:platform].  Subscribing
    changes nothing for a publication whose text differs; and two pairs with
    the same text are one key: what is published for the event [a] and the
    platform [b:c] is what is published for the event [a:b] and the
    platform [c]. *)
Theorem event_key_is_concatenation {W Data : Type}
    (listeners : HybridConfig.Listeners W Data) (event platform : string)
    (handler : Data -> Eff.M W unit) :
  (forall event' platform' data,
     HybridConfig.key event' platform' <> HybridConfig.key event platform ->
     HybridConfig.emitEvent
       (HybridConfig.addEventListener event platform handler listeners)
       event' platform' data
     = HybridConfig.emitEvent listeners event' platform' data)
  /\ (forall a b c data,
        HybridConfig.emitEvent listeners (a +:+ ":" +:+ b) c data
        = HybridConfig.emitEvent listeners a (b +:+ ":" +:+ c) data).
Proof.
  split.
  - intros event' platform' data Hne.
    unfold HybridConfig.emitEvent, HybridConfig.addEventListener.
    unfold HybridConfig.Listeners in *.
    destruct (listeners !! HybridConfig.key event platform) as [l|] eqn:E.
    + rewrite bool_decide_eq_true_2 by eauto. rewrite E.
      by rewrite lookup_insert_ne.
    + rewrite bool_decide_eq_false_2 by (intros [? ?]; congruence).
      rewrite lookup_insert_eq. by rewrite !lookup_insert_ne.
  - intros a b c data. unfold HybridConfig.emitEvent, HybridConfig.key.
    by rewrite !StringFacts.append_assoc.
Qed.
Lemma event_key_is_concatenation_witness :
  HybridConfig.emitEvent
    (HybridConfig.addEventListener "video-loaded" "Twitch"
       (Sample.note "t" false) Sample.listeners)
    "video-loaded" "YouTube" "!" []
  = (Normal tt, ["a!"; "b!"; "c!"]).
Proof.
  pose proof (@event_key_is_concatenation (list string) string Sample.listeners
                "video-loaded" "Twitch" (Sample.note "t" false)) as [Hframe _].
  rewrite (Hframe "video-loaded" "YouTube" "!" ltac:(discriminate)).
  vm_compute. reflexivity.
Defined.

(** ** Deployment, continued *)



(** X6. One firing of 'ended' runs every attached playlist, in the order of
    attachment: each cursor moves on by one, also past the end of its list,
    and each playlist that has a next item deploys it.  No playlist is
    detached, and with the stage elements missing nothing is deployed. *)
Theorem fireEnded_advances_every_playlist `{Host}
    (w : LinkDeployerCore.World) :
  let w' := Eff.exec LinkDeployerCore.fireEnded w in
  (LinkDeployerCore.fireEnded w).1 = Normal tt
  /\ LinkDeployerCore.ended w'
     = Cursor.advance <$> LinkDeployerCore.ended w
  /\ LinkDeployerCore.effects w'
     = LinkDeployerCore.effects w
       ++ (if Spec.ready w
           then concat (Cursor.next (LinkDeployerCore.statics w)
                          <$> LinkDeployerCore.ended w)
           else []).
Proof.
  destruct (StageFacts.dispatch_from (LinkDeployerCore.statics w)
              (LinkDeployerCore.ended w) [] w eq_refl (fun _ => eq_refl))
    as (w' & E & En & F).
  unfold Eff.exec.
  assert (LinkDeployerCore.fireEnded w = (Normal tt, w')) as ->
    by exact E.
  done.
Qed.

(** Two playlists are attached, the first at its last item: one firing
    deploys the second item of the second playlist only, and moves both
    cursors. *)
Example fireEnded_stacked :
  LinkDeployerCore.effects
    (Eff.exec (@LinkDeployerCore.fireEnded SimpleHost.host) Cases.stacked)
  = [ LinkDeployerCore.SourceSrc (Sample.embedOf "d");
      LinkDeployerCore.VideoLoad; LinkDeployerCore.CanPlayOnce ]
  /\ LinkDeployerCore.currentIndex
     <$> LinkDeployerCore.ended
           (Eff.exec (@LinkDeployerCore.fireEnded SimpleHost.host)
              Cases.stacked)
     = [2; 1]%nat.
Proof. split; vm_compute; reflexivity. Qed.

Module FileFacts.
Section WithHost.
Context `{Host}.
Import LinkDeployerCore.

(** [deployFromFile], case by case. *)
Lemma deployFromFile_eq (w : World) (f : File) (mode : DeployMode) :
  deployFromFile f mode w
  = match file_text f with
    | None => (Throw (Error "Failed to read file"), w)
    | Some content =>
        match LinkProcessor.extractUrls content (file_name f) with
        | Throw e => (Throw e, w)
        | Normal urls =>
            let w1 :=
              match urls, mode with
              | [], _ => w
              | u0 :: _, EMBED => Spec.after (Spec.embedding (statics w) u0) w
              | u0 :: _, VIDEO_STAGE =>
                  let w0 := if Spec.ready w
                            then Spec.after (Spec.delivery (statics w) u0) w
                            else w in
                  if (1 <? length urls)%nat && videoElement w
                  then with_ended
                         (ended w ++ [ {| playlist := urls;
                                          currentIndex := 0 |} ]) w0
                  else w0
              end in
            (Normal tt,
             with_effects
               (effects w1 ++ [OnDeploy (Cursor.fileData f mode content urls)])
               w1)
        end
    end.
Proof.
  unfold deployFromFile, readFileContent. eff_unfold.
  destruct (file_text f) as [content|]; simpl; [|done].
  destruct (LinkProcessor.extractUrls content (file_name f)) as [urls|e];
    simpl; [|done].
  destruct urls as [|u0 rest]; simpl; [done|].
  destruct mode.
  - unfold deployMultipleToEmbed. rewrite DeployFacts.deployToEmbed_eq. done.
  - unfold deployMultipleToVideoStage. eff_unfold.
    rewrite DeployFacts.deployToVideoStage_eq.
    unfold setupVideoPlaylist. eff_unfold.
    destruct rest as [|u1 rest]; simpl.
    + by destruct (Spec.ready w).
    + destruct (Spec.ready w) eqn:R; simpl; by destruct (videoElement w).
Qed.

Lemma handleDeploy_file (w : World) (f : File) (mode : DeployMode) :
  currentUrl w = "" -> selectedFile w = Some f ->
  handleDeploy mode w = deployFromFile f mode w.
Proof.
  intros Eu Ef. unfold handleDeploy. eff_unfold. by rewrite Eu, Ef.
Qed.

End WithHost.
End FileFacts.

(** X7. When the selected file cannot be read, [handleDeploy] throws the
    error of the read and leaves everything as it was: no surface is
    touched, no playlist is attached and [onDeploy] is not called. *)
Theorem handleDeploy_read_failure `{Host} (w : LinkDeployerCore.World)
    (f : LinkDeployerCore.File) (mode : LinkDeployerCore.DeployMode) :
  LinkDeployerCore.currentUrl w = "" ->
  LinkDeployerCore.selectedFile w = Some f ->
  LinkDeployerCore.file_text f = None ->
  LinkDeployerCore.handleDeploy mode w
  = (Throw (Error "Failed to read file"), w).
Proof.
  intros Eu Ef Et.
  rewrite (FileFacts.handleDeploy_file w f mode Eu Ef).
  by rewrite FileFacts.deployFromFile_eq, Et.
Qed.

Lemma handleDeploy_read_failure_witness :
  @LinkDeployerCore.handleDeploy SimpleHost.host LinkDeployerCore.VIDEO_STAGE
    (Cases.withFile Cases.unreadable)
  = (Throw (Error "Failed to read file"), Cases.withFile Cases.unreadable).
Proof.
  exact (@handleDeploy_read_failure SimpleHost.host
           (Cases.withFile Cases.unreadable) Cases.unreadable
           LinkDeployerCore.VIDEO_STAGE eq_refl eq_refl eq_refl).
Defined.

(** X8. When no URL is extracted from the selected file, [handleDeploy]
    touches neither surface and attaches no playlist; it calls [onDeploy]
    with the empty list and returns normally. *)
Theorem handleDeploy_empty_file `{Host} (w : LinkDeployerCore.World)
    (f : LinkDeployerCore.File) (mode : LinkDeployerCore.DeployMode)
    (content : string) :
  LinkDeployerCore.currentUrl w = "" ->
  LinkDeployerCore.selectedFile w = Some f ->
  LinkDeployerCore.file_text f = Some content ->
  LinkProcessor.extractUrls content (LinkDeployerCore.file_name f) = Normal [] ->
  LinkDeployerCore.handleDeploy mode w
  = (Normal tt,
     LinkDeployerCore.with_effects
       (LinkDeployerCore.effects w
        ++ [LinkDeployerCore.OnDeploy (Cursor.fileData f mode content [])])
       w).
Proof.
  intros Eu Ef Et Ex.
  rewrite (FileFacts.handleDeploy_file w f mode Eu Ef).
  by rewrite FileFacts.deployFromFile_eq, Et, Ex.
Qed.

Lemma handleDeploy_empty_file_witness :
  LinkDeployerCore.effects
    (Eff.exec (@LinkDeployerCore.handleDeploy SimpleHost.host
                 LinkDeployerCore.EMBED) (Cases.withFile Cases.notes))
  = [ LinkDeployerCore.OnDeploy
        (@Cursor.fileData Cases.notes LinkDeployerCore.EMBED
           "no links in here" []) ].
Proof.
  unfold Eff.exec.
  by rewrite (@handleDeploy_empty_file SimpleHost.host
                (Cases.withFile Cases.notes) Cases.notes LinkDeployerCore.EMBED
                "no links in here" eq_refl eq_refl eq_refl eq_refl).
Defined.

(** X9. A batch deployed to the embed surface: the first URL is embedded,
    the others are not, no playlist is attached to the stage, and [onDeploy]
    gets the whole list. *)
Theorem handleDeploy_file_embed `{Host} (w : LinkDeployerCore.World)
    (f : LinkDeployerCore.File) (content u0 : string) (rest : list string) :
  LinkDeployerCore.currentUrl w = "" ->
  LinkDeployerCore.selectedFile w = Some f ->
  LinkDeployerCore.file_text f = Some content ->
  LinkProcessor.extractUrls content (LinkDeployerCore.file_name f)
  = Normal (u0 :: rest) ->
  exists w',
    LinkDeployerCore.handleDeploy LinkDeployerCore.EMBED w = (Normal tt, w')
    /\ LinkDeployerCore.effects w'
       = LinkDeployerCore.effects w
         ++ Spec.embedding (LinkDeployerCore.statics w) u0
         ++ [LinkDeployerCore.OnDeploy
               (Cursor.fileData f LinkDeployerCore.EMBED content (u0 :: rest))]
    /\ LinkDeployerCore.ended w' = LinkDeployerCore.ended w.
Proof.
  intros Eu Ef Et Ex.
  rewrite (FileFacts.handleDeploy_file w f _ Eu Ef).
  rewrite FileFacts.deployFromFile_eq, Et, Ex.
  eexists. split; [reflexivity|]. simpl. by rewrite <- app_assoc.
Qed.

Lemma handleDeploy_file_embed_witness :
  exists w',
    @LinkDeployerCore.handleDeploy SimpleHost.host LinkDeployerCore.EMBED
      (Cases.withFile Sample.playlistFile) = (Normal tt, w')
    /\ length (LinkDeployerCore.effects w') = 2%nat
    /\ LinkDeployerCore.ended w' = [].
Proof.
  destruct (@handleDeploy_file_embed SimpleHost.host
              (Cases.withFile Sample.playlistFile) Sample.playlistFile
              _ "https://youtu.be/a" ["https://youtu.be/b"; "https://youtu.be/c"]
              eq_refl eq_refl eq_refl eq_refl) as (w' & E & F & En).
  exists w'. split; [exact E|]. split; [|exact En].
  rewrite F. reflexivity.
Defined.

(** X10. A batch deployed to the stage, with the stage elements present:
    the first URL is deployed, [onDeploy] gets the whole list, and a
    playlist is attached, after those already attached and with its cursor
    at the first item, exactly when the batch has more than one URL. *)
Theorem handleDeploy_file_stage `{Host} (w : LinkDeployerCore.World)
    (f : LinkDeployerCore.File) (content u0 : string) (rest : list string) :
  LinkDeployerCore.currentUrl w = "" ->
  LinkDeployerCore.selectedFile w = Some f ->
  LinkDeployerCore.file_text f = Some content ->
  LinkProcessor.extractUrls content (LinkDeployerCore.file_name f)
  = Normal (u0 :: rest) ->
  LinkDeployerCore.videoElement w = true ->
  LinkDeployerCore.sourceElement w = true ->
  exists w',
    LinkDeployerCore.handleDeploy LinkDeployerCore.VIDEO_STAGE w
    = (Normal tt, w')
    /\ LinkDeployerCore.effects w'
       = LinkDeployerCore.effects w
         ++ Spec.delivery (LinkDeployerCore.statics w) u0
         ++ [LinkDeployerCore.OnDeploy
               (Cursor.fileData f LinkDeployerCore.VIDEO_STAGE content
                  (u0 :: rest))]
    /\ LinkDeployerCore.ended w'
       = LinkDeployerCore.ended w
         ++ match rest with
            | [] => []
            | _ :: _ => [ {| LinkDeployerCore.playlist := u0 :: rest;
                             LinkDeployerCore.currentIndex := 0 |} ]
            end.
Proof.
  intros Eu Ef Et Ex Ev Es.
  rewrite (FileFacts.handleDeploy_file w f _ Eu Ef).
  rewrite FileFacts.deployFromFile_eq, Et, Ex.
  unfold Spec.ready. rewrite Ev, Es. simpl.
  eexists. split; [reflexivity|].
  destruct rest as [|u1 rest]; simpl.
  - split; [by rewrite <- app_assoc|by rewrite app_nil_r].
  - split; [by rewrite <- app_assoc|done].
Qed.

Lemma handleDeploy_file_stage_witness :
  exists w',
    @LinkDeployerCore.handleDeploy SimpleHost.host LinkDeployerCore.VIDEO_STAGE
      (Cases.withFile Cases.single) = (Normal tt, w')
    /\ LinkDeployerCore.effects w'
       = [ LinkDeployerCore.SourceSrc (Sample.embedOf "a");
           LinkDeployerCore.VideoLoad; LinkDeployerCore.CanPlayOnce;
           LinkDeployerCore.OnDeploy
             (@Cursor.fileData Cases.single LinkDeployerCore.VIDEO_STAGE
                "https://youtu.be/a" ["https://youtu.be/a"]) ]
    /\ LinkDeployerCore.ended w' = [].
Proof.
  exact (@handleDeploy_file_stage SimpleHost.host (Cases.withFile Cases.single)
           Cases.single "https://youtu.be/a" "https://youtu.be/a" []
           eq_refl eq_refl eq_refl eq_refl eq_refl eq_refl).
Defined.

(** X11. [handleDeploy] does nothing when [canDeploy] is false. *)
Theorem handleDeploy_without_input `{Host} (w : LinkDeployerCore.World)
    (mode : LinkDeployerCore.DeployMode) :
  LinkDeployerCore.canDeploy w = false ->
  LinkDeployerCore.handleDeploy mode w = (Normal tt, w).
Proof.
  unfold LinkDeployerCore.canDeploy, LinkDeployerCore.handleDeploy.
  intros [Eu Ef]%orb_false_iff. eff_unfold. cbv iota beta.
  apply negb_false_iff in Eu. rewrite Eu. simpl.
  destruct (LinkDeployerCore.selectedFile w) as [f|]; [|done].
  by rewrite bool_decide_eq_true_2 in Ef by eauto.
Qed.

Lemma handleDeploy_without_input_witness :
  @LinkDeployerCore.handleDeploy SimpleHost.host LinkDeployerCore.EMBED
    (Eff.exec LinkDeployerCore.reset Sample.afterSingle)
  = (Normal tt,
     Eff.exec LinkDeployerCore.reset Sample.afterSingle).
Proof.
  exact (@handleDeploy_without_input SimpleHost.host
           (Eff.exec LinkDeployerCore.reset Sample.afterSingle)
           LinkDeployerCore.EMBED eq_refl).
Defined.

(** X12. A typed URL goes before a selected file: with a URL present the
    file is not read, and the deployment is that of the URL alone. *)
Theorem handleDeploy_url_before_file `{Host} (w : LinkDeployerCore.World)
    (mode : LinkDeployerCore.DeployMode)
    (f : option LinkDeployerCore.File) :
  LinkDeployerCore.currentUrl w <> "" ->
  LinkDeployerCore.handleDeploy mode (LinkDeployerCore.with_selectedFile f w)
  = (Normal tt,
     LinkDeployerCore.with_selectedFile f
       (Eff.exec (LinkDeployerCore.handleDeploy mode) w))
  /\ (LinkDeployerCore.handleDeploy mode w).1 = Normal tt.
Proof.
  intros Hne.
  destruct (PlaylistFacts.handleDeploy_single w mode Hne) as (done & E & Hd).
  destruct (PlaylistFacts.handleDeploy_single
              (LinkDeployerCore.with_selectedFile f w) mode Hne)
    as (done' & E' & Hd').
  assert (done' = done) as -> by (rewrite Hd, Hd'; reflexivity).
  unfold Eff.exec. rewrite E. split; [|done].
  rewrite E'. f_equal. unfold Spec.ready. simpl.
  destruct mode; [done|].
  by destruct (LinkDeployerCore.videoElement w),
    (LinkDeployerCore.sourceElement w).
Qed.

Lemma handleDeploy_url_before_file_witness :
  @LinkDeployerCore.handleDeploy SimpleHost.host LinkDeployerCore.EMBED
    (LinkDeployerCore.with_selectedFile (Some Sample.playlistFile)
       Cases.noStage)
  = (Normal tt,
     LinkDeployerCore.with_selectedFile (Some Sample.playlistFile)
       (Eff.exec (@LinkDeployerCore.handleDeploy SimpleHost.host
                    LinkDeployerCore.EMBED) Cases.noStage)).
Proof.
  exact (proj1 (@handleDeploy_url_before_file SimpleHost.host Cases.noStage
                  LinkDeployerCore.EMBED (Some Sample.playlistFile)
                  ltac:(discriminate))).
Defined.

(** No playlist has been added. *)
Ltac none_added :=
  exists []; rewrite app_nil_r; split; [reflexivity|simpl; lia].

(** X13. [handleDeploy] never detaches a playlist: whatever the input and
    the mode, and whether it returns or throws, the playlists attached
    before are still attached after, in the same order and with the same
    cursors, and at most one has been added after them. *)
Theorem handleDeploy_never_detaches `{Host} (w : LinkDeployerCore.World)
    (mode : LinkDeployerCore.DeployMode) :
  exists more,
    LinkDeployerCore.ended (Eff.exec (LinkDeployerCore.handleDeploy mode) w)
    = LinkDeployerCore.ended w ++ more
    /\ (length more <= 1)%nat.
Proof.
  destruct (decide (LinkDeployerCore.currentUrl w = "")) as [Eu|Hne].
  - destruct (LinkDeployerCore.selectedFile w) as [f|] eqn:Ef.
    + unfold Eff.exec. rewrite (FileFacts.handleDeploy_file w f mode Eu Ef).
      rewrite FileFacts.deployFromFile_eq.
      destruct (LinkDeployerCore.file_text f) as [content|];
        [|none_added].
      destruct (LinkProcessor.extractUrls _ _) as [[|u0 rest]|e];
        [none_added| |none_added].
      destruct mode; [none_added|].
      cbv zeta.
      destruct ((1 <? length (u0 :: rest))%nat
                && LinkDeployerCore.videoElement w);
        destruct (Spec.ready w); simpl.
      * eexists. split; [reflexivity|simpl; lia].
      * eexists. split; [reflexivity|simpl; lia].
      * none_added.
      * none_added.
    + unfold Eff.exec, LinkDeployerCore.handleDeploy. eff_unfold.
      cbv iota beta. rewrite Eu, Ef. none_added.
  - destruct (PlaylistFacts.handleDeploy_single w mode Hne) as (done & E & _).
    unfold Eff.exec. rewrite E. destruct mode, (Spec.ready w); none_added.
Qed.

(** X14. With the stage elements missing, a single-URL deployment to the
    stage sets no source, loads nothing and does not look for a handler;
    [onDeploy] is called all the same, as for a deployment that went
    through. *)
Theorem handleDeploy_without_stage `{Host} (w : LinkDeployerCore.World) :
  LinkDeployerCore.currentUrl w <> "" ->
  Spec.ready w = false ->
  LinkDeployerCore.handleDeploy LinkDeployerCore.VIDEO_STAGE w
  = (Normal tt,
     LinkDeployerCore.with_effects
       (LinkDeployerCore.effects w
        ++ [LinkDeployerCore.OnDeploy
              (Cursor.urlData (LinkDeployerCore.currentUrl w)
                 LinkDeployerCore.VIDEO_STAGE)])
       w).
Proof.
  intros Hne R.
  destruct (PlaylistFacts.handleDeploy_single
              w LinkDeployerCore.VIDEO_STAGE Hne) as (done & E & ->).
  rewrite E, R. done.
Qed.

Lemma handleDeploy_without_stage_witness :
  LinkDeployerCore.effects
    (Eff.exec (@LinkDeployerCore.handleDeploy SimpleHost.host
                 LinkDeployerCore.VIDEO_STAGE) Cases.noStage)
  = [ LinkDeployerCore.OnDeploy
        {| LinkDeployerCore.type := LinkDeployerCore.type_url;
           LinkDeployerCore.mode := LinkDeployerCore.VIDEO_STAGE;
           LinkDeployerCore.url := Some "https://youtu.be/a";
           LinkDeployerCore.file := None;
           LinkDeployerCore.fileContent := None;
           LinkDeployerCore.urls := None;
           LinkDeployerCore.platform := Some "YouTube" |} ].
Proof.
  unfold Eff.exec.
  by rewrite (@handleDeploy_without_stage SimpleHost.host Cases.noStage
                ltac:(discriminate) eq_refl).
Defined.

(** ** Link extraction, continued *)

Module WalkFacts.
Section WithHost.
Context `{Host}.
Import FileLinkReader.

(** Induction on a JSON value, with the hypothesis for every element of an
    array and every property of an object. *)
Lemma JSON_nested_ind (P : JSON -> Prop) :
  P JNull -> (forall b, P (JBool b)) -> (forall q, P (JNumber q)) ->
  (forall s, P (JString s)) ->
  (forall items, Forall P items -> P (JArray items)) ->
  (forall props, Forall (fun kv => P kv.2) props -> P (JObject props)) ->
  forall v, P v.
Proof.
  intros Hnull Hbool Hnum Hstr Harr Hobj.
  fix IH 1. intros [| b | q | s | items | props].
  - exact Hnull.
  - apply Hbool.
  - apply Hnum.
  - apply Hstr.
  - apply Harr. induction items as [|v items IHitems]; constructor.
    + apply IH.
    + exact IHitems.
  - apply Hobj. induction props as [|[k v] props IHprops]; constructor.
    + apply IH.
    + exact IHprops.
Qed.

Lemma extract_array (items : list JSON) (urls : list string) :
  extractUrlsFromObject (JArray items) urls
  = foldl (fun urls v => Walk.value v urls) urls items.
Proof.
  simpl. revert urls. induction items as [|v items IH]; intros urls; [done|].
  simpl. rewrite <- IH. f_equal.
  destruct v as [| | | |inner|]; try done.
  simpl. revert urls. clear. induction inner as [|it inner IH]; intros urls;
    [done|]. simpl. rewrite <- IH. by destruct it.
Qed.

Lemma extract_object (props : list (string * JSON)) (urls : list string) :
  extractUrlsFromObject (JObject props) urls
  = foldl (fun urls kv => Walk.value kv.2 urls) urls props.
Proof.
  simpl. revert urls. induction props as [|[k v] props IH]; intros urls;
    [done|].
  simpl. rewrite <- IH. f_equal.
  destruct v as [| | | |inner|]; try done.
  simpl. revert urls. clear. induction inner as [|it inner IH]; intros urls;
    [done|]. simpl. rewrite <- IH. by destruct it.
Qed.

Local Abbreviation valid := (fun u : string => isValidUrl u = true).

Lemma pushValid_valid (urls : list string) (u : string) :
  Forall valid urls -> Forall valid (pushValid urls u).
Proof.
  intros Hv. unfold pushValid. destruct (isValidUrl u) eqn:E; [|done].
  apply Forall_app. split; [done|]. by repeat constructor.
Qed.

Lemma foldl_valid {A} (f : list string -> A -> list string) (l : list A)
    (urls : list string) :
  Forall (fun x => forall urls, Forall valid urls -> Forall valid (f urls x)) l ->
  Forall valid urls -> Forall valid (foldl f urls l).
Proof.
  intros Hl. revert urls. induction Hl as [|x l Hx Hl IH]; intros urls Hv;
    simpl; auto.
Qed.

(** The walk through a value adds valid URLs only. *)
Lemma walk_valid (v : JSON) :
  forall urls, Forall valid urls ->
    Forall valid (extractUrlsFromObject v urls)
    /\ Forall valid (Walk.value v urls)
    /\ Forall valid (Walk.item v urls).
Proof.
  induction v as [| b | q | s | items IH | props IH] using JSON_nested_ind;
    intros urls Hv; try (by repeat split; try apply pushValid_valid).
  - assert (Forall valid (extractUrlsFromObject (JArray items) urls)) as He.
    { rewrite extract_array. apply foldl_valid; [|done].
      eapply Forall_impl; [exact IH|]. intros v Pv acc Hacc. by apply Pv. }
    repeat split; [done| |done].
    simpl. apply foldl_valid; [|done].
    eapply Forall_impl; [exact IH|]. intros v Pv acc Hacc. by apply Pv.
  - assert (Forall valid (extractUrlsFromObject (JObject props) urls)) as He.
    { rewrite extract_object. apply (foldl_valid (fun urls kv => Walk.value kv.2 urls)); [|done].
      eapply Forall_impl; [exact IH|]. intros kv Pv acc Hacc. by apply Pv. }
    by repeat split.
Qed.

Lemma omap_isUrlItem_valid (items : list JSON) :
  Forall valid (omap isUrlItem items).
Proof.
  apply Forall_forall. intros u Hu.
  apply list_elem_of_omap in Hu as (it & _ & Hit).
  destruct it as [| | |s| |]; simpl in Hit; try done.
  destruct (isValidUrl s) eqn:E; by simplify_eq.
Qed.

End WithHost.
End WalkFacts.

(** X15. Every string that [readJsonUrls] returns is a URL that
    [isValidUrl] accepts, whether it comes from the top-level array, from
    the array under [urls], [videos] or [links], or from the walk through
    the whole structure. *)
Theorem readJsonUrls_returns_valid_urls `{Host} (content : string)
    (urls : list string) :
  FileLinkReader.readJsonUrls content = Normal urls ->
  Forall (fun u => FileLinkReader.isValidUrl u = true) urls.
Proof.
  unfold FileLinkReader.readJsonUrls, parse_JSON.
  assert (forall l, @Normal (list string) l = Normal urls ->
             Forall (fun u => FileLinkReader.isValidUrl u = true) l ->
             Forall (fun u => FileLinkReader.isValidUrl u = true) urls)
    as Hret by (intros l [= ->]; done).
  destruct (JSON_parse content) as [data|]; simpl;
    [|intros E; apply (Hret _ E); constructor].
  destruct data as [| b | q | s | items | props]; simpl;
    try (intros E; apply (Hret _ E); constructor).
  - intros E; apply (Hret _ E). apply WalkFacts.omap_isUrlItem_valid.
  - destruct (FileLinkReader.or_else _ _) as [[| | | |urlsArray|]|]; simpl;
      intros E; apply (Hret _ E);
      (apply WalkFacts.omap_isUrlItem_valid
       || (apply (WalkFacts.walk_valid (JObject props)); constructor)).
Qed.

Lemma readJsonUrls_returns_valid_urls_witness :
  Forall (fun u => @FileLinkReader.isValidUrl SimpleHost.host u = true)
         ["https://a.com/x"; "https://a.com/x"].
Proof.
  exact (@readJsonUrls_returns_valid_urls SimpleHost.host Sample.json _
           eq_refl).
Defined.

Module TextFacts.
Section WithHost.
Context `{Host}.
Import FileLinkReader.

Lemma split_nonempty (sep : ascii) (s : string) : split sep s <> [].
Proof.
  induction s as [|c s IH]; simpl; [done|].
  destruct (Ascii.eqb c sep); [done|]. by destruct (split sep s).
Qed.

Lemma split_app (sep : ascii) (a b : string) :
  split sep (a +:+ String sep b) = split sep a ++ split sep b.
Proof.
  induction a as [|c a IH].
  - change (split sep (String sep b) = [""] ++ split sep b).
    simpl. by rewrite Ascii.eqb_refl.
  - change (split sep (String c (a +:+ String sep b))
            = split sep (String c a) ++ split sep b).
    simpl. rewrite IH. destruct (Ascii.eqb c sep); [done|].
    pose proof (split_nonempty sep a).
    by destruct (split sep a).
Qed.

Lemma foldl_stripped (urls l : list string) :
  foldl (fun urls m => pushValid urls (Scan.stripTrailingPunct m)) urls l
  = urls ++ filter (fun u => isValidUrl u = true) (Scan.stripTrailingPunct <$> l).
Proof.
  rewrite <- ExtractFacts.foldl_pushValid. revert urls.
  induction l as [|m l IH]; intros urls; simpl; [done|]. apply IH.
Qed.

(** [readTextUrls] takes from each line what [Lines.ofLine] says, and puts
    it after what it has. *)
Lemma foldl_lines (lines : list string) (urls : list string) :
  foldl (fun urls line =>
           let trimmedLine := trim line in
           if String.eqb trimmedLine "" || startsWith trimmedLine "#"
              || startsWith trimmedLine "//"
           then urls
           else if isValidUrl trimmedLine then urls ++ [trimmedLine]
           else foldl (fun urls m => pushValid urls (Scan.stripTrailingPunct m))
                      urls (Scan.urlRegex trimmedLine))
        urls lines
  = urls ++ concat (Lines.ofLine <$> lines).
Proof.
  revert urls. induction lines as [|line lines IH]; intros urls.
  - simpl. by rewrite app_nil_r.
  - cbn [foldl fmap list_fmap concat]. rewrite IH, app_assoc. f_equal.
    unfold Lines.ofLine. cbv zeta.
    destruct (_ || _); [by rewrite app_nil_r|].
    destruct (isValidUrl (trim line)); [done|]. apply foldl_stripped.
Qed.

Lemma readTextUrls_lines (content : string) :
  readTextUrls content = concat (Lines.ofLine <$> split newline content).
Proof. unfold readTextUrls. by rewrite foldl_lines. Qed.

End WithHost.
End TextFacts.

(** X16. [readTextUrls] reads line by line, without memory of the lines
    before: the URLs of a text are the URLs of its first part followed by
    the URLs of the rest, wherever a line break cuts it. *)
Theorem readTextUrls_line_by_line `{Host} (first rest : string) :
  FileLinkReader.readTextUrls
    (first +:+ String FileLinkReader.newline rest)
  = FileLinkReader.readTextUrls first ++ FileLinkReader.readTextUrls rest.
Proof.
  rewrite !TextFacts.readTextUrls_lines, TextFacts.split_app.
  by rewrite fmap_app, concat_app.
Qed.

(** X17. Every string that [readTextUrls] or [readMarkdownUrls] returns is
    a URL that [isValidUrl] accepts. *)
Theorem text_and_markdown_return_valid_urls `{Host} (content : string) :
  Forall (fun u => FileLinkReader.isValidUrl u = true)
         (FileLinkReader.readTextUrls content)
  /\ Forall (fun u => FileLinkReader.isValidUrl u = true)
            (FileLinkReader.readMarkdownUrls content).
Proof.
  split.
  - rewrite TextFacts.readTextUrls_lines. apply Forall_concat, Forall_fmap.
    apply Forall_forall. intros line _. simpl. unfold Lines.ofLine.
    destruct (_ || _); [constructor|].
    destruct (FileLinkReader.isValidUrl (trim line)) eqn:E.
    + by repeat constructor.
    + apply Forall_forall. intros u Hu.
      by apply list_elem_of_filter in Hu as [? _].
  - rewrite ExtractFacts.readMarkdownUrls_eq. apply Forall_app. split.
    + apply Forall_forall. intros u Hu.
      by apply list_elem_of_filter in Hu as [? _].
    + apply Forall_forall. intros u Hu.
      apply list_elem_of_filter in Hu as [_ Hu].
      apply (proj1 (ExtractFacts.dedupe_elem _ _)) in Hu.
      by apply list_elem_of_filter in Hu as [? _].
Qed.

(** X18. For an object, [readJsonUrls] looks at [urls], then [videos], then
    [links], and takes the first that is truthy.  When that is an array, the
    result is its valid string items and nothing else of the object; when
    none of the three is truthy, the result is empty, whatever else the
    object holds. *)
Theorem readJsonUrls_object_aliases `{Host} (content : string)
    (props : list (string * JSON)) :
  JSON_parse content = Some (JObject props) ->
  let falsy name :=
    match JSMap.get props name with
    | Some v => FileLinkReader.jtruthy v = false
    | None => True
    end in
  (forall items, JSMap.get props "urls" = Some (JArray items) ->
     FileLinkReader.readJsonUrls content
     = Normal (omap FileLinkReader.isUrlItem items))
  /\ (forall items, falsy "urls" ->
        JSMap.get props "videos" = Some (JArray items) ->
        FileLinkReader.readJsonUrls content
        = Normal (omap FileLinkReader.isUrlItem items))
  /\ (forall items, falsy "urls" -> falsy "videos" ->
        JSMap.get props "links" = Some (JArray items) ->
        FileLinkReader.readJsonUrls content
        = Normal (omap FileLinkReader.isUrlItem items))
  /\ (falsy "urls" -> falsy "videos" -> falsy "links" ->
      FileLinkReader.readJsonUrls content = Normal []).
Proof.
  intros E falsy.
  assert (forall name, falsy name ->
            forall b, FileLinkReader.or_else (JSMap.get props name) b = b)
    as Hfalsy.
  { intros name Hf b. unfold falsy in Hf.
    destruct (JSMap.get props name) as [v|]; simpl; [by rewrite Hf|done]. }
  unfold FileLinkReader.readJsonUrls, parse_JSON. rewrite E. simpl.
  repeat split.
  - by intros items ->.
  - intros items F1 E2. by rewrite (Hfalsy _ F1), E2.
  - intros items F1 F2 E3. by rewrite (Hfalsy _ F1), (Hfalsy _ F2), E3.
  - intros F1 F2 F3. by rewrite (Hfalsy _ F1), (Hfalsy _ F2), (Hfalsy _ F3).
Qed.

Lemma readJsonUrls_object_aliases_witness :
  @FileLinkReader.readJsonUrls SimpleHost.host Cases.nested = Normal [].
Proof.
  exact (proj2 (proj2 (proj2
    (@readJsonUrls_object_aliases SimpleHost.host Cases.nested
       [("title", JString "https://a.com/x");
        ("items", JArray [JString "https://b.com/y"])] eq_refl))) I I I).
Defined.

Module ScanFacts.

Lemma matchAll_Forall {A} (matchHere : string -> option (A * nat))
    (Q : A -> Prop) :
  (forall s a n, matchHere s = Some (a, n) -> Q a) ->
  forall s skip, Forall Q (Scan.matchAll matchHere skip s).
Proof.
  intros HQ. induction s as [|c s IH]; intros skip.
  - destruct skip; simpl; [|constructor].
    destruct (matchHere "") as [[a n]|] eqn:E; [|constructor].
    constructor; [by eapply HQ|constructor].
  - destruct skip; simpl; [|apply IH].
    destruct (matchHere (String c s)) as [[a n]|] eqn:E; [|apply IH].
    constructor; [by eapply HQ|apply IH].
Qed.

Lemma all_takeWhile (f : ascii -> bool) (s : string) :
  Text.all f (takeWhile f s) = true.
Proof.
  induction s as [|c s IH]; simpl; [done|].
  destruct (f c) eqn:E; simpl; [by rewrite E|done].
Qed.

Lemma all_app (f : ascii -> bool) (a b : string) :
  Text.all f (a +:+ b) = Text.all f a && Text.all f b.
Proof.
  induction a as [|c a IH]; [done|].
  change (f c && Text.all f (a +:+ b) = f c && Text.all f a && Text.all f b).
  by rewrite IH, andb_assoc.
Qed.

Lemma last_None (s : string) : Text.last s = None -> s = "".
Proof.
  induction s as [|c s IH]; [done|]. simpl.
  destruct s; [done|]. intros E. by specialize (IH E).
Qed.

Lemma last_cons (c : ascii) (s : string) :
  Text.last (String c s)
  = match Text.last s with Some x => Some x | None => Some c end.
Proof.
  destruct s as [|y s]; [done|].
  change (Text.last (String c (String y s))) with (Text.last (String y s)).
  destruct (Text.last (String y s)) eqn:E; [done|].
  by apply last_None in E.
Qed.

Lemma last_app (a b : string) :
  Text.last (a +:+ b)
  = match Text.last b with Some c => Some c | None => Text.last a end.
Proof.
  induction a as [|c a IH].
  { change ("" +:+ b) with b. by destruct (Text.last b). }
  change (String c a +:+ b) with (String c (a +:+ b)).
  rewrite !last_cons, IH. by destruct (Text.last b), (Text.last a).
Qed.

(** [dropWhileEnd] gives a text that does not end in what was dropped. *)
Lemma dropWhileEnd_last (f : ascii -> bool) (s : string) (c : ascii) :
  Text.last (dropWhileEnd f s) = Some c -> f c = false.
Proof.
  induction s as [|x s IH]; simpl; [done|].
  destruct (dropWhileEnd f s) as [|y r] eqn:E.
  - destruct (f x) eqn:Fx; simpl; [done|]. intros ?; by simplify_eq.
  - intros Hl. apply IH. exact Hl.
Qed.

Lemma dropWhileEnd_all (f g : ascii -> bool) (s : string) :
  Text.all g s = true -> Text.all g (dropWhileEnd f s) = true.
Proof.
  induction s as [|x s IH]; simpl; [done|].
  intros [Gx Gs]%andb_true_iff. specialize (IH Gs).
  destruct (dropWhileEnd f s) as [|y r] eqn:E.
  - destruct (f x); simpl; [done|by rewrite Gx].
  - simpl in *. by rewrite Gx, IH.
Qed.

Lemma dropWhileEnd_app (f : ascii -> bool) (a b : string) :
  dropWhileEnd f (a +:+ b)
  = match dropWhileEnd f b with
    | EmptyString => dropWhileEnd f a
    | r => a +:+ r
    end.
Proof.
  induction a as [|x a IH].
  { change ("" +:+ b) with b. by destruct (dropWhileEnd f b). }
  change (String x a +:+ b) with (String x (a +:+ b)).
  cbn [dropWhileEnd]. rewrite IH.
  destruct (dropWhileEnd f b) as [|y r]; [done|].
  by destruct a.
Qed.

Lemma dropWhileEnd_none (f : ascii -> bool) (s : string) :
  Text.all (fun c => negb (f c)) s = true -> dropWhileEnd f s = s.
Proof.
  induction s as [|x s IH]; simpl; [done|].
  intros [Fx Fs]%andb_true_iff. rewrite (IH Fs).
  apply negb_true_iff in Fx. rewrite Fx. by destruct s.
Qed.

Lemma trim_noSpace (s : string) : Text.noSpace s = true -> trim s = s.
Proof.
  intros Hs. unfold trim.
  assert (dropWhile isWhiteSpace s = s) as ->.
  { destruct s as [|c s]; [done|]. simpl in *.
    apply andb_true_iff in Hs as [Hc _]. apply negb_true_iff in Hc.
    by rewrite Hc. }
  by apply dropWhileEnd_none.
Qed.

(** What a match of [https?:\/\/[^\s]+] looks like. *)
Definition token (m : string) : Prop :=
  exists scheme body,
    (scheme = "https://" \/ scheme = "http://")
    /\ m = scheme +:+ body /\ Text.noSpace body = true.

Lemma urlRegex_token (text : string) : Forall token (Scan.urlRegex text).
Proof.
  apply matchAll_Forall. intros s m n. unfold Scan.httpToken, Scan.span.
  assert (forall scheme,
            (scheme = "https://" \/ scheme = "http://") ->
            forall r,
              (rest ← Scan.after scheme s;
               match takeWhile (fun c => negb (isWhiteSpace c)) rest with
               | "" => None
               | String _ _ =>
                   Some (scheme
                         +:+ takeWhile (fun c => negb (isWhiteSpace c)) rest,
                         (String.length scheme
                          + String.length
                              (takeWhile (fun c => negb (isWhiteSpace c))
                                 rest))%nat)
               end) = Some r -> token r.1) as Htoken.
  { intros scheme Hs r. destruct (Scan.after scheme s) as [rest|]; [|done].
    simpl. pose proof (all_takeWhile (fun c => negb (isWhiteSpace c)) rest).
    destruct (takeWhile _ rest) as [|c body] eqn:E; [done|].
    intros ?; simplify_eq. by exists scheme, (String c body). }
  simpl.
  destruct (_ ≫= _) as [r|] eqn:E1 at 1.
  - intros ?; simplify_eq. apply (Htoken "https://" (or_introl eq_refl) _ E1).
  - intros E2. apply (Htoken "http://" (or_intror eq_refl) _ E2).
Qed.

End ScanFacts.

(** X19. Every string that [extractUrlsFromText] returns begins with
    [http://] or [https://], holds no white space, does not end in one of
    the characters [.,;:!?)], and is accepted by [isValidVideoUrl]. *)
Theorem extractUrlsFromText_shape `{Host} (text u : string) :
  u ∈ LinkProcessor.extractUrlsFromText text ->
  LinkProcessor.isValidVideoUrl u = true
  /\ (startsWith u "http://" = true \/ startsWith u "https://" = true)
  /\ Text.noSpace u = true
  /\ (forall c, Text.last u = Some c -> Scan.isPunct c = false).
Proof.
  unfold LinkProcessor.extractUrlsFromText. intros Hu.
  apply list_elem_of_filter in Hu as [Hv Hu]. split; [done|].
  apply list_elem_of_fmap in Hu as (m & -> & Hm).
  pose proof (ScanFacts.urlRegex_token text) as Ht.
  pose proof (proj1 (Forall_forall _ _) Ht m Hm)
    as (scheme & body & Hs & -> & Hb).
  assert (Scan.isPunct "/" = false) as Hslash by reflexivity.
  assert (LinkProcessor.cleanUrl (scheme +:+ body)
          = scheme +:+ Scan.stripTrailingPunct body
          /\ Text.last scheme = Some "/"%char
          /\ Text.noSpace scheme = true) as (Ec & Hl & Hn).
  { assert (Scan.stripTrailingPunct (scheme +:+ body)
            = scheme +:+ Scan.stripTrailingPunct body) as Es.
    { unfold Scan.stripTrailingPunct. rewrite ScanFacts.dropWhileEnd_app.
      destruct (dropWhileEnd Scan.isPunct body) eqn:E; [|done].
      rewrite StringFacts.append_nil_r. by destruct Hs as [-> | ->]. }
    unfold LinkProcessor.cleanUrl. rewrite Es.
    assert (Text.noSpace scheme = true) as Hn by (by destruct Hs as [-> | ->]).
    repeat split; [|by destruct Hs as [-> | ->]|done].
    apply ScanFacts.trim_noSpace. unfold Text.noSpace.
    rewrite ScanFacts.all_app. apply andb_true_iff. split; [done|].
    by apply ScanFacts.dropWhileEnd_all. }
  rewrite Ec. repeat split.
  - destruct Hs as [-> | ->]; [right|left]; apply StringFacts.startsWith_app.
  - unfold Text.noSpace. rewrite ScanFacts.all_app.
    apply andb_true_iff. split; [done|].
    by apply ScanFacts.dropWhileEnd_all.
  - intros c. rewrite ScanFacts.last_app.
    destruct (Text.last (Scan.stripTrailingPunct body)) as [c'|] eqn:E.
    + intros ?; simplify_eq. by eapply ScanFacts.dropWhileEnd_last.
    + rewrite Hl. intros ?; by simplify_eq.
Qed.

Lemma extractUrlsFromText_shape_witness :
  @LinkProcessor.isValidVideoUrl SimpleHost.host "https://youtu.be/a" = true
  /\ Text.last "https://youtu.be/a" = Some "a"%char.
Proof.
  assert ("https://youtu.be/a"
          ∈ @LinkProcessor.extractUrlsFromText SimpleHost.host Cases.sentence)
    as Hin.
  { assert (@LinkProcessor.extractUrlsFromText SimpleHost.host Cases.sentence
            = ["https://youtu.be/a"]) as -> by (vm_compute; reflexivity).
    apply list_elem_of_here. }
  split; [|reflexivity].
  exact (proj1 (@extractUrlsFromText_shape SimpleHost.host Cases.sentence
                  "https://youtu.be/a" Hin)).
Defined.

(** ** The accessory registry *)

Module AccessoryFacts.
Section WithAccessory.
Context {A : Type} (id : A -> string).
Implicit Types (m : JSMap.t A) (k : string) (a : A).

Lemma get_delete m k : NoDup (JSMap.keys m) -> JSMap.get (JSMap.delete m k) k = None.
Proof.
  unfold JSMap.keys. induction m as [|[k0 v0] m IH]; simpl; [done|].
  intros [Hni Hnd]%NoDup_cons. destruct (String.eqb_spec k0 k) as [->|Hne].
  - by apply JSMapFacts.get_None_keys.
  - simpl. destruct (String.eqb_spec k0 k); [done|]. by apply IH.
Qed.

Lemma get_delete_ne m k k' :
  k' <> k -> JSMap.get (JSMap.delete m k) k' = JSMap.get m k'.
Proof.
  intros Hne. induction m as [|[k0 v0] m IH]; simpl; [done|].
  destruct (String.eqb_spec k0 k) as [->|]; simpl.
  - by destruct (String.eqb_spec k k'); [congruence|].
  - by rewrite IH.
Qed.

Lemma delete_keys m k x :
  x ∈ JSMap.keys (JSMap.delete m k) -> x ∈ JSMap.keys m.
Proof.
  unfold JSMap.keys. induction m as [|[k0 v0] m IH]; simpl; [done|].
  destruct (String.eqb k0 k); simpl; rewrite ?elem_of_cons; [by right|].
  intros [->|Hx]; [by left|right; auto].
Qed.

Lemma delete_NoDup m k :
  NoDup (JSMap.keys m) -> NoDup (JSMap.keys (JSMap.delete m k)).
Proof.
  induction m as [|[k0 v0] m IH]; simpl; [done|].
  unfold JSMap.keys in *. simpl. intros [Hni Hnd]%NoDup_cons.
  destruct (String.eqb k0 k); simpl; [done|].
  apply NoDup_cons. split; [|by apply IH].
  intros Hin. apply Hni. by apply (delete_keys m k).
Qed.

Lemma delete_Forall (P : string * A -> Prop) m k :
  Forall P m -> Forall P (JSMap.delete m k).
Proof.
  induction m as [|[k0 v0] m IH]; simpl; [done|].
  intros [H0 Hm]%Forall_cons. destruct (String.eqb k0 k); [done|].
  apply Forall_cons. split; [done|by apply IH].
Qed.

Lemma set_Forall (P : string * A -> Prop) m k a :
  Forall P m -> P (k, a) -> Forall P (JSMap.set m k a).
Proof.
  intros Hm Hk. induction m as [|[k0 v0] m IH]; simpl.
  - by apply Forall_singleton.
  - apply Forall_cons in Hm as [H0 Hm].
    destruct (String.eqb_spec k0 k) as [->|]; apply Forall_cons; auto.
Qed.

Lemma run_snoc (cs : list (Calls.Call (BlackVideoAccessory := A))) c :
  Calls.run id (cs ++ [c]) = Calls.step id (Calls.run id cs) c.
Proof. unfold Calls.run. by rewrite foldl_app. Qed.

Lemma run_wf (cs : list (Calls.Call (BlackVideoAccessory := A))) :
  Calls.wf id (Calls.run id cs).
Proof.
  induction cs as [|c cs IH] using rev_ind.
  - split; [apply NoDup_nil_2|apply Forall_nil_2].
  - rewrite run_snoc. destruct IH as [Hnd Hk]. destruct c as [a|i]; simpl.
    + split; [by apply TableFacts.set_NoDup|by apply set_Forall].
    + split; [by apply delete_NoDup|by apply delete_Forall].
Qed.

Lemma latest_snoc (cs : list (Calls.Call (BlackVideoAccessory := A))) c i :
  Calls.latest id i (cs ++ [c])
  = if Calls.names id i c
    then match c with Calls.Register a => Some a | _ => None end
    else Calls.latest id i cs.
Proof.
  unfold Calls.latest. rewrite rev_app_distr. simpl.
  by destruct (Calls.names id i c).
Qed.

Lemma elem_values m a :
  Calls.wf id m -> a ∈ JSMap.values m <-> JSMap.get m (id a) = Some a.
Proof.
  unfold Calls.wf, JSMap.values, JSMap.keys.
  induction m as [|[k0 v0] m IH]; simpl; intros [Hnd Hk].
  - split; [by intros ?%elem_of_nil|done].
  - apply NoDup_cons in Hnd as [Hni Hnd].
    apply Forall_cons in Hk as [H0 Hk]. simpl in H0.
    rewrite elem_of_cons. destruct (String.eqb_spec k0 (id a)) as [E|Hne].
    + split; [|intros; simplify_eq; by left].
      intros [->|Hin]; [done|]. exfalso. apply Hni. rewrite E.
      apply (IH (conj Hnd Hk)) in Hin.
      destruct (decide (id a ∈ m.*1)) as [|Hn]; [done|].
      apply JSMapFacts.get_None_keys in Hn. congruence.
    + rewrite (IH (conj Hnd Hk)). split; [|by right].
      intros [->|?]; [congruence|done].
Qed.

Lemma ids_keys m :
  Forall (fun entry => entry.1 = id entry.2) m ->
  map id (JSMap.values m) = JSMap.keys m.
Proof.
  unfold JSMap.values, JSMap.keys.
  induction 1 as [|[k v] m Hk _ IH]; [done|].
  rewrite !fmap_cons. cbn [map]. simpl in Hk. by f_equal.
Qed.

End WithAccessory.
End AccessoryFacts.

(** X20. Whatever calls of [register] and [unregister] a new registry has
    seen, [get(i)] is decided by the last call about the id [i]: the
    accessory it registered, or [undefined] when it was an [unregister] or
    there was no such call. *)
Theorem registry_get_is_latest_call {A : Type} (id : A -> string)
    (cs : list (Calls.Call (BlackVideoAccessory := A))) (i : string) :
  AccessoryRegistry.get i (Calls.run id cs) = Calls.latest id i cs.
Proof.
  unfold AccessoryRegistry.get.
  induction cs as [|c cs IH] using rev_ind; [done|].
  rewrite AccessoryFacts.latest_snoc, AccessoryFacts.run_snoc.
  destruct c as [a|j]; simpl;
    unfold AccessoryRegistry.register, AccessoryRegistry.unregister.
  - destruct (String.eqb_spec (id a) i) as [<-|Hne].
    + apply JSMapFacts.get_set.
    + rewrite JSMapFacts.get_set_ne; [exact IH|congruence].
  - destruct (String.eqb_spec j i) as [->|Hne].
    + apply AccessoryFacts.get_delete, (AccessoryFacts.run_wf id cs).
    + rewrite AccessoryFacts.get_delete_ne; [exact IH|congruence].
Qed.

(** X21. Whatever calls of [register] and [unregister] a new registry has
    seen, [getAll()] lists no two accessories with the same id, and it lists
    an accessory exactly when [get] of its id returns it. *)
Theorem registry_getAll_one_per_id {A : Type} (id : A -> string)
    (cs : list (Calls.Call (BlackVideoAccessory := A))) :
  NoDup (map id (AccessoryRegistry.getAll (Calls.run id cs)))
  /\ (forall a, a ∈ AccessoryRegistry.getAll (Calls.run id cs)
         <-> AccessoryRegistry.get (id a) (Calls.run id cs) = Some a).
Proof.
  destruct (AccessoryFacts.run_wf id cs) as [Hnd Hk]. split.
  - unfold AccessoryRegistry.getAll. by rewrite AccessoryFacts.ids_keys.
  - intros a. by apply AccessoryFacts.elem_values.
Qed.

(** ** Modules by URL *)

Module ModuleFacts.
Section WithHost.
Context `{Host}.

Lemma prefix_trans (p q s : string) :
  String.prefix p q = true -> String.prefix q s = true ->
  String.prefix p s = true.
Proof.
  revert q s. induction p as [|a p IH]; intros q s Hpq Hqs; [by destruct s|].
  destruct q as [|b q]; [done|]. destruct s as [|c s]; [done|].
  simpl in *. destruct (ascii_dec a b) as [->|]; [|done].
  destruct (ascii_dec b c) as [->|]; [|done]. by apply (IH q s).
Qed.

Lemma includes_prefix (s q p : string) :
  startsWith q p = true -> includes s q = true -> includes s p = true.
Proof.
  unfold startsWith. intros Hp.
  induction s as [|c s IH]; cbn [includes]; unfold startsWith;
    rewrite !orb_true_iff.
  - intros [Hs|?]; [left|done]. by apply (prefix_trans p q).
  - intros [Hs|Hs]; [left|right; auto]. by apply (prefix_trans p q).
Qed.

(** [registerModule] writes the module table first; the platform table is
    written only when the registration of the platform returns. *)
Lemma registerModule_eq (platform : string) (module : PlatformModule.t)
    (s : Statics) :
  PlatformModules.registerModule platform module s
  = let (completion, table) :=
      HybridConfig.registerPlatform platform module None None (platforms s) in
    (completion,
     {| modules := JSMap.set (modules s) (toLowerCase platform) module;
        initialized := initialized s;
        platforms := table |}).
Proof. reflexivity. Qed.

(** The call that [initialize] makes returns. *)
Lemma registerModule_YouTube (s : Statics) :
  (PlatformModules.registerModule "YouTube" YouTubeModule.module s).1
  = Normal tt.
Proof. reflexivity. Qed.

Lemma after_snoc (regs : list (string * PlatformModule.t)) r :
  Registered.after (regs ++ [r])
  = Eff.exec (PlatformModules.registerModule r.1 r.2) (Registered.after regs).
Proof. unfold Registered.after. by rewrite foldl_app. Qed.

Lemma after_initialized (regs : list (string * PlatformModule.t)) :
  initialized (Registered.after regs) = true.
Proof.
  induction regs as [|r regs IH] using rev_ind; [done|].
  rewrite after_snoc. unfold Eff.exec. rewrite registerModule_eq.
  by destruct (HybridConfig.registerPlatform _ _ _ _ _).
Qed.

Lemma initialize_after (regs : list (string * PlatformModule.t)) :
  PlatformModules.initialize (Registered.after regs) = Registered.after regs.
Proof.
  unfold PlatformModules.initialize. by rewrite after_initialized.
Qed.

Lemma after_youtube (regs : list (string * PlatformModule.t)) :
  is_Some (JSMap.get (modules (Registered.after regs)) "youtube").
Proof.
  induction regs as [|r regs IH] using rev_ind; [by eexists|].
  rewrite after_snoc. unfold Eff.exec. rewrite registerModule_eq.
  destruct (HybridConfig.registerPlatform _ _ _ _ _) as [c table].
  cbn [snd modules].
  destruct (decide (toLowerCase r.1 = "youtube")) as [->|Hne].
  - rewrite JSMapFacts.get_set. by eexists.
  - by rewrite JSMapFacts.get_set_ne.
Qed.

Lemma detectPlatform_YouTube (url : string) :
  LinkDeployerCore.detectPlatform url = Some "YouTube" ->
  exists o, URL_new url = Some o
    /\ (includes (toLowerCase (hostname o)) "youtube.com"
        || includes (toLowerCase (hostname o)) "youtu.be") = true.
Proof.
  unfold LinkDeployerCore.detectPlatform.
  destruct (URL_new url) as [o|]; [|done]. intros Hd. exists o. split; [done|].
  destruct (_ || _) eqn:E in Hd; [done|].
  repeat match type of Hd with
         | context [if ?b then _ else _] => destruct b
         end; discriminate.
Qed.

Lemma detectPlatform_is_Some (url : string) :
  is_Some (LinkProcessor.detectPlatform url) <-> is_Some (URL_new url).
Proof.
  unfold LinkProcessor.detectPlatform.
  destruct (URL_new url) as [o|]; [|done]. split; [by eexists|]. intros _.
  repeat match goal with
         | |- context [if ?b then _ else _] => destruct b
         end; by eexists.
Qed.

End WithHost.
End ModuleFacts.

(** X22. After the import and any further calls of [registerModule], each
    of which has returned or thrown, a URL that the deployer's
    [detectPlatform] names YouTube gets a module from [getModuleByUrl], and
    the call leaves the registry as it was; with no further registration
    the module is the YouTube module. *)
Theorem getModuleByUrl_finds_youtube `{Host}
    (regs : list (string * PlatformModule.t)) (url : string) :
  LinkDeployerCore.detectPlatform url = Some "YouTube" ->
  exists m,
    PlatformModules.getModuleByUrl url (Registered.after regs)
    = (Some m, Registered.after regs)
    /\ (regs = [] -> m = YouTubeModule.module).
Proof.
  intros (o & Eo & Hh)%ModuleFacts.detectPlatform_YouTube.
  unfold PlatformModules.getModuleByUrl.
  rewrite ModuleFacts.initialize_after, Eo. cbv zeta.
  destruct (List.find _ _) as [[p m]|] eqn:Ef.
  - exists m. split; [done|]. intros ->.
    change (modules (Registered.after []))
      with [("youtube", YouTubeModule.module)] in Ef.
    cbn [List.find fst] in Ef.
    destruct (includes _ "youtube"); by simplify_eq.
  - rewrite orb_comm, Hh.
    destruct (ModuleFacts.after_youtube regs) as [m Em]. exists m.
    rewrite Em. split; [done|]. intros ->.
    change (modules (Registered.after []))
      with [("youtube", YouTubeModule.module)] in Em.
    cbn in Em. by simplify_eq.
Qed.

Lemma getModuleByUrl_finds_youtube_witness :
  @PlatformModules.getModuleByUrl SimpleHost.host "https://youtu.be/abc"
    (@Registered.after SimpleHost.host [])
  = (Some (@YouTubeModule.module SimpleHost.host),
     @Registered.after SimpleHost.host [])
  /\ exists m,
       @PlatformModules.getModuleByUrl SimpleHost.host "https://youtu.be/abc"
         (@Registered.after SimpleHost.host Cases.registrations)
       = (Some m, @Registered.after SimpleHost.host Cases.registrations).
Proof.
  split.
  - destruct (@getModuleByUrl_finds_youtube SimpleHost.host []
                "https://youtu.be/abc" eq_refl) as (m & E & Hm).
    by rewrite <- (Hm eq_refl).
  - destruct (@getModuleByUrl_finds_youtube SimpleHost.host
                Cases.registrations "https://youtu.be/abc" eq_refl)
      as (m & E & _).
    by exists m.
Defined.

(** A registration under a name that gives no default pattern throws after
    the module has been stored: the module table has the new entry, the
    platform table is as it was. *)
Example registerModule_throws :
  @PlatformModules.registerModule SimpleHost.host "C++" Sample.handler
    (@PlatformModules.imported SimpleHost.host)
  = (Throw (SyntaxError "Invalid regular expression"),
     {| modules := [("youtube", Sample.handler); ("c++", Sample.handler)];
        initialized := true;
        platforms := platforms (@PlatformModules.imported SimpleHost.host) |}).
Proof. reflexivity. Qed.

(** X23. On the registry as the import leaves it, [processUrl] returns a
    playable URL exactly when the YouTube module's [process] does, and the
    same one; the registry is left as it was. *)
Theorem processUrl_imported `{Host} (url : string) :
  (PlatformModules.processUrl url PlatformModules.imported).2
  = PlatformModules.imported
  /\ (forall p,
        (PlatformModules.processUrl url PlatformModules.imported).1 = Normal p
        <-> YouTubeModule.process url = Normal p).
Proof.
  unfold PlatformModules.processUrl, PlatformModules.getModuleByUrl.
  change (PlatformModules.initialize PlatformModules.imported)
    with PlatformModules.imported.
  change (modules PlatformModules.imported)
    with [("youtube", YouTubeModule.module)].
  cbv zeta. cbn [fst snd]. split; [done|]. intros p.
  assert (Hno : forall o, URL_new url = Some o ->
            includes (toLowerCase (hostname o)) "youtu.be" = false ->
            includes (toLowerCase (hostname o)) "youtube.com" = false ->
            YouTubeModule.process url = Throw YouTubeModule.invalidUrl).
  { intros o Eo E1 E2. unfold YouTubeModule.process,
      YouTubeModule.extractVideoId, new_URL. rewrite Eo. simpl.
    by rewrite E1, E2. }
  destruct (URL_new url) as [o|] eqn:Eo.
  - cbn [List.find fst].
    destruct (includes _ "youtube") eqn:Ey; [done|].
    destruct (includes _ "youtu.be") eqn:Eb; [by cbn|].
    destruct (includes _ "youtube.com") eqn:Ec.
    { apply (ModuleFacts.includes_prefix _ _ "youtube") in Ec; [|done].
      congruence. }
    cbn. by rewrite (Hno o).
  - unfold YouTubeModule.process, YouTubeModule.extractVideoId, new_URL.
    by rewrite Eo.
Qed.

(** X24. For a string that does not parse as a URL, [processUrl] and
    [getEmbedData] of the module registry throw the error
    'No module found for this URL', whatever has been registered. *)
Theorem processUrl_unparseable `{Host} (url : string) (s : Statics) :
  URL_new url = None ->
  (PlatformModules.processUrl url s).1 = Throw PlatformModules.noModule
  /\ (PlatformModules.getEmbedData url s).1 = Throw PlatformModules.noModule.
Proof.
  intros E.
  unfold PlatformModules.processUrl, PlatformModules.getEmbedData,
    PlatformModules.getModuleByUrl.
  by rewrite E.
Qed.

Lemma processUrl_unparseable_witness :
  (@PlatformModules.processUrl SimpleHost.host "http://["
     (@PlatformModules.imported SimpleHost.host)).1
  = Throw PlatformModules.noModule
  /\ (@PlatformModules.getEmbedData SimpleHost.host "http://["
        (@PlatformModules.imported SimpleHost.host)).1
     = Throw PlatformModules.noModule.
Proof.
  apply (@processUrl_unparseable SimpleHost.host "http://[").
  reflexivity.
Defined.

(** X25. [processBatch] answers for the given URLs in their order; an
    entry has [valid] exactly when it has a platform, its platform is the
    one the deployer's [detectPlatform] names, and what the deployer's
    [validateUrl] accepts is [valid]. *)
Theorem processBatch_valid_iff_platform `{Host} (urls : list string) :
  map LinkProcessor.original (LinkProcessor.processBatch urls) = urls
  /\ Forall (fun r =>
       (LinkProcessor.valid r = true <-> is_Some (LinkProcessor.platform r))
       /\ LinkProcessor.platform r
          = LinkDeployerCore.detectPlatform (LinkProcessor.original r)
       /\ (LinkDeployerCore.validateUrl (LinkProcessor.original r) = true ->
           LinkProcessor.valid r = true))
     (LinkProcessor.processBatch urls).
Proof.
  unfold LinkProcessor.processBatch. split.
  - induction urls as [|u urls IH]; [done|]. cbn [map]. by rewrite IH.
  - induction urls as [|u urls IH]; [apply Forall_nil_2|].
    cbn [map]. apply Forall_cons. split; [|exact IH].
    cbn [LinkProcessor.valid LinkProcessor.platform LinkProcessor.original].
    split; [|split].
    + rewrite ModuleFacts.detectPlatform_is_Some.
      unfold LinkProcessor.validateUrl. by rewrite bool_decide_eq_true.
    + done.
    + unfold LinkDeployerCore.validateUrl, LinkProcessor.validateUrl.
      by destruct (String.eqb _ _).
Qed.

(** ** File types *)

Module FileTypeFacts.

Lemma lowerChar_dot (c : ascii) :
  Ascii.eqb (lowerChar c) "." = Ascii.eqb c ".".
Proof.
  destruct c as [b0 b1 b2 b3 b4 b5 b6 b7].
  destruct b0, b1, b2, b3, b4, b5, b6, b7; reflexivity.
Qed.

Lemma startsWith_dot (s : string) :
  startsWith s "."
  = match s with String c _ => Ascii.eqb c "." | EmptyString => false end.
Proof.
  unfold startsWith. destruct s as [|c s]; [done|]. cbn [String.prefix].
  destruct (ascii_dec "." c) as [<-|Hne].
  - by destruct s.
  - symmetry. apply Ascii.eqb_neq. congruence.
Qed.

Lemma includes_dot_lower (s : string) :
  includes (toLowerCase s) "." = includes s ".".
Proof.
  induction s as [|c s IH]; [done|].
  cbn [toLowerCase includes]. rewrite !startsWith_dot, IH.
  by rewrite lowerChar_dot.
Qed.

Lemma toLowerCase_empty (s : string) :
  String.eqb (toLowerCase s) "" = String.eqb s "".
Proof. by destruct s. Qed.

Lemma extensionMatch_no_dot (s : string) :
  includes s "." = false -> Scan.extensionMatch s = None.
Proof.
  induction s as [|c s IH]; [done|].
  cbn [includes Scan.extensionMatch]. rewrite startsWith_dot.
  intros [Hc Hs]%orb_false_iff. by rewrite (IH Hs), Hc.
Qed.

Lemma plain_nonempty (type : string) : Ext.plain type = true -> type <> "".
Proof. by destruct type. Qed.

Lemma ext_of_suffix (name type : string) :
  Ext.plain type = true ->
  endsWith (toLowerCase name) type = true ->
  LinkProcessor.getFileExtension name = type.
Proof.
  intros Hp. unfold LinkProcessor.getFileExtension.
  induction name as [|c s IH]; cbn [toLowerCase endsWith].
  - rewrite orb_false_r. intros E%String.eqb_eq. subst type. discriminate Hp.
  - intros [He|Hs]%orb_true_iff.
    + apply String.eqb_eq in He. subst type.
      cbn [Ext.plain] in Hp.
      apply andb_true_iff in Hp as [[Hc Hn]%andb_true_iff Hi].
      rewrite lowerChar_dot in Hc. rewrite toLowerCase_empty in Hn.
      rewrite includes_dot_lower in Hi.
      cbn [Scan.extensionMatch].
      rewrite (extensionMatch_no_dot s) by (by destruct (includes s ".")).
      by rewrite Hc, Hn, Hi.
    + specialize (IH Hs). cbn [Scan.extensionMatch].
      destruct (Scan.extensionMatch s) as [m|]; [done|].
      by apply plain_nonempty in Hp.
Qed.

End FileTypeFacts.



(** X27. A file accepted under the file types [.txt], [.json] and [.md] is
    read by the JSON, the Markdown or the text reader, by the ending of its
    lower-cased name, and never by the generic text scan. *)
Theorem accepted_file_reader `{Host} (file : LinkDeployerCore.File)
    (content : string) :
  LinkDeployerCore.isValidFileType [".txt"; ".json"; ".md"] file = true ->
  LinkProcessor.extractUrls content (LinkDeployerCore.file_name file)
  = let fileName := toLowerCase (LinkDeployerCore.file_name file) in
    if endsWith fileName ".txt"
    then mret (FileLinkReader.readTextUrls content)
    else if endsWith fileName ".json"
    then FileLinkReader.readJsonUrls content
    else mret (FileLinkReader.readMarkdownUrls content).
Proof.
  unfold LinkDeployerCore.isValidFileType, LinkProcessor.extractUrls.
  cbv zeta. cbn [existsb]. rewrite orb_false_r. intros Hv.
  destruct (endsWith _ ".txt") eqn:Et.
  { by rewrite (FileTypeFacts.ext_of_suffix _ ".txt" eq_refl Et). }
  destruct (endsWith _ ".json") eqn:Ej.
  { by rewrite (FileTypeFacts.ext_of_suffix _ ".json" eq_refl Ej). }
  cbn [orb] in Hv.
  by rewrite (FileTypeFacts.ext_of_suffix _ ".md" eq_refl Hv).
Qed.

Lemma accepted_file_reader_witness :
  @LinkProcessor.extractUrls SimpleHost.host ""
    (LinkDeployerCore.file_name Cases.upperNotes)
  = mret (@FileLinkReader.readMarkdownUrls SimpleHost.host "").
Proof.
  apply (@accepted_file_reader SimpleHost.host Cases.upperNotes "").
  reflexivity.
Defined.

(** X28. [isYouTubeUrl] accepts exactly the URLs that the deployer's
    [detectPlatform] names YouTube, and [process] throws on every URL it
    refuses; [getThumbnailUrl] returns [null] exactly when [process]
    throws, at every quality. *)
Theorem isYouTubeUrl_agrees_with_detectPlatform `{Host} (url : string)
    (quality : option YouTubeModule.Quality) :
  (YouTubeModule.isYouTubeUrl url = true
   <-> LinkDeployerCore.detectPlatform url = Some "YouTube")
  /\ (YouTubeModule.isYouTubeUrl url = false ->
      YouTubeModule.process url = Throw YouTubeModule.invalidUrl)
  /\ (YouTubeModule.getThumbnailUrl url quality = Normal None
      <-> YouTubeModule.process url = Throw YouTubeModule.invalidUrl).
Proof.
  split; [|split].
  - unfold YouTubeModule.isYouTubeUrl. split.
    + unfold LinkDeployerCore.detectPlatform.
      destruct (URL_new url) as [o|]; [|done]. cbv zeta. by intros ->.
    + intros (o & -> & Hh)%ModuleFacts.detectPlatform_YouTube. exact Hh.
  - unfold YouTubeModule.isYouTubeUrl, YouTubeModule.process,
      YouTubeModule.extractVideoId, new_URL.
    destruct (URL_new url) as [o|]; [|done]. cbv zeta.
    intros [E1 E2]%orb_false_iff. simpl. by rewrite E1, E2.
  - destruct (YouTubeFacts.extractVideoId_returns url) as (r & E & Hr).
    unfold YouTubeModule.getThumbnailUrl, YouTubeModule.process.
    rewrite E. change (Normal r ≫= ?f) with (f r). cbv beta. rewrite Hr.
    by destruct r.
Qed.

(** ** The command line *)

Module CommandFacts.
Section WithHost.
Context `{Host}.







End WithHost.
End CommandFacts.




